(** * PostgreSQL Explorer: session, query orchestration and metadata tree

    A shallow embedding of the database layer of the Electron application:

    - [Main]: the main-process [PostgreSQLService] of
      [src/lib/main/database-handler.ts], which owns the [pg] client;
    - [Renderer]: the renderer-process [PostgreSQLService] of
      [src/app/services/database/postgresql.service.ts], which reaches the
      main process through [window.databaseApi];
    - [Store]: the zustand store [useDatabaseStore] (query execution and the
      query history);
    - [Explorer]: the [SchemaExplorer] component state and its connection
      effect;
    - [ConnectionManager]: [ConnectionManagerService.getConnections] over
      [localStorage].

    Asynchronous methods are modelled as sequential computations in a state
    and exception monad: every [await] is a call that either returns or
    throws.  The [pg] driver, the clocks, the bridge between the two
    processes and [JSON.parse] are external; the driver and the clocks are an
    oracle [Env] indexed by the number of interactions made so far, so that
    any behaviour of the outside world is some oracle.  *)

From Stdlib Require Import ZArith String Ascii List Lia Bool.
From stdpp Require Import base option list gmap strings pretty sorting.

Open Scope string_scope.

(** ** JavaScript values, errors and strings *)

Module Js.

(** A JavaScript [Error].  [transport] records whether the failure is one of
    the connection itself (socket closed, reset) rather than one reported by
    the server for a statement; it is the environment's knowledge and no
    code of the application reads it. *)
Record Error := { message : string; transport : bool }.

(** [new Error(msg)] *)
Definition mkError (msg : string) : Error :=
  {| message := msg; transport := false |}.

(** Outcome of a call: a value, or a thrown error (a rejected promise). *)
Inductive Result (A : Type) : Type :=
| Ok (a : A)
| Throw (e : Error).
Arguments Ok {A} a.
Arguments Throw {A} e.

(** The values found in rows returned by the driver. *)
Inductive JsVal :=
| JUndefined
| JNull
| JBool (b : bool)
| JNum (n : Z)
| JStr (s : string).

(** A row is a record of column values, in column order. *)
Definition Row := list (string * JsVal).

(** Property access [row.k]: [undefined] when the column is missing. *)
Fixpoint prop (k : string) (r : Row) : JsVal :=
  match r with
  | [] => JUndefined
  | (k', v) :: r' => if String.eqb k k' then v else prop k r'
  end.

(** Strings are sequences of code units below 256; the white space and line
    terminators that [String.prototype.trim] strips in that range are TAB,
    LF, VT, FF, CR, SPACE and NBSP. *)
Definition is_whitespace (c : ascii) : bool :=
  match nat_of_ascii c with
  | 9 | 10 | 11 | 12 | 13 | 32 | 160 => true
  | _ => false
  end.

Fixpoint trimStart (s : string) : string :=
  match s with
  | EmptyString => EmptyString
  | String c s' => if is_whitespace c then trimStart s' else s
  end.

Definition trimEnd (s : string) : string :=
  String.rev (trimStart (String.rev s)).

(** [s.trim()] *)
Definition trim (s : string) : string := trimEnd (trimStart s).

(** Truthiness of a string: only the empty string is falsy. *)
Definition truthy (s : string) : bool := negb (String.eqb s "").

(** [a || b] where [a] is a string or [undefined] and [b] a string. *)
Definition or_else (a : option string) (b : string) : string :=
  match a with
  | Some s => if truthy s then s else b
  | None => b
  end.

(** [String(n)] for an integer [n] (decimal digits). *)
Definition string_of_number (n : Z) : string := pretty n.

End Js.
Export Js.

Arguments trim : simpl never.
Arguments truthy : simpl never.
Arguments or_else : simpl never.

(** ** The state and exception monad *)

Definition M (S A : Type) : Type := S -> Result A * S.

#[global] Instance M_ret {S} : MRet (M S) := fun A a s => (Ok a, s).

#[global] Instance M_bind {S} : MBind (M S) := fun A B f m s =>
  match m s with
  | (Ok a, s') => f a s'
  | (Throw e, s') => (Throw e, s')
  end.

Section Control.
Context {S : Type}.

Definition get : M S S := fun s => (Ok s, s).
Definition modify (f : S -> S) : M S unit := fun s => (Ok tt, f s).
Definition throw {A} (e : Error) : M S A := fun s => (Throw e, s).

(** [try { body } catch (e) { handler e }] *)
Definition try_catch {A} (body : M S A) (handler : Error -> M S A) : M S A :=
  fun s =>
    match body s with
    | (Ok a, s') => (Ok a, s')
    | (Throw e, s') => handler e s'
    end.

(** [try { body } finally { fin }]: the finaliser always runs; when it
    completes normally the outcome is that of the body. *)
Definition try_finally {A} (body : M S A) (fin : M S unit) : M S A :=
  fun s =>
    match body s with
    | (r, s') =>
        match fin s' with
        | (Ok _, s'') => (r, s'')
        | (Throw e, s'') => (Throw e, s'')
        end
    end.

(** Run a computation of a component inside the state that contains it. *)
Definition zoom {T A} (proj : S -> T) (upd : T -> S -> S) (m : M T A) : M S A :=
  fun s => match m (proj s) with (r, t) => (r, upd t s) end.

End Control.

(** ** Configuration records ([types.ts]) *)

Record PostgreSQLConnectionConfig := {
  id : option string;
  name : string;
  host : string;
  port : Z;
  database : string;
  username : string;
  password : string;
  ssl : bool;
  savePassword : bool;
  lastUsed : option string;
}.

Record ConnectionTestResult := {
  success : bool;
  message : string;
  error : option Error;
}.

Record Field := {
  field_name : string;
  dataTypeID : Z;
  dataType : option string;
}.

Record QueryResult := {
  rows : list Row;
  fields : list Field;
  rowCount : Z;
  command : string;
  duration : Z;
}.

(** ** The [pg] driver and the clocks *)

Module Pg.

Record SslOptions := { rejectUnauthorized : bool }.

Record ClientConfig := {
  host : string;
  port : Z;
  database : string;
  user : string;
  password : string;
  ssl : option SslOptions;   (* [false] is [None] *)
}.

(** A [Client] object: its identity and the configuration it was built with. *)
Record Client := { handle : nat; clientConfig : ClientConfig }.

Record FieldDef := { name : string; dataTypeID : Z }.

(** [QueryResult] of [pg]; [rowCount] may be [null], [command] may be empty. *)
Record QueryResult := {
  rows : list Row;
  fields : list FieldDef;
  rowCount : option Z;
  command : string;
}.

(** The outside world: what each interaction answers, by the number of
    interactions made before it. *)
Record Env := {
  on_connect : nat -> ClientConfig -> option Error;
  on_end : nat -> option Error;
  on_query : nat -> string -> list JsVal -> Result QueryResult;
  date_now : nat -> Z;
  iso_now : nat -> string;
  (* the error with which [ipcRenderer.invoke] rejects when the handler of
     the channel threw *)
  remote_error : string -> Error -> Error;
}.

(** How Electron words the rejection of [invoke]. *)
Definition electron_error (channel : string) (e : Error) : Error :=
  {| Js.message := "Error invoking remote method '" +:+ channel +:+ "': Error: "
                     +:+ Js.message e;
     transport := transport e |}.

(** What the driver was asked to do, most recent first. *)
Inductive Event :=
| Opened (h : nat)                       (* [connect()] resolved: the handle is open *)
| OpenFailed (h : nat)                   (* [connect()] rejected: no handle *)
| Ended (h : nat) (was_open : bool)      (* [end()] was called *)
| Queried (h : nat) (sql : string) (params : list JsVal).

(** Driver state: the interaction counter, the next client identity, the
    handles that are open, and the log. *)
Record Driver := {
  tick : nat;
  next_handle : nat;
  live : list nat;
  events : list Event;
}.

Definition initial : Driver :=
  {| tick := 0; next_handle := 0; live := []; events := [] |}.

Definition is_live (h : nat) (d : Driver) : bool :=
  existsb (Nat.eqb h) (live d).

(** [new Client(cfg)]: allocates the object, no input or output. *)
Definition new_Client (cfg : ClientConfig) : M Driver Client :=
  fun d =>
    (Ok {| handle := next_handle d; clientConfig := cfg |},
     {| tick := tick d; next_handle := Datatypes.S (next_handle d);
        live := live d; events := events d |}).

Section Calls.
Variable env : Env.

(** [client.connect()] *)
Definition client_connect (c : Client) : M Driver unit :=
  fun d =>
    match on_connect env (tick d) (clientConfig c) with
    | None =>
        (Ok tt,
         {| tick := Datatypes.S (tick d); next_handle := next_handle d;
            live := handle c :: live d;
            events := Opened (handle c) :: events d |})
    | Some e =>
        (Throw e,
         {| tick := Datatypes.S (tick d); next_handle := next_handle d;
            live := live d;
            events := OpenFailed (handle c) :: events d |})
    end.

(** [client.end()]: whatever it answers, the handle is gone. *)
Definition client_end (c : Client) : M Driver unit :=
  fun d =>
    (match on_end env (tick d) with
     | None => Ok tt
     | Some e => Throw e
     end,
     {| tick := Datatypes.S (tick d); next_handle := next_handle d;
        live := List.filter (fun h => negb (Nat.eqb h (handle c))) (live d);
        events := Ended (handle c) (is_live (handle c) d) :: events d |}).

(** [client.query(sql, params)] *)
Definition client_query (c : Client) (sql : string) (params : list JsVal)
  : M Driver QueryResult :=
  fun d =>
    (on_query env (tick d) sql params,
     {| tick := Datatypes.S (tick d); next_handle := next_handle d;
        live := live d;
        events := Queried (handle c) sql params :: events d |}).

(** [Date.now()] *)
Definition Date_now : M Driver Z :=
  fun d =>
    (Ok (date_now env (tick d)),
     {| tick := Datatypes.S (tick d); next_handle := next_handle d;
        live := live d; events := events d |}).

End Calls.

Definition is_open_event (e : Event) : bool :=
  match e with Opened _ => true | _ => false end.

Definition is_close_event (e : Event) : bool :=
  match e with Ended _ true => true | _ => false end.

(** Number of handles opened, and of open handles closed. *)
Definition handle_opens (d : Driver) : nat :=
  length (List.filter is_open_event (events d)).

Definition handle_closes (d : Driver) : nat :=
  length (List.filter is_close_event (events d)).

End Pg.

(** ** The main-process service ([database-handler.ts]) *)

Module Main.

(** The fields of [class PostgreSQLService]. *)
Record PostgreSQLService := {
  client : option Pg.Client;
  config : option Pg.ClientConfig;
  connectionConfig : option PostgreSQLConnectionConfig;
}.

(** The main process: the singleton service, the driver and the console. *)
Record World := {
  svc : PostgreSQLService;
  pg : Pg.Driver;
  console : list string;
}.

Definition initial : World :=
  {| svc := {| client := None; config := None; connectionConfig := None |};
     pg := Pg.initial;
     console := [] |}.

Definition set_client (c : option Pg.Client) : M World unit :=
  modify (fun w =>
    {| svc := {| client := c; config := config (svc w);
                 connectionConfig := connectionConfig (svc w) |};
       pg := pg w; console := console w |}).

Definition set_config (c : option Pg.ClientConfig) : M World unit :=
  modify (fun w =>
    {| svc := {| client := client (svc w); config := c;
                 connectionConfig := connectionConfig (svc w) |};
       pg := pg w; console := console w |}).

Definition set_connectionConfig (c : option PostgreSQLConnectionConfig) : M World unit :=
  modify (fun w =>
    {| svc := {| client := client (svc w); config := config (svc w);
                 connectionConfig := c |};
       pg := pg w; console := console w |}).

(** [console.error(label, e)] *)
Definition console_error (label : string) (e : Error) : M World unit :=
  modify (fun w =>
    {| svc := svc w; pg := pg w;
       console := (label +:+ " " +:+ Js.message e) :: console w |}).

(** A driver call made from the main process. *)
Definition driver {A} (m : M Pg.Driver A) : M World A :=
  zoom pg (fun d w => {| svc := svc w; pg := d; console := console w |}) m.

Definition no_connection {A} : M World A :=
  throw (mkError "No active database connection").

(** The type table of [getDataTypeName]. *)
Definition typeMap : gmap Z string :=
  list_to_map
    [ (16, "boolean"); (23, "integer"); (21, "smallint"); (20, "bigint");
      (700, "real"); (701, "double precision"); (1700, "numeric");
      (25, "text"); (1043, "varchar"); (1082, "date"); (1114, "timestamp");
      (1184, "timestamptz"); (114, "json"); (3802, "jsonb"); (2950, "uuid");
      (1015, "text[]"); (1007, "integer[]") ]%Z.

Definition getDataTypeName (typeId : Z) : string :=
  or_else (typeMap !! typeId) ("unknown(" +:+ string_of_number typeId +:+ ")").

Definition getSchemas_query : string := "
      SELECT schema_name 
      FROM information_schema.schemata 
      WHERE schema_name NOT IN ('information_schema', 'pg_catalog', 'pg_toast') 
      ORDER BY schema_name
    ".

Definition getTables_query : string := "
      SELECT 
        table_name as name,
        CASE table_type
          WHEN 'BASE TABLE' THEN 'table'
          WHEN 'VIEW' THEN 'view'
        END as type
      FROM information_schema.tables
      WHERE table_schema = $1
      ORDER BY table_name
    ".

Definition matViewQuery : string := "
      SELECT matviewname as name, 'materialized_view' as type
      FROM pg_matviews
      WHERE schemaname = $1
      ORDER BY matviewname
    ".

(** A double quote, for the quoted column aliases of the columns query. *)
Definition dquote : string := String (ascii_of_nat 34) EmptyString.

Definition getTableColumns_query : string := "
      SELECT 
        column_name as name,
        data_type as " +:+ dquote +:+ "dataType" +:+ dquote +:+ ",
        is_nullable = 'YES' as nullable,
        column_default as default,
        (
          SELECT EXISTS (
            SELECT 1 FROM information_schema.table_constraints tc
            JOIN information_schema.key_column_usage kcu 
              ON tc.constraint_name = kcu.constraint_name 
              AND tc.table_schema = kcu.table_schema
            WHERE tc.constraint_type = 'PRIMARY KEY'
              AND tc.table_schema = $1
              AND tc.table_name = $2
              AND kcu.column_name = c.column_name
          )
        ) as " +:+ dquote +:+ "isPrimaryKey" +:+ dquote +:+ "
      FROM information_schema.columns c
      WHERE table_schema = $1 AND table_name = $2
      ORDER BY ordinal_position
    ".

(** The [clientConfig] object that [createClient] builds from [config]. *)
Definition clientConfig_of (cfg : PostgreSQLConnectionConfig) : Pg.ClientConfig :=
  {| Pg.host := host cfg;
     Pg.port := port cfg;
     Pg.database := database cfg;
     Pg.user := username cfg;
     Pg.password := password cfg;
     Pg.ssl := if ssl cfg then Some {| Pg.rejectUnauthorized := false |} else None |}.

Definition createClient (cfg : PostgreSQLConnectionConfig) : M World Pg.Client :=
  let clientConfig := clientConfig_of cfg in
  set_config (Some clientConfig) ;;
  set_connectionConfig (Some cfg) ;;
  driver (Pg.new_Client clientConfig).

Section Methods.
Variable env : Pg.Env.

Definition disconnect : M World unit :=
  w ← get ;
  match client (svc w) with
  | Some c =>
      try_finally
        (try_catch (driver (Pg.client_end env c))
                   (fun e => console_error "Error during disconnect:" e))
        (set_client None ;; set_config None)
  | None => mret tt
  end.

Definition connect (cfg : PostgreSQLConnectionConfig) : M World ConnectionTestResult :=
  try_catch
    ((* Close existing connection if any *)
     disconnect ;;
     (* Create and connect to new client *)
     c ← createClient cfg ;
     set_client (Some c) ;;
     driver (Pg.client_connect env c) ;;
     mret {| success := true;
             message := "Successfully connected to database";
             error := None |})
    (fun e =>
       set_client None ;;
       set_config None ;;
       mret {| success := false;
               message := "Failed to connect: " +:+ Js.message e;
               error := Some e |}).

Definition testConnection (cfg : PostgreSQLConnectionConfig) : M World ConnectionTestResult :=
  tempClient ← createClient cfg ;
  try_finally
    (try_catch
       (driver (Pg.client_connect env tempClient) ;;
        driver (Pg.client_query env tempClient "SELECT 1" []) ;;
        mret {| success := true;
                message := "Connection test successful";
                error := None |})
       (fun e =>
          mret {| success := false;
                  message := "Connection test failed: " +:+ Js.message e;
                  error := Some e |}))
    (try_catch (driver (Pg.client_end env tempClient))
               (fun e => console_error "Error closing test connection:" e)).

Definition executeQuery (sql : string) : M World QueryResult :=
  w ← get ;
  match client (svc w) with
  | None => no_connection
  | Some c =>
      startTime ← driver (Pg.Date_now env) ;
      try_catch
        (result ← driver (Pg.client_query env c sql []) ;
         now ← driver (Pg.Date_now env) ;
         let duration := (now - startTime)%Z in
         mret {| rows := Pg.rows result;
                 fields :=
                   List.map (fun field =>
                               {| field_name := Pg.name field;
                                  dataTypeID := Pg.dataTypeID field;
                                  dataType := Some (getDataTypeName (Pg.dataTypeID field)) |})
                            (Pg.fields result);
                 rowCount := match Pg.rowCount result with
                             | Some n => n   (* [0 || 0] is [0] *)
                             | None => 0
                             end;
                 command := Pg.command result;   (* ['' || ''] is [''] *)
                 duration := duration |})
        (fun error => throw error)
  end.

Definition getSchemas : M World (list JsVal) :=
  w ← get ;
  match client (svc w) with
  | None => no_connection
  | Some c =>
      result ← driver (Pg.client_query env c getSchemas_query []) ;
      mret (List.map (fun row => prop "schema_name" row) (Pg.rows result))
  end.

Definition getTables (schema : string) : M World (list Row) :=
  w ← get ;
  match client (svc w) with
  | None => no_connection
  | Some c =>
      (* Get regular tables and views *)
      result ← driver (Pg.client_query env c getTables_query [JStr schema]) ;
      (* Get materialized views *)
      matViewResult ← driver (Pg.client_query env c matViewQuery [JStr schema]) ;
      mret (Pg.rows result ++ Pg.rows matViewResult)%list
  end.

Definition getTableColumns (schema table : string) : M World (list Row) :=
  w ← get ;
  match client (svc w) with
  | None => no_connection
  | Some c =>
      result ← driver (Pg.client_query env c getTableColumns_query
                         [JStr schema; JStr table]) ;
      mret (Pg.rows result)
  end.

(** The requests that [registerDatabaseHandlers] serves, one per channel. *)
Inductive Request :=
| CONNECT (cfg : PostgreSQLConnectionConfig)
| DISCONNECT
| TEST_CONNECTION (cfg : PostgreSQLConnectionConfig)
| EXECUTE_QUERY (sql : string)
| GET_SCHEMAS
| GET_TABLES (schema : string)
| GET_TABLE_COLUMNS (schema table : string).

(** The main process after serving a request (the reply itself goes to the
    renderer). *)
Definition serve (r : Request) (w : World) : World :=
  match r with
  | CONNECT cfg => snd (connect cfg w)
  | DISCONNECT => snd (disconnect w)
  | TEST_CONNECTION cfg => snd (testConnection cfg w)
  | EXECUTE_QUERY sql => snd (executeQuery sql w)
  | GET_SCHEMAS => snd (getSchemas w)
  | GET_TABLES schema => snd (getTables schema w)
  | GET_TABLE_COLUMNS schema table => snd (getTableColumns schema table w)
  end.

(** Serving a sequence of requests, one after the other. *)
Definition serve_all (rs : list Request) (w : World) : World :=
  fold_left (fun w r => serve r w) rs w.

End Methods.

End Main.

(** ** The renderer-process service ([postgresql.service.ts]) *)

Module Renderer.

Record PostgreSQLService := {
  connectionConfig : option PostgreSQLConnectionConfig;
  connected : bool;
}.

(** The renderer's service object, and the main process behind the bridge. *)
Record World := {
  svc : PostgreSQLService;
  main : Main.World;
}.

Definition initial : World :=
  {| svc := {| connectionConfig := None; connected := false |};
     main := Main.initial |}.

Definition set_svc (cc : option PostgreSQLConnectionConfig) (c : bool) : M World unit :=
  modify (fun w => {| svc := {| connectionConfig := cc; connected := c |};
                      main := main w |}).

(** The IPC channels. *)
Module channels.
Definition CONNECT : string := "database:connect".
Definition DISCONNECT : string := "database:disconnect".
Definition TEST_CONNECTION : string := "database:test-connection".
Definition EXECUTE_QUERY : string := "database:execute-query".
Definition GET_SCHEMAS : string := "database:get-schemas".
Definition GET_TABLES : string := "database:get-tables".
Definition GET_TABLE_COLUMNS : string := "database:get-table-columns".
End channels.

(** [window.databaseApi.f(args)]: [ipcRenderer.invoke(channel, args)] runs
    the handler that [registerDatabaseHandlers] bound to the channel and
    resolves with its value, or rejects with the bridge's rendering of the
    error it threw. *)
Definition invoke {A} (env : Pg.Env) (channel : string)
    (handler : M Main.World A) : M World A :=
  fun w =>
    match handler (main w) with
    | (Ok a, m) => (Ok a, {| svc := svc w; main := m |})
    | (Throw e, m) =>
        (Throw (Pg.remote_error env channel e), {| svc := svc w; main := m |})
    end.

Definition no_connection {A} : M World A :=
  throw (mkError "No active database connection").

Section Methods.
Variable env : Pg.Env.

Definition connect (cfg : PostgreSQLConnectionConfig) : M World ConnectionTestResult :=
  try_catch
    (result ← invoke env channels.CONNECT (Main.connect env cfg) ;
     (if success result
      then set_svc (Some cfg) true
      else set_svc None false) ;;
     mret result)
    (fun e =>
       set_svc None false ;;
       mret {| success := false;
               message := "Failed to connect: " +:+ Js.message e;
               error := Some e |}).

Definition testConnection (cfg : PostgreSQLConnectionConfig) : M World ConnectionTestResult :=
  try_catch
    (invoke env channels.TEST_CONNECTION (Main.testConnection env cfg))
    (fun e =>
       mret {| success := false;
               message := "Connection test failed: " +:+ Js.message e;
               error := Some e |}).

Definition disconnect : M World unit :=
  try_finally
    (invoke env channels.DISCONNECT (Main.disconnect env))
    (set_svc None false).

Definition executeQuery (sql : string) : M World QueryResult :=
  w ← get ;
  if negb (connected (svc w)) then no_connection
  else invoke env channels.EXECUTE_QUERY (Main.executeQuery env sql).

Definition getSchemas : M World (list JsVal) :=
  w ← get ;
  if negb (connected (svc w)) then no_connection
  else invoke env channels.GET_SCHEMAS (Main.getSchemas env).

Definition getTables (schema : string) : M World (list Row) :=
  w ← get ;
  if negb (connected (svc w)) then no_connection
  else invoke env channels.GET_TABLES (Main.getTables env schema).

Definition getTableColumns (schema table : string) : M World (list Row) :=
  w ← get ;
  if negb (connected (svc w)) then no_connection
  else invoke env channels.GET_TABLE_COLUMNS (Main.getTableColumns env schema table).

(** The asynchronous methods of the service, as calls. *)
Inductive Call :=
| Connect (cfg : PostgreSQLConnectionConfig)
| TestConnection (cfg : PostgreSQLConnectionConfig)
| Disconnect
| ExecuteQuery (sql : string)
| GetSchemas
| GetTables (schema : string)
| GetTableColumns (schema table : string).

(** The service and the main process after a call (its outcome goes to the
    caller). *)
Definition perform (c : Call) (w : World) : World :=
  match c with
  | Connect cfg => snd (connect cfg w)
  | TestConnection cfg => snd (testConnection cfg w)
  | Disconnect => snd (disconnect w)
  | ExecuteQuery sql => snd (executeQuery sql w)
  | GetSchemas => snd (getSchemas w)
  | GetTables schema => snd (getTables schema w)
  | GetTableColumns schema table => snd (getTableColumns schema table w)
  end.

Definition perform_all (cs : list Call) (w : World) : World :=
  fold_left (fun w c => perform c w) cs w.

End Methods.

Definition getConnectionConfig (w : World) : option PostgreSQLConnectionConfig :=
  connectionConfig (svc w).

Definition isConnected (w : World) : bool := connected (svc w).

End Renderer.

(** ** The store ([useDatabaseStore]) *)

Module Store.

Record QueryHistoryEntry := { query : string; timestamp : string }.

Record DatabaseState := {
  connections : list PostgreSQLConnectionConfig;
  selectedConnection : option PostgreSQLConnectionConfig;
  isConnected : bool;
  isConnecting : bool;
  connectionError : option string;
  currentQuery : string;
  queryHistory : list QueryHistoryEntry;
  queryResult : option QueryResult;
  isExecutingQuery : bool;
  queryError : option string;
}.

(** The store state, the [postgresqlService] instance it holds (with the main
    process behind it) and the number of readings of the renderer's clock. *)
Record World := {
  state : DatabaseState;
  service : Renderer.World;
  clock : nat;
}.

Definition initial_state : DatabaseState :=
  {| connections := [];
     selectedConnection := None;
     isConnected := false;
     isConnecting := false;
     connectionError := None;
     currentQuery := "";
     queryHistory := [];
     queryResult := None;
     isExecutingQuery := false;
     queryError := None |}.

Definition initial : World :=
  {| state := initial_state; service := Renderer.initial; clock := 0 |}.

(** [set(f)] of zustand. *)
Definition set (f : DatabaseState -> DatabaseState) : M World unit :=
  modify (fun w => {| state := f (state w); service := service w; clock := clock w |}).

Definition with_queryHistory (h : list QueryHistoryEntry) (s : DatabaseState) :=
  {| connections := connections s; selectedConnection := selectedConnection s;
     isConnected := isConnected s; isConnecting := isConnecting s;
     connectionError := connectionError s; currentQuery := currentQuery s;
     queryHistory := h; queryResult := queryResult s;
     isExecutingQuery := isExecutingQuery s; queryError := queryError s |}.

Definition with_queryResult (r : option QueryResult) (s : DatabaseState) :=
  {| connections := connections s; selectedConnection := selectedConnection s;
     isConnected := isConnected s; isConnecting := isConnecting s;
     connectionError := connectionError s; currentQuery := currentQuery s;
     queryHistory := queryHistory s; queryResult := r;
     isExecutingQuery := isExecutingQuery s; queryError := queryError s |}.

Definition with_isExecutingQuery (b : bool) (s : DatabaseState) :=
  {| connections := connections s; selectedConnection := selectedConnection s;
     isConnected := isConnected s; isConnecting := isConnecting s;
     connectionError := connectionError s; currentQuery := currentQuery s;
     queryHistory := queryHistory s; queryResult := queryResult s;
     isExecutingQuery := b; queryError := queryError s |}.

Definition with_queryError (e : option string) (s : DatabaseState) :=
  {| connections := connections s; selectedConnection := selectedConnection s;
     isConnected := isConnected s; isConnecting := isConnecting s;
     connectionError := connectionError s; currentQuery := currentQuery s;
     queryHistory := queryHistory s; queryResult := queryResult s;
     isExecutingQuery := isExecutingQuery s; queryError := e |}.

Definition with_currentQuery (q : string) (s : DatabaseState) :=
  {| connections := connections s; selectedConnection := selectedConnection s;
     isConnected := isConnected s; isConnecting := isConnecting s;
     connectionError := connectionError s; currentQuery := q;
     queryHistory := queryHistory s; queryResult := queryResult s;
     isExecutingQuery := isExecutingQuery s; queryError := queryError s |}.

(** A call on [postgresqlService]. *)
Definition call {A} (m : M Renderer.World A) : M World A :=
  zoom service (fun r w => {| state := state w; service := r; clock := clock w |}) m.

Section Actions.
Variable env : Pg.Env.

(** [new Date().toISOString()] *)
Definition toISOString_now : M World string :=
  fun w => (Ok (Pg.iso_now env (clock w)),
            {| state := state w; service := service w;
               clock := Datatypes.S (clock w) |}).

Definition setCurrentQuery (q : string) : M World unit :=
  set (with_currentQuery q).

Definition addToQueryHistory (q : string) : M World unit :=
  if negb (truthy (trim q)) then mret tt
  else
    ts ← toISOString_now ;
    set (fun s =>
           with_queryHistory
             ({| query := q; timestamp := ts |}
                :: firstn 49 (queryHistory s))   (* Keep last 50 queries *)
             s).

Definition executeQuery (q : option string) : M World (option QueryResult) :=
  w ← get ;
  let queryToExecute := or_else q (currentQuery (state w)) in
  if negb (truthy (trim queryToExecute)) then mret None
  else
    set (fun s => with_queryError None (with_isExecutingQuery true s)) ;;
    try_finally
      (try_catch
         (result ← call (Renderer.executeQuery env queryToExecute) ;
          set (with_queryResult (Some result)) ;;
          addToQueryHistory queryToExecute ;;
          mret (Some result))
         (fun e =>
            let errorMessage := Js.message e in
            set (with_queryError (Some errorMessage)) ;;
            mret None))
      (set (with_isExecutingQuery false)).

Definition disconnectFromDatabase : M World unit :=
  call (Renderer.disconnect env) ;;
  set (fun s =>
         {| connections := connections s;
            selectedConnection := selectedConnection s;
            isConnected := false;
            isConnecting := isConnecting s;
            connectionError := None;
            currentQuery := currentQuery s;
            queryHistory := queryHistory s;
            queryResult := None;
            isExecutingQuery := isExecutingQuery s;
            queryError := None |}).

Definition testConnection (connection : PostgreSQLConnectionConfig)
  : M World ConnectionTestResult :=
  call (Renderer.testConnection env connection).

Definition clearQueryResult : M World unit :=
  set (fun s => with_queryError None (with_queryResult None s)).

End Actions.

End Store.

(** ** The schema tree ([SchemaExplorer]) *)

Module Explorer.

Inductive RelationType := table | view | materialized_view.

Record TableTreeItem := {
  t_name : string;
  t_schema : string;
  t_type : RelationType;
}.

Record SchemaTreeItem := {
  name : JsVal;
  expanded : bool;
  loading_item : bool;
  items : list TableTreeItem;
}.

(** The component's [useState] cells. *)
Record State := {
  schemas : list SchemaTreeItem;
  loading : bool;
  error : option string;
}.

Record World := {
  ui : State;
  service : Renderer.World;
  console : list string;
}.

Definition initial : World :=
  {| ui := {| schemas := []; loading := false; error := None |};
     service := Renderer.initial;
     console := [] |}.

Definition setSchemas (l : list SchemaTreeItem) : M World unit :=
  modify (fun w => {| ui := {| schemas := l; loading := loading (ui w); error := error (ui w) |};
                      service := service w; console := console w |}).

Definition setLoading (b : bool) : M World unit :=
  modify (fun w => {| ui := {| schemas := schemas (ui w); loading := b; error := error (ui w) |};
                      service := service w; console := console w |}).

Definition setError (e : option string) : M World unit :=
  modify (fun w => {| ui := {| schemas := schemas (ui w); loading := loading (ui w); error := e |};
                      service := service w; console := console w |}).

Definition console_error (label : string) (e : Error) : M World unit :=
  modify (fun w => {| ui := ui w; service := service w;
                      console := (label +:+ " " +:+ Js.message e) :: console w |}).

Definition call {A} (m : M Renderer.World A) : M World A :=
  zoom service (fun r w => {| ui := ui w; service := r; console := console w |}) m.

Definition schemaItem (n : JsVal) : SchemaTreeItem :=
  {| name := n; expanded := false; loading_item := false; items := [] |}.

Section Component.
Variable env : Pg.Env.

Definition loadSchemas : M World unit :=
  setLoading true ;;
  setError None ;;
  try_finally
    (try_catch
       (schemaNames ← call (Renderer.getSchemas env) ;
        let schemaItems := List.map schemaItem schemaNames in
        setSchemas schemaItems)
       (fun err =>
          setError (Some ("Failed to load schemas: " +:+ Js.message err)) ;;
          console_error "Error loading schemas:" err))
    (setLoading false).

(** The body of the effect registered on [[isConnected, selectedConnection]],
    with the values of the render that scheduled it. *)
Definition connection_effect (isConnected : bool)
    (selectedConnection : option PostgreSQLConnectionConfig) : M World unit :=
  if isConnected && bool_decide (is_Some selectedConnection)
  then loadSchemas
  else setSchemas [] ;; setError None.

End Component.

End Explorer.

(** ** The connection manager ([connection-manager.service.ts]) *)

Module ConnectionManager.

(** Values produced by [JSON.parse]. *)
#[local] Unset Elimination Schemes.
Inductive Json :=
| JsonNull
| JsonBool (b : bool)
| JsonNumber (n : Z)
| JsonString (s : string)
| JsonArray (l : list Json)
| JsonObject (l : list (string * Json)).
#[local] Set Elimination Schemes.

Record World := {
  localStorage : gmap string string;
  console : list string;
}.

Definition STORAGE_KEY : string := "db_connections".
Definition LAST_USED_KEY : string := "last_used_connection_id".

(** [localStorage.getItem(k)]: [null] is [None]. *)
Definition getItem (k : string) : M World (option string) :=
  fun w => (Ok (localStorage w !! k), w).

Definition console_error (label : string) (e : Error) : M World unit :=
  modify (fun w => {| localStorage := localStorage w;
                      console := (label +:+ " " +:+ Js.message e) :: console w |}).

Section Methods.
(** [JSON.parse]: a value, or a thrown [SyntaxError]. *)
Variable JSON_parse : string -> Result Json.

Definition getConnections : M World Json :=
  connectionsJson ← getItem STORAGE_KEY ;
  match connectionsJson with
  | None => mret (JsonArray [])
  | Some s =>
      if negb (truthy s) then mret (JsonArray [])
      else
        try_catch
          (fun w => (JSON_parse s, w))
          (fun e =>
             console_error "Error parsing connections from storage:" e ;;
             mret (JsonArray []))
  end.

End Methods.

End ConnectionManager.

(** ** The catalog behind the two queries of [getTables]

    What a PostgreSQL server answers to [getTables_query] and [matViewQuery],
    read off the SQL text: rows of one schema, in the order of their names. *)

Module Catalog.

Record TableRow := {
  table_schema : string;
  table_name : string;
  table_type : string;
}.

Record MatViewRow := {
  schemaname : string;
  matviewname : string;
}.

Record Db := {
  information_schema_tables : list TableRow;
  pg_matviews : list MatViewRow;
}.

(** [CASE table_type WHEN 'BASE TABLE' THEN 'table' WHEN 'VIEW' THEN 'view' END] *)
Definition case_table_type (t : string) : JsVal :=
  if String.eqb t "BASE TABLE" then JStr "table"
  else if String.eqb t "VIEW" then JStr "view"
  else JNull.

Definition table_row (t : TableRow) : Row :=
  [("name", JStr (table_name t)); ("type", case_table_type (table_type t))].

Definition matview_row (v : MatViewRow) : Row :=
  [("name", JStr (matviewname v)); ("type", JStr "materialized_view")].

(** The relation name carried by a row of the answer. *)
Definition row_name (r : Row) : string :=
  match prop "name" r with
  | JStr s => s
  | _ => ""
  end.

Definition tables_of (db : Db) (schema : string) : list TableRow :=
  List.filter (fun t => String.eqb (table_schema t) schema)
              (information_schema_tables db).

Definition matviews_of (db : Db) (schema : string) : list MatViewRow :=
  List.filter (fun v => String.eqb (schemaname v) schema) (pg_matviews db).

Section Order.
(** The order of the server's collation on names. *)
Variable name_le : relation string.
Context `{!forall a b, Decision (name_le a b)}.

(** [... WHERE table_schema = $1 ORDER BY table_name] *)
Definition select_tables (db : Db) (schema : string) : list Row :=
  List.map table_row
    (merge_sort (fun a b => name_le (table_name a) (table_name b))
                (tables_of db schema)).

(** [... WHERE schemaname = $1 ORDER BY matviewname] *)
Definition select_matviews (db : Db) (schema : string) : list Row :=
  List.map matview_row
    (merge_sort (fun a b => name_le (matviewname a) (matviewname b))
                (matviews_of db schema)).

Definition answer (rs : list Row) : Pg.QueryResult :=
  {| Pg.rows := rs;
     Pg.fields := [ {| Pg.name := "name"; Pg.dataTypeID := 19 |};
                    {| Pg.name := "type"; Pg.dataTypeID := 25 |} ];
     Pg.rowCount := Some (Z.of_nat (length rs));
     Pg.command := "SELECT" |}.

(** A server holding [db]: it accepts every connection and answers the two
    catalog queries; anything else is a syntax error for it. *)
Definition server (db : Db) : Pg.Env :=
  {| Pg.on_connect := fun _ _ => None;
     Pg.on_end := fun _ => None;
     Pg.on_query := fun _ sql params =>
       match params with
       | [JStr schema] =>
           if String.eqb sql Main.getTables_query
           then Ok (answer (select_tables db schema))
           else if String.eqb sql Main.matViewQuery
           then Ok (answer (select_matviews db schema))
           else Throw (mkError "syntax error")
       | _ => Throw (mkError "syntax error")
       end;
     Pg.date_now := fun t => Z.of_nat t;
     Pg.iso_now := fun _ => "2024-01-01T00:00:00.000Z";
   Pg.remote_error := Pg.electron_error |}.

(** [env] is a connection to a server holding [db]. *)
Definition serves (env : Pg.Env) (db : Db) : Prop :=
  forall t schema,
    (exists r, Pg.on_query env t Main.getTables_query [JStr schema] = Ok r
               /\ Pg.rows r = select_tables db schema)
    /\ (exists r, Pg.on_query env t Main.matViewQuery [JStr schema] = Ok r
                  /\ Pg.rows r = select_matviews db schema).

End Order.

End Catalog.

(** ** The rest of the connection manager: saving, finding, deleting *)

Module ConnectionManagerService.

(** A plain object: its properties in order of creation. *)
Definition Obj := list (string * ConnectionManager.Json).

(** [o.k]; [None] is [undefined]. *)
Fixpoint obj_get (k : string) (o : Obj) : option ConnectionManager.Json :=
  match o with
  | [] => None
  | (k', v) :: o' => if String.eqb k k' then Some v else obj_get k o'
  end.

(** [o.k = v], and [{...o, k: v}]: an existing property keeps its place. *)
Fixpoint obj_set (k : string) (v : ConnectionManager.Json) (o : Obj) : Obj :=
  match o with
  | [] => [(k, v)]
  | (k', v') :: o' =>
      if String.eqb k k' then (k', v) :: o' else (k', v') :: obj_set k v o'
  end.

(** Truthiness of a value ([None] is [undefined]). *)
Definition truthy_value (v : option ConnectionManager.Json) : bool :=
  match v with
  | None => false
  | Some ConnectionManager.JsonNull => false
  | Some (ConnectionManager.JsonBool b) => b
  | Some (ConnectionManager.JsonNumber n) => negb (n =? 0)%Z
  | Some (ConnectionManager.JsonString s) => truthy s
  | Some (ConnectionManager.JsonArray _) => true
  | Some (ConnectionManager.JsonObject _) => true
  end.

(** [a === b], where one side was just parsed from storage: two arrays or
    two objects are then never the same object. *)
Definition strict_eq (a b : option ConnectionManager.Json) : bool :=
  match a, b with
  | None, None => true
  | Some ConnectionManager.JsonNull, Some ConnectionManager.JsonNull => true
  | Some (ConnectionManager.JsonBool x), Some (ConnectionManager.JsonBool y) =>
      Bool.eqb x y
  | Some (ConnectionManager.JsonNumber x), Some (ConnectionManager.JsonNumber y) =>
      (x =? y)%Z
  | Some (ConnectionManager.JsonString x), Some (ConnectionManager.JsonString y) =>
      String.eqb x y
  | _, _ => false
  end.

(** [conn.id] for an element [conn] of the stored list: reading a property
    of [null] throws, a value that is not an object has no [id]. *)
Definition id_of (conn : ConnectionManager.Json) : Result (option ConnectionManager.Json) :=
  match conn with
  | ConnectionManager.JsonNull =>
      Throw (mkError "Cannot read properties of null (reading 'id')")
  | ConnectionManager.JsonObject o => Ok (obj_get "id" o)
  | _ => Ok None
  end.

(** The receiver of an array method: anything but an array throws. *)
Definition as_array (method : string) (v : ConnectionManager.Json)
  : Result (list ConnectionManager.Json) :=
  match v with
  | ConnectionManager.JsonArray l => Ok l
  | ConnectionManager.JsonNull =>
      Throw (mkError ("Cannot read properties of null (reading '" +:+ method +:+ "')"))
  | _ => Throw (mkError ("connections." +:+ method +:+ " is not a function"))
  end.

(** [l.findIndex(p)], counting from [i]; [None] is [-1]. *)
Fixpoint findIndex_from (p : ConnectionManager.Json -> Result bool)
    (l : list ConnectionManager.Json) (i : nat) : Result (option nat) :=
  match l with
  | [] => Ok None
  | x :: l' =>
      match p x with
      | Throw e => Throw e
      | Ok true => Ok (Some i)
      | Ok false => findIndex_from p l' (Datatypes.S i)
      end
  end.

(** [l.find(p)]; [None] is [undefined]. *)
Fixpoint find (p : ConnectionManager.Json -> Result bool)
    (l : list ConnectionManager.Json) : Result (option ConnectionManager.Json) :=
  match l with
  | [] => Ok None
  | x :: l' =>
      match p x with
      | Throw e => Throw e
      | Ok true => Ok (Some x)
      | Ok false => find p l'
      end
  end.

(** [l.filter(p)] *)
Fixpoint filter (p : ConnectionManager.Json -> Result bool)
    (l : list ConnectionManager.Json) : Result (list ConnectionManager.Json) :=
  match l with
  | [] => Ok []
  | x :: l' =>
      match p x with
      | Throw e => Throw e
      | Ok b =>
          match filter p l' with
          | Throw e => Throw e
          | Ok r => Ok (if b then x :: r else r)
          end
      end
  end.

(** [(conn) => conn.id === id] *)
Definition has_id (id : option ConnectionManager.Json) (conn : ConnectionManager.Json)
  : Result bool :=
  match id_of conn with
  | Ok i => Ok (strict_eq i id)
  | Throw e => Throw e
  end.

(** [(conn) => conn.id !== id] *)
Definition has_other_id (id : option ConnectionManager.Json) (conn : ConnectionManager.Json)
  : Result bool :=
  match id_of conn with
  | Ok i => Ok (negb (strict_eq i id))
  | Throw e => Throw e
  end.

Definition lift {A} (r : Result A) : M ConnectionManager.World A :=
  fun w => (r, w).

(** [localStorage.setItem(k, v)] *)
Definition setItem (k v : string) : M ConnectionManager.World unit :=
  modify (fun w =>
    {| ConnectionManager.localStorage := <[k := v]> (ConnectionManager.localStorage w);
       ConnectionManager.console := ConnectionManager.console w |}).

(** [localStorage.removeItem(k)] *)
Definition removeItem (k : string) : M ConnectionManager.World unit :=
  modify (fun w =>
    {| ConnectionManager.localStorage := delete k (ConnectionManager.localStorage w);
       ConnectionManager.console := ConnectionManager.console w |}).

Section Methods.
Variable JSON_parse : string -> Result ConnectionManager.Json.
Variable JSON_stringify : ConnectionManager.Json -> string.

(** [saveConnection(connection)]; [fresh] is what [uuidv4()] returns and [now]
    what [new Date().toISOString()] returns, should they be called. *)
Definition saveConnection (fresh now : string) (connection : Obj)
  : M ConnectionManager.World Obj :=
  (* Get existing connections *)
  connections ← ConnectionManager.getConnections JSON_parse ;
  (* Create a new connection with ID if not provided *)
  let id := if truthy_value (obj_get "id" connection)
            then default ConnectionManager.JsonNull (obj_get "id" connection)
            else ConnectionManager.JsonString fresh in
  let lastUsed := if truthy_value (obj_get "lastUsed" connection)
                  then default ConnectionManager.JsonNull (obj_get "lastUsed" connection)
                  else ConnectionManager.JsonString now in
  let connectionToSave := obj_set "lastUsed" lastUsed (obj_set "id" id connection) in
  (* Remove password if not saving *)
  let connectionToSave :=
    if negb (truthy_value (obj_get "savePassword" connectionToSave))
    then obj_set "password" (ConnectionManager.JsonString "") connectionToSave
    else connectionToSave in
  (* Check if connection already exists *)
  l ← lift (as_array "findIndex" connections) ;
  existingIndex ← lift (findIndex_from (has_id (obj_get "id" connectionToSave)) l 0) ;
  let connections :=
    match existingIndex with
    | Some i =>
        (* Update existing connection *)
        <[i := ConnectionManager.JsonObject connectionToSave]> l
    | None =>
        (* Add new connection *)
        (l ++ [ConnectionManager.JsonObject connectionToSave])%list
    end in
  (* Save to localStorage *)
  setItem ConnectionManager.STORAGE_KEY
          (JSON_stringify (ConnectionManager.JsonArray connections)) ;;
  mret connectionToSave.

Definition getConnectionById (id : string)
  : M ConnectionManager.World (option ConnectionManager.Json) :=
  connections ← ConnectionManager.getConnections JSON_parse ;
  l ← lift (as_array "find" connections) ;
  lift (find (has_id (Some (ConnectionManager.JsonString id))) l).

Definition getLastUsedConnectionId : M ConnectionManager.World (option string) :=
  ConnectionManager.getItem ConnectionManager.LAST_USED_KEY.

Definition clearLastUsedConnection : M ConnectionManager.World unit :=
  removeItem ConnectionManager.LAST_USED_KEY.

Definition deleteConnection (id : string) : M ConnectionManager.World bool :=
  connections ← ConnectionManager.getConnections JSON_parse ;
  l ← lift (as_array "filter" connections) ;
  filteredConnections ← lift (filter (has_other_id (Some (ConnectionManager.JsonString id))) l) ;
  if Nat.eqb (length filteredConnections) (length l)
  then (* No connection was removed *)
    mret false
  else
    setItem ConnectionManager.STORAGE_KEY
            (JSON_stringify (ConnectionManager.JsonArray filteredConnections)) ;;
    (* If we deleted the last used connection, clear that reference *)
    lastUsedId ← getLastUsedConnectionId ;
    (if bool_decide (lastUsedId = Some id)
     then clearLastUsedConnection
     else mret tt) ;;
    mret true.

(** [updateLastUsed(id)]; [now] is the time read here, [fresh] and [now']
    what [saveConnection] gets from [uuidv4()] and the clock if it asks. *)
Definition updateLastUsed (fresh now now' : string) (id : string)
  : M ConnectionManager.World unit :=
  connections ← ConnectionManager.getConnections JSON_parse ;
  l ← lift (as_array "find" connections) ;
  connection ← lift (find (has_id (Some (ConnectionManager.JsonString id))) l) ;
  match connection with
  | Some (ConnectionManager.JsonObject o) =>
      let updatedConnection := obj_set "lastUsed" (ConnectionManager.JsonString now) o in
      saveConnection fresh now' updatedConnection ;;
      (* Store the ID of the last used connection *)
      setItem ConnectionManager.LAST_USED_KEY id
  | _ => mret tt
  end.

Definition getLastUsedConnection
  : M ConnectionManager.World (option ConnectionManager.Json) :=
  lastUsedId ← getLastUsedConnectionId ;
  match lastUsedId with
  | None => mret None
  | Some id =>
      if negb (truthy id) then mret None
      else getConnectionById id
  end.

End Methods.

End ConnectionManagerService.

(** ** The store's actions that use both services *)

Module ConnectionActions.

(** The store with its [postgresqlService], and the [connectionManager] with
    the local storage behind it. *)
Record World := {
  store : Store.World;
  manager : ConnectionManager.World;
}.

Definition in_store {A} (m : M Store.World A) : M World A :=
  zoom store (fun s w => {| store := s; manager := manager w |}) m.

Definition in_manager {A} (m : M ConnectionManager.World A) : M World A :=
  zoom manager (fun c w => {| store := store w; manager := c |}) m.

Definition with_isConnecting (b : bool) (s : Store.DatabaseState) :=
  {| Store.connections := Store.connections s;
     Store.selectedConnection := Store.selectedConnection s;
     Store.isConnected := Store.isConnected s;
     Store.isConnecting := b;
     Store.connectionError := Store.connectionError s;
     Store.currentQuery := Store.currentQuery s;
     Store.queryHistory := Store.queryHistory s;
     Store.queryResult := Store.queryResult s;
     Store.isExecutingQuery := Store.isExecutingQuery s;
     Store.queryError := Store.queryError s |}.

Definition with_connection (connected : bool) (e : option string)
    (selected : option PostgreSQLConnectionConfig) (s : Store.DatabaseState) :=
  {| Store.connections := Store.connections s;
     Store.selectedConnection := selected;
     Store.isConnected := connected;
     Store.isConnecting := Store.isConnecting s;
     Store.connectionError := e;
     Store.currentQuery := Store.currentQuery s;
     Store.queryHistory := Store.queryHistory s;
     Store.queryResult := Store.queryResult s;
     Store.isExecutingQuery := Store.isExecutingQuery s;
     Store.queryError := Store.queryError s |}.

Section Actions.
Variable env : Pg.Env.
Variable JSON_parse : string -> Result ConnectionManager.Json.
Variable JSON_stringify : ConnectionManager.Json -> string.

(** [connectToDatabase(connection)]; [fresh], [now] and [now'] are what
    [updateLastUsed] gets from [uuidv4()] and the clock if it asks. *)
Definition connectToDatabase (fresh now now' : string)
    (connection : PostgreSQLConnectionConfig) : M World ConnectionTestResult :=
  in_store (Store.set (fun s =>
              with_connection (Store.isConnected s) None (Store.selectedConnection s)
                (with_isConnecting true s))) ;;
  try_finally
    (try_catch
       (result ← in_store (Store.call (Renderer.connect env connection)) ;
        (if success result
         then
           (* Update connection last used timestamp *)
           match id connection with
           | Some i =>
               if truthy i
               then in_manager
                      (ConnectionManagerService.updateLastUsed
                         JSON_parse JSON_stringify fresh now now' i)
               else mret tt
           | None => mret tt
           end ;;
           in_store (Store.set (fun s => with_connection true None (Some connection) s))
         else
           in_store (Store.set (fun s =>
                       with_connection false (Some (message result))
                         (Store.selectedConnection s) s))) ;;
        mret result)
       (fun e =>
          let errorMessage := Js.message e in
          in_store (Store.set (fun s =>
                      with_connection false (Some errorMessage)
                        (Store.selectedConnection s) s)) ;;
          mret {| success := false; message := errorMessage; error := Some e |}))
    (in_store (Store.set (with_isConnecting false))).

End Actions.

End ConnectionActions.

(** ** The result grid ([QueryResults.tsx]): search and pagination *)

Module QueryResultsView.

(** [l.slice(start, end)]: a negative index counts from the end, and both
    are clamped to the list. *)
Definition slice {A} (l : list A) (start end_ : Z) : list A :=
  let len := Z.of_nat (length l) in
  let relative i := if (i <? 0)%Z then Z.max (len + i) 0 else Z.min i len in
  let k := relative start in
  let final := relative end_ in
  firstn (Z.to_nat (final - k)) (skipn (Z.to_nat k) l).

(** [s.includes(sub)] *)
Fixpoint includes (s sub : string) : bool :=
  String.prefix sub s
  || match s with
     | EmptyString => false
     | String _ s' => includes s' sub
     end.

(** [String(value)] *)
Definition String_of (value : JsVal) : string :=
  match value with
  | JUndefined => "undefined"
  | JNull => "null"
  | JBool true => "true"
  | JBool false => "false"
  | JNum n => string_of_number n
  | JStr s => s
  end.

(** [Math.ceil(n / d)] for a length [n] and a positive [d] (the page sizes
    offered are 10, 25, 50, 100, 250 and 500). *)
Definition ceil_div (n d : Z) : Z := ((n + d - 1) / d)%Z.

(** The component's [useState] cells. *)
Record State := {
  searchTerm : string;
  currentPage : Z;
  rowsPerPage : Z;
  expandedRows : gset Z;
}.

Definition initial : State :=
  {| searchTerm := ""; currentPage := 1; rowsPerPage := 100; expandedRows := ∅ |}.

Definition totalRecords (queryResult : option QueryResult) : Z :=
  match queryResult with
  | None => 0
  | Some r => if (0 <=? rowCount r)%Z then rowCount r else Z.of_nat (length (rows r))
  end.

Section Search.
(** [String.prototype.toLowerCase] *)
Variable toLowerCase : string -> string.

(** [Object.values(row).some(...)]: the row has a value, neither [null] nor
    [undefined], whose text in lower case contains the term. *)
Definition row_matches (lowerSearchTerm : string) (row : Row) : bool :=
  existsb (fun '(_, value) =>
             match value with
             | JNull | JUndefined => false
             | _ => includes (toLowerCase (String_of value)) lowerSearchTerm
             end)
          row.

Definition filteredRows (r : QueryResult) (st : State) : list Row :=
  if truthy (searchTerm st)
  then List.filter (row_matches (toLowerCase (searchTerm st))) (rows r)
  else rows r.

Definition displayedRows (queryResult : option QueryResult) (st : State) : list Row :=
  match queryResult with
  | None => []
  | Some r =>
      let startIndex := ((currentPage st - 1) * rowsPerPage st)%Z in
      let endIndex := (startIndex + rowsPerPage st)%Z in
      slice (filteredRows r st) startIndex endIndex
  end.

Definition totalPages (queryResult : option QueryResult) (st : State) : Z :=
  match queryResult with
  | None => 1
  | Some r =>
      let filteredRowCount :=
        if truthy (searchTerm st)
        then Z.of_nat (length (displayedRows queryResult st))
        else Z.of_nat (length (rows r)) in
      Z.max 1 (ceil_div filteredRowCount (rowsPerPage st))
  end.

Definition handlePageChange (queryResult : option QueryResult) (newPage : Z)
    (st : State) : State :=
  if ((newPage <? 1) || (totalPages queryResult st <? newPage))%Z then st
  else {| searchTerm := searchTerm st;
          currentPage := newPage;
          rowsPerPage := rowsPerPage st;
          expandedRows := ∅ |}.

End Search.

Definition toggleRowExpansion (rowIndex : Z) (st : State) : State :=
  {| searchTerm := searchTerm st;
     currentPage := currentPage st;
     rowsPerPage := rowsPerPage st;
     expandedRows := if bool_decide (rowIndex ∈ expandedRows st)
                     then expandedRows st ∖ {[rowIndex]}
                     else expandedRows st ∪ {[rowIndex]} |}.

Definition handleClearSearch (st : State) : State :=
  {| searchTerm := "";
     currentPage := 1;
     rowsPerPage := rowsPerPage st;
     expandedRows := expandedRows st |}.

(** The state shown on page [p]. *)
Definition on_page (p : Z) (st : State) : State :=
  {| searchTerm := searchTerm st;
     currentPage := p;
     rowsPerPage := rowsPerPage st;
     expandedRows := expandedRows st |}.

End QueryResultsView.

(** ** The explorer's actions on a relation *)

Module ExplorerActions.

(** The component's [error] cell, and the store whose [executeQuery] and
    [postgresqlService] the component uses. *)
Record World := {
  error : option string;
  store : Store.World;
}.

Definition setError (e : option string) : M World unit :=
  modify (fun w => {| error := e; store := store w |}).

Definition in_store {A} (m : M Store.World A) : M World A :=
  zoom store (fun s w => {| error := error w; store := s |}) m.

(** [l.join(sep)] *)
Fixpoint join (sep : string) (l : list string) : string :=
  match l with
  | [] => ""
  | [x] => x
  | x :: l' => x +:+ sep +:+ join sep l'
  end.

Definition newline : string := String (ascii_of_nat 10) EmptyString.

(** [`"${s}"`] *)
Definition quoted (s : string) : string := Main.dquote +:+ s +:+ Main.dquote.

Definition viewTableData_query (schema table : string) : string :=
  "SELECT * FROM " +:+ quoted schema +:+ "." +:+ quoted table +:+ " LIMIT 100".

(** Truthiness of a column value. *)
Definition js_truthy (v : JsVal) : bool :=
  match v with
  | JUndefined | JNull => false
  | JBool b => b
  | JNum n => negb (n =? 0)%Z
  | JStr s => truthy s
  end.

(** The row that [viewTableColumns] builds for a column. *)
Definition column_row (col : Row) : Row :=
  [("column_name", prop "name" col);
   ("data_type", prop "dataType" col);
   ("nullable", JStr (if js_truthy (prop "nullable" col) then "YES" else "NO"));
   ("primary_key", JStr (if js_truthy (prop "isPrimaryKey" col) then "YES" else "NO"));
   ("default_value", if js_truthy (prop "default" col) then prop "default" col else JNull)].

Definition viewTableColumns_query (schema table : string) : string :=
  "-- Columns for " +:+ quoted schema +:+ "." +:+ quoted table +:+ newline
  +:+ "SELECT column_name, data_type, nullable, primary_key, default_value FROM information_schema.columns WHERE table_schema = '"
  +:+ schema +:+ "' AND table_name = '" +:+ table +:+ "'".

Definition generateSelectQuery_query (schema table : string) (columns : list Row)
  : string :=
  let columnsList :=
    join ", " (List.map (fun col => quoted (QueryResultsView.String_of (prop "name" col)))
                        columns) in
  "SELECT " +:+ columnsList +:+ newline
  +:+ "FROM " +:+ quoted schema +:+ "." +:+ quoted table +:+ newline
  +:+ "LIMIT 100;".

Section Component.
Variable env : Pg.Env.

Definition viewTableData (schema table : string) : M World unit :=
  (* Execute a SELECT query to view the table data *)
  let query := viewTableData_query schema table in
  try_catch
    (in_store (Store.executeQuery env (Some query)) ;; mret tt)
    (fun err => setError (Some ("Failed to query table: " +:+ Js.message err))).

Definition viewTableColumns (schema table : string) : M World unit :=
  try_catch
    ((* First, get the columns *)
     columns ← in_store (Store.call (Renderer.getTableColumns env schema table)) ;
     (* Format them as a query result to display *)
     let rows := List.map column_row columns in
     let query := viewTableColumns_query schema table in
     in_store (Store.executeQuery env (Some query)) ;; mret tt)
    (fun err => setError (Some ("Failed to get table columns: " +:+ Js.message err))).

Definition generateSelectQuery (schema table : string) : M World unit :=
  try_catch
    ((* Get the columns first *)
     columns ← in_store (Store.call (Renderer.getTableColumns env schema table)) ;
     (* Generate a SELECT query with all columns *)
     let query := generateSelectQuery_query schema table columns in
     in_store (Store.executeQuery env (Some query)) ;; mret tt)
    (fun err => setError (Some ("Failed to generate query: " +:+ Js.message err))).

End Component.

End ExplorerActions.

(** ** Concrete worlds used to exercise the statements *)

Module Scenario.

Definition profileA : PostgreSQLConnectionConfig :=
  {| id := Some "a"; name := "local"; host := "localhost"; port := 5432;
     database := "app"; username := "app"; password := "x";
     ssl := false; savePassword := false; lastUsed := None |}.

Definition profileB : PostgreSQLConnectionConfig :=
  {| id := Some "b"; name := "replica"; host := "replica.internal"; port := 5433;
     database := "reporting"; username := "reader"; password := "y";
     ssl := true; savePassword := false; lastUsed := None |}.

(** The answer to [SELECT 1]. *)
Definition select1 : Pg.QueryResult :=
  {| Pg.rows := [[("?column?", JNum 1)]];
     Pg.fields := [ {| Pg.name := "?column?"; Pg.dataTypeID := 23 |} ];
     Pg.rowCount := Some 1%Z;
     Pg.command := "SELECT" |}.

(** A server that accepts everything and answers every query like [SELECT 1]. *)
Definition healthy : Pg.Env :=
  {| Pg.on_connect := fun _ _ => None;
     Pg.on_end := fun _ => None;
     Pg.on_query := fun _ _ _ => Ok select1;
     Pg.date_now := fun t => Z.of_nat t;
     Pg.iso_now := fun _ => "2024-01-01T00:00:00.000Z";
     Pg.remote_error := Pg.electron_error |}.

Definition terminated : Error :=
  {| Js.message := "Connection terminated unexpectedly"; transport := true |}.

(** A server that accepts connections and then drops them: every query
    fails because the socket is gone. *)
Definition dropping : Pg.Env :=
  {| Pg.on_connect := fun _ _ => None;
     Pg.on_end := fun _ => None;
     Pg.on_query := fun _ _ _ => Throw terminated;
     Pg.date_now := fun t => Z.of_nat t;
     Pg.iso_now := fun _ => "2024-01-01T00:00:00.000Z";
     Pg.remote_error := Pg.electron_error |}.

(** A server that refuses every connection and fails every [end()]. *)
Definition refusing : Pg.Env :=
  {| Pg.on_connect := fun _ _ => Some (mkError "ECONNREFUSED");
     Pg.on_end := fun _ => Some (mkError "not connected");
     Pg.on_query := fun _ _ _ => Throw (mkError "not connected");
     Pg.date_now := fun t => Z.of_nat t;
     Pg.iso_now := fun _ => "2024-01-01T00:00:00.000Z";
     Pg.remote_error := Pg.electron_error |}.

(** The main process once [profileA] is connected. *)
Definition main_on_A : Main.World :=
  snd (Main.connect healthy profileA Main.initial).

(** The renderer once [profileA] is connected. *)
Definition renderer_on_A (env : Pg.Env) : Renderer.World :=
  snd (Renderer.connect env profileA Renderer.initial).

(** The store over a connected service, with a query typed in the editor. *)
Definition store_on_A (env : Pg.Env) (typed : string) : Store.World :=
  {| Store.state := Store.with_currentQuery typed Store.initial_state;
     Store.service := renderer_on_A env;
     Store.clock := 0 |}.

(** Fifty-one distinct statements, [SELECT 1] to [SELECT 51]. *)
Definition fifty_one : list string :=
  List.map (fun n : nat => "SELECT " +:+ pretty n) (seq 1 51).

(** A fragment of [JSON.parse], enough for the inputs used below: the empty
    array is parsed, anything else is taken to be malformed. *)
Definition parse_fragment (s : string) : Result ConnectionManager.Json :=
  if String.eqb s "[]" then Ok (ConnectionManager.JsonArray [])
  else Throw (mkError "Unexpected token").

(** A store whose connections entry is not JSON. *)
Definition corrupted : ConnectionManager.World :=
  {| ConnectionManager.localStorage := {[ ConnectionManager.STORAGE_KEY := "{oops" ]};
     ConnectionManager.console := [] |}.

(** One table and one materialized view in [public]. *)
Definition reporting_db : Catalog.Db :=
  {| Catalog.information_schema_tables :=
       [ {| Catalog.table_schema := "public"; Catalog.table_name := "users";
            Catalog.table_type := "BASE TABLE" |} ];
     Catalog.pg_matviews :=
       [ {| Catalog.schemaname := "public"; Catalog.matviewname := "daily_stats" |} ] |}.

(** The main process connected to a server holding [reporting_db], whose
    collation orders names as [String.le]. *)
Definition main_on_reporting : Main.World :=
  snd (Main.connect (Catalog.server String.le reporting_db) profileA Main.initial).

(** The answer to the schema query of a database with the given schemas. *)
Definition schemas_answer (names : list string) : Pg.QueryResult :=
  {| Pg.rows := List.map (fun n => [("schema_name", JStr n)]) names;
     Pg.fields := [ {| Pg.name := "schema_name"; Pg.dataTypeID := 19 |} ];
     Pg.rowCount := Some (Z.of_nat (length names));
     Pg.command := "SELECT" |}.

(** Two servers seen one after the other: the first two interactions are
    with a database whose only schema is [a_only]; the queries made later,
    on the second connection, are refused. *)
Definition revoked : Pg.Env :=
  {| Pg.on_connect := fun _ _ => None;
     Pg.on_end := fun _ => None;
     Pg.on_query := fun t _ _ =>
       if Nat.ltb t 2 then Ok (schemas_answer ["a_only"])
       else Throw (mkError "permission denied for table schemata");
     Pg.date_now := fun t => Z.of_nat t;
     Pg.iso_now := fun _ => "2024-01-01T00:00:00.000Z";
     Pg.remote_error := Pg.electron_error |}.

(** The explorer after [profileA] was connected and its schemas shown. *)
Definition explorer_on_A : Explorer.World :=
  snd (Explorer.connection_effect revoked true (Some profileA)
         (snd (Explorer.call (Renderer.connect revoked profileA) Explorer.initial))).

(** ... and after the session was then connected to [profileB] and the
    effect ran for the new connection. *)
Definition explorer_on_B : Explorer.World :=
  snd (Explorer.connection_effect revoked true (Some profileB)
         (snd (Explorer.call (Renderer.connect revoked profileB) explorer_on_A))).

End Scenario.

(** ** Sample data for the result grid and the saved connections *)

Module Samples.

(** [toLowerCase] on the letters A to Z. *)
Definition lower_ascii (c : ascii) : ascii :=
  let n := nat_of_ascii c in
  if (65 <=? n)%nat && (n <=? 90)%nat then ascii_of_nat (n + 32) else c.

Fixpoint toLowerCase (s : string) : string :=
  match s with
  | EmptyString => EmptyString
  | String c s' => String (lower_ascii c) (toLowerCase s')
  end.

Definition city (n : Z) (name : string) : Row := [("id", JNum n); ("city", JStr name)].

(** Five rows, three of them with [os] in the city. *)
Definition cities : QueryResult :=
  {| rows := [city 1 "Oslo"; city 2 "Lima"; city 3 "Moscow"; city 4 "Kosice";
              city 5 "Rome"];
     fields := [];
     rowCount := 5;
     command := "SELECT";
     duration := 3 |}.

(** The grid showing two rows a page, with and without a search term. *)
Definition two_a_page : QueryResultsView.State :=
  {| QueryResultsView.searchTerm := "";
     QueryResultsView.currentPage := 1;
     QueryResultsView.rowsPerPage := 2;
     QueryResultsView.expandedRows := ∅ |}.

Definition searching_OS : QueryResultsView.State :=
  {| QueryResultsView.searchTerm := "OS";
     QueryResultsView.currentPage := 1;
     QueryResultsView.rowsPerPage := 2;
     QueryResultsView.expandedRows := ∅ |}.

Definition quote : string := String (ascii_of_nat 34) EmptyString.

(** The text of a value, for values whose strings need no escaping. *)
Fixpoint print (v : ConnectionManager.Json) : string :=
  match v with
  | ConnectionManager.JsonNull => "null"
  | ConnectionManager.JsonBool true => "true"
  | ConnectionManager.JsonBool false => "false"
  | ConnectionManager.JsonNumber n => string_of_number n
  | ConnectionManager.JsonString s => quote +:+ s +:+ quote
  | ConnectionManager.JsonArray l =>
      "[" +:+ (fix elements (l : list ConnectionManager.Json) : string :=
                 match l with
                 | [] => ""
                 | x :: l' =>
                     print x +:+ match l' with
                                 | [] => ""
                                 | _ => "," +:+ elements l'
                                 end
                 end) l +:+ "]"
  | ConnectionManager.JsonObject o =>
      "{" +:+ (fix members (o : list (string * ConnectionManager.Json)) : string :=
                 match o with
                 | [] => ""
                 | (k, x) :: o' =>
                     quote +:+ k +:+ quote +:+ ":" +:+ print x
                     +:+ match o' with
                         | [] => ""
                         | _ => "," +:+ members o'
                         end
                 end) o +:+ "}"
  end.

(** A fragment of [JSON.parse]: the texts of the values listed are parsed,
    anything else is taken to be malformed. *)
Definition parse_known (known : list ConnectionManager.Json) (s : string)
  : Result ConnectionManager.Json :=
  match List.find (fun v => String.eqb (print v) s) known with
  | Some v => Ok v
  | None => Throw (mkError "Unexpected token")
  end.

(** A saved connection, and one filled in the form and not saved yet. *)
Definition local_entry : ConnectionManagerService.Obj :=
  [("id", ConnectionManager.JsonString "c1");
   ("name", ConnectionManager.JsonString "local");
   ("host", ConnectionManager.JsonString "localhost");
   ("port", ConnectionManager.JsonNumber 5432);
   ("password", ConnectionManager.JsonString "");
   ("savePassword", ConnectionManager.JsonBool false);
   ("lastUsed", ConnectionManager.JsonString "2024-01-01T00:00:00.000Z")].

Definition staging_form : ConnectionManagerService.Obj :=
  [("name", ConnectionManager.JsonString "staging");
   ("host", ConnectionManager.JsonString "staging.internal");
   ("port", ConnectionManager.JsonNumber 5432);
   ("password", ConnectionManager.JsonString "s3cret");
   ("savePassword", ConnectionManager.JsonBool false)].

(** The storage holding [local_entry], which is also the last one used. *)
Definition one_saved : ConnectionManager.World :=
  {| ConnectionManager.localStorage :=
       <[ConnectionManager.LAST_USED_KEY := "c1"]>
         {[ ConnectionManager.STORAGE_KEY :=
              print (ConnectionManager.JsonArray [ConnectionManager.JsonObject local_entry]) ]};
     ConnectionManager.console := [] |}.

(** The storage whose connections entry is valid JSON but not a list. *)
Definition null_stored : ConnectionManager.World :=
  {| ConnectionManager.localStorage := {[ ConnectionManager.STORAGE_KEY := "null" ]};
     ConnectionManager.console := [] |}.

End Samples.

(** ** Vocabulary of the statements *)

(** Between two requests the open handles are exactly the one the service
    holds, client identities are fresh, and every handle that was opened and
    is no longer held has been closed. *)
Definition session_inv (w : Main.World) : Prop :=
  Pg.live (Main.pg w) =
    match Main.client (Main.svc w) with
    | Some c => [Pg.handle c]
    | None => []
    end
  /\ (forall c, Main.client (Main.svc w) = Some c ->
                Pg.handle c < Pg.next_handle (Main.pg w))
  /\ Pg.handle_opens (Main.pg w)
     = Pg.handle_closes (Main.pg w) + length (Pg.live (Main.pg w)).

(** What can be told of the session without looking at the identity of its
    handle or at the driver's log: the configuration of the held client, the
    two recorded configurations and the number of open handles. *)
Definition session_view (w : Main.World)
  : option Pg.ClientConfig * option Pg.ClientConfig
    * option PostgreSQLConnectionConfig * nat :=
  (option_map Pg.clientConfig (Main.client (Main.svc w)),
   Main.config (Main.svc w),
   Main.connectionConfig (Main.svc w),
   length (Pg.live (Main.pg w))).

(** A server whose answer to a connection attempt does not depend on when it
    is made. *)
Definition steady_connect (env : Pg.Env) : Prop :=
  forall t t' cfg, Pg.on_connect env t cfg = Pg.on_connect env t' cfg.

(** The query that [executeQuery(q)] of the store runs: [q || currentQuery]. *)
Definition effective (q : option string) (w : Store.World) : string :=
  or_else q (Store.currentQuery (Store.state w)).

(** [run(q1); run(q2); ...]: the store's [executeQuery] on each string in
    turn, with the outcomes in order. *)
Fixpoint run_all (env : Pg.Env) (qs : list string) (w : Store.World)
  : list (Result (option QueryResult)) * Store.World :=
  match qs with
  | [] => ([], w)
  | q :: qs' =>
      let (r, w1) := Store.executeQuery env (Some q) w in
      let (rs, w2) := run_all env qs' w1 in
      (r :: rs, w2)
  end.

(** A run succeeded when it returned a result (not [null]). *)
Definition is_success (r : Result (option QueryResult)) : bool :=
  match r with
  | Ok (Some _) => true
  | _ => false
  end.

(** The connectivity of the session as the store's service sees it: the
    renderer service's fields, the main-process service's fields and the open
    handles. *)
Definition connectivity (w : Store.World)
  : Renderer.PostgreSQLService * Main.PostgreSQLService * list nat :=
  (Renderer.svc (Store.service w),
   Main.svc (Renderer.main (Store.service w)),
   Pg.live (Main.pg (Renderer.main (Store.service w)))).

(** The driver's log behind the store. *)
Definition driver_log (w : Store.World) : list Pg.Event :=
  Pg.events (Main.pg (Renderer.main (Store.service w))).

(** The main-process service refuses every query without touching anything. *)
Definition main_refuses_queries (env : Pg.Env) (w : Main.World) : Prop :=
  let refused {A} (m : M Main.World A) :=
    m w = (Throw (mkError "No active database connection"), w) in
  (forall sql, refused (Main.executeQuery env sql))
  /\ refused (Main.getSchemas env)
  /\ (forall schema, refused (Main.getTables env schema))
  /\ (forall schema table, refused (Main.getTableColumns env schema table)).

(** The renderer service refuses every query without calling the main
    process. *)
Definition renderer_refuses_queries (env : Pg.Env) (w : Renderer.World) : Prop :=
  let refused {A} (m : M Renderer.World A) :=
    m w = (Throw (mkError "No active database connection"), w) in
  (forall sql, refused (Renderer.executeQuery env sql))
  /\ refused (Renderer.getSchemas env)
  /\ (forall schema, refused (Renderer.getTables env schema))
  /\ (forall schema table, refused (Renderer.getTableColumns env schema table)).

(** The renderer's view of the session agrees with the main process: when
    it says connected, it names the profile with which the held client was
    built; when it says not connected, it names no profile and no client is
    held. *)
Definition services_agree (w : Renderer.World) : Prop :=
  if Renderer.isConnected w
  then exists cfg c,
         Renderer.getConnectionConfig w = Some cfg
         /\ Main.client (Main.svc (Renderer.main w)) = Some c
         /\ Pg.clientConfig c = Main.clientConfig_of cfg
  else Renderer.getConnectionConfig w = None
       /\ Main.client (Main.svc (Renderer.main w)) = None.

(** The same outside world, except for what [end()] answers. *)
Definition with_on_end (f : nat -> option Error) (env : Pg.Env) : Pg.Env :=
  {| Pg.on_connect := Pg.on_connect env;
     Pg.on_end := f;
     Pg.on_query := Pg.on_query env;
     Pg.date_now := Pg.date_now env;
     Pg.iso_now := Pg.iso_now env;
     Pg.remote_error := Pg.remote_error env |}.

(** What [getConnections()] returns is the list [l]. *)
Definition stored (JSON_parse : string -> Result ConnectionManager.Json)
    (w : ConnectionManager.World) (l : list ConnectionManager.Json) : Prop :=
  fst (ConnectionManager.getConnections JSON_parse w) = Ok (ConnectionManager.JsonArray l).

(** The text written for [v] is not empty and parses back to [v]. *)
Definition reads_back (JSON_parse : string -> Result ConnectionManager.Json)
    (JSON_stringify : ConnectionManager.Json -> string)
    (v : ConnectionManager.Json) : Prop :=
  JSON_stringify v <> "" /\ JSON_parse (JSON_stringify v) = Ok v.

(** The object that [saveConnection(connection)] saves and returns. *)
Definition saved_form (fresh now : string) (connection : ConnectionManagerService.Obj)
  : ConnectionManagerService.Obj :=
  let id := if ConnectionManagerService.truthy_value
                 (ConnectionManagerService.obj_get "id" connection)
            then default ConnectionManager.JsonNull
                   (ConnectionManagerService.obj_get "id" connection)
            else ConnectionManager.JsonString fresh in
  let lastUsed := if ConnectionManagerService.truthy_value
                       (ConnectionManagerService.obj_get "lastUsed" connection)
                  then default ConnectionManager.JsonNull
                         (ConnectionManagerService.obj_get "lastUsed" connection)
                  else ConnectionManager.JsonString now in
  let connectionToSave :=
    ConnectionManagerService.obj_set "lastUsed" lastUsed
      (ConnectionManagerService.obj_set "id" id connection) in
  if negb (ConnectionManagerService.truthy_value
             (ConnectionManagerService.obj_get "savePassword" connectionToSave))
  then ConnectionManagerService.obj_set "password" (ConnectionManager.JsonString "")
         connectionToSave
  else connectionToSave.

(** A stored entry that keeps no password it was not asked to keep. *)
Definition keeps_no_password (conn : ConnectionManager.Json) : Prop :=
  match conn with
  | ConnectionManager.JsonObject o =>
      ConnectionManagerService.truthy_value
        (ConnectionManagerService.obj_get "savePassword" o) = true
      \/ ConnectionManagerService.obj_get "password" o
         = Some (ConnectionManager.JsonString "")
  | _ => True
  end.

(** [l'] is [l] with [saved] put where [saveConnection] puts it: in place of
    the first entry with its id, or at the end when there is none. *)
Definition placed (saved : ConnectionManagerService.Obj)
    (l l' : list ConnectionManager.Json) : Prop :=
  (exists k old,
      l !! k = Some old
      /\ ConnectionManagerService.has_id
           (ConnectionManagerService.obj_get "id" saved) old = Ok true
      /\ (forall m y, m < k -> l !! m = Some y ->
            ConnectionManagerService.has_id
              (ConnectionManagerService.obj_get "id" saved) y = Ok false)
      /\ l' = <[k := ConnectionManager.JsonObject saved]> l)
  \/ (Forall (fun c => ConnectionManagerService.has_id
                         (ConnectionManagerService.obj_get "id" saved) c = Ok false) l
      /\ l' = (l ++ [ConnectionManager.JsonObject saved])%list).

(** What a run of a given, non-blank query leaves in the store. *)
Definition run_outcome (env : Pg.Env) (q : string) (s s' : Store.World) : Prop :=
  match Renderer.executeQuery env q (Store.service s) with
  | (Ok res, r1) =>
      Store.queryResult (Store.state s') = Some res
      /\ Store.queryError (Store.state s') = None
      /\ Store.queryHistory (Store.state s')
         = {| Store.query := q; Store.timestamp := Pg.iso_now env (Store.clock s) |}
             :: firstn 49 (Store.queryHistory (Store.state s))
      /\ Store.service s' = r1
  | (Throw e, r1) =>
      Store.queryResult (Store.state s') = Store.queryResult (Store.state s)
      /\ Store.queryError (Store.state s') = Some (Js.message e)
      /\ Store.queryHistory (Store.state s') = Store.queryHistory (Store.state s)
      /\ Store.service s' = r1
  end.

(** * Properties *)

(** ** Proof support *)

Ltac unfold_monad :=
  unfold try_catch, try_finally, zoom, mbind, M_bind, mret, M_ret, get, modify,
    throw in *.

Ltac unfold_main :=
  unfold Main.connect, Main.disconnect, Main.testConnection, Main.executeQuery,
    Main.getSchemas, Main.getTables, Main.getTableColumns, Main.createClient,
    Main.set_client, Main.set_config, Main.set_connectionConfig,
    Main.console_error, Main.driver, Main.no_connection,
    Pg.client_connect, Pg.client_end, Pg.client_query, Pg.new_Client,
    Pg.Date_now in *.

Ltac unfold_renderer :=
  unfold Renderer.connect, Renderer.disconnect, Renderer.testConnection,
    Renderer.executeQuery, Renderer.getSchemas, Renderer.getTables,
    Renderer.invoke, Renderer.set_svc, Renderer.no_connection,
    Renderer.isConnected, Renderer.getConnectionConfig in *.

Ltac unfold_store :=
  unfold Store.executeQuery, Store.addToQueryHistory, Store.toISOString_now,
    Store.setCurrentQuery, Store.set, Store.call in *.

Lemma bind_ext {S A B} (m : M S A) (f g : A -> M S B) (w : S) :
  (forall a w', f a w' = g a w') -> (m ≫= f) w = (m ≫= g) w.
Proof.
  intros H. unfold mbind, M_bind.
  destruct (m w) as [[a|e] w']; [apply H | reflexivity].
Qed.

(** ** The session owns at most one handle *)

Ltac break_inv :=
  match goal with
  | H : session_inv _ |- _ =>
      destruct H as (?Hlive & ?Hfresh & ?Hcount);
      unfold Pg.handle_opens, Pg.handle_closes in *; simpl in *
  end.

Ltac split_inv :=
  try match goal with
      | H : forall c0, Some ?c = Some c0 -> _ |- _ => specialize (H c eq_refl)
      end;
  unfold session_inv, Pg.handle_opens, Pg.handle_closes; simpl;
  repeat split; simpl; try (intros ? [= <-]; simpl); try congruence; try lia.

Lemma connect_disconnect_first env cfg w :
  Main.connect env cfg w = (Main.disconnect env ;; Main.connect env cfg) w.
Proof.
  destruct w as [[c cf cc] d out].
  unfold_main; unfold_monad; simpl.
  destruct c as [c|]; simpl.
  - destruct (Pg.on_end env (Pg.tick d)); simpl;
      destruct (Pg.on_connect env _ _); reflexivity.
  - reflexivity.
Qed.

Lemma initial_inv : session_inv Main.initial.
Proof. split_inv. Qed.

Lemma disconnect_inv env w :
  session_inv w ->
  session_inv (snd (Main.disconnect env w))
  /\ Main.client (Main.svc (snd (Main.disconnect env w))) = None.
Proof.
  destruct w as [[c cf cc] d out]. intros Hinv. break_inv.
  unfold_main; unfold_monad; simpl.
  destruct c as [c|]; simpl.
  - unfold Pg.is_live. rewrite Hlive in *. simpl in *. rewrite Nat.eqb_refl. simpl.
    destruct (Pg.on_end env (Pg.tick d)); simpl; split_inv.
  - split_inv.
Qed.

Lemma connect_inv env cfg w :
  session_inv w -> session_inv (snd (Main.connect env cfg w)).
Proof.
  intros Hinv. rewrite connect_disconnect_first.
  pose proof (disconnect_inv env w Hinv) as [Hinv' Hnone].
  unfold mbind, M_bind at 1.
  destruct (Main.disconnect env w) as [[[]|e] w1]; simpl in *.
  2:{ exact Hinv'. }
  clear Hinv. destruct w1 as [[c cf cc] d out]. simpl in Hnone. subst c. break_inv.
  unfold_main; unfold_monad; simpl.
  destruct (Pg.on_connect env _ _); simpl; rewrite Hlive in *; simpl in *; split_inv.
Qed.

Lemma testConnection_inv env cfg w :
  session_inv w -> session_inv (snd (Main.testConnection env cfg w)).
Proof.
  destruct w as [[c cf cc] d out]. intros Hinv. break_inv.
  unfold_main; unfold_monad; simpl.
  assert (Hne : forall h, Pg.live d = [h] ->
                          (h =? Pg.next_handle d)%nat = false
                          /\ (Pg.next_handle d =? h)%nat = false).
  { intros h Hh. destruct c as [c|]; [|rewrite Hh in Hlive; discriminate].
    pose proof (Hfresh c eq_refl). rewrite Hh in Hlive. injection Hlive as ->.
    split; apply Nat.eqb_neq; lia. }
  destruct (Pg.on_connect env _ _); simpl.
  - (* the connection attempt failed: [end()] finds nothing open *)
    unfold Pg.is_live; simpl.
    destruct c as [c|]; rewrite Hlive in *; simpl in *.
    + destruct (Hne _ eq_refl) as [E1 E2]; rewrite ?E1, ?E2; simpl.
      destruct (Pg.on_end env _); simpl; split_inv.
    + destruct (Pg.on_end env _); simpl; split_inv.
  - (* the temporary handle was opened, and is closed again *)
    destruct (Pg.on_query env _ _ _); simpl; unfold Pg.is_live; simpl;
      rewrite Nat.eqb_refl; simpl;
      (destruct c as [c|]; rewrite Hlive in *; simpl in *;
       [ destruct (Hne _ eq_refl) as [E1 E2]; rewrite ?E1, ?E2; simpl | ]);
      destruct (Pg.on_end env _); simpl; split_inv.
Qed.

Lemma query_inv env w :
  session_inv w ->
  (forall sql, session_inv (snd (Main.executeQuery env sql w)))
  /\ session_inv (snd (Main.getSchemas env w))
  /\ (forall s, session_inv (snd (Main.getTables env s w)))
  /\ (forall s t, session_inv (snd (Main.getTableColumns env s t w))).
Proof.
  destruct w as [[c cf cc] d out]. intros Hinv.
  split; [|split; [|split]]; intros;
  unfold_main; unfold_monad; simpl;
  (destruct c as [c|]; simpl; [|exact Hinv]);
  repeat (match goal with
          | |- context [Pg.on_query ?e ?t ?s ?p] => destruct (Pg.on_query e t s p)
          end; simpl);
  break_inv; split_inv.
Qed.

Lemma serve_inv env r w : session_inv w -> session_inv (Main.serve env r w).
Proof.
  intros Hinv. destruct r; simpl.
  - by apply connect_inv.
  - by apply disconnect_inv.
  - by apply testConnection_inv.
  - by apply query_inv.
  - by apply query_inv.
  - by apply query_inv.
  - by apply query_inv.
Qed.

Lemma serve_all_inv env rs w :
  session_inv w -> session_inv (Main.serve_all env rs w).
Proof.
  revert w. induction rs as [|r rs IH]; intros w Hinv; simpl; [done|].
  apply IH. by apply serve_inv.
Qed.

(** Under the invariant, [connect] closes the handle that was held before it
    attempts to open the new one. *)
Lemma connect_closes_previous env cfg w c :
  session_inv w ->
  Main.client (Main.svc w) = Some c ->
  exists ev,
    Pg.events (Main.pg (snd (Main.connect env cfg w)))
    = ev :: Pg.Ended (Pg.handle c) true :: Pg.events (Main.pg w)
    /\ (ev = Pg.Opened (Pg.next_handle (Main.pg w))
        \/ ev = Pg.OpenFailed (Pg.next_handle (Main.pg w))).
Proof.
  destruct w as [[c0 cf cc] d out]. intros Hinv Hc. simpl in Hc. subst c0.
  break_inv. unfold_main; unfold_monad; simpl.
  unfold Pg.is_live. rewrite Hlive. simpl. rewrite Nat.eqb_refl. simpl.
  destruct (Pg.on_end env _); simpl;
    destruct (Pg.on_connect env _ _); simpl; eauto.
Qed.

(** What a [connect] leaves, by the outcome of its connection attempt. *)
Lemma connect_outcome env P w :
  session_inv w ->
  exists t,
    session_view (snd (Main.connect env P w))
    = match Pg.on_connect env t (Main.clientConfig_of P) with
      | None => (Some (Main.clientConfig_of P), Some (Main.clientConfig_of P),
                 Some P, 1)
      | Some _ => (None, None, Some P, 0)
      end.
Proof.
  destruct w as [[c cf cc] d out]. intros Hinv. break_inv.
  unfold session_view. unfold_main; unfold_monad; simpl.
  destruct c as [c|]; simpl.
  - rewrite Hlive. simpl. rewrite Nat.eqb_refl. simpl.
    exists (Datatypes.S (Pg.tick d)).
    destruct (Pg.on_end env _); simpl;
      destruct (Pg.on_connect env _ _); reflexivity.
  - rewrite Hlive. exists (Pg.tick d).
    destruct (Pg.on_connect env _ _); reflexivity.
Qed.

Lemma connect_returns env P w : exists res, fst (Main.connect env P w) = Ok res.
Proof.
  destruct w as [[c cf cc] d out]. unfold_main; unfold_monad; simpl.
  destruct c as [c|]; simpl;
    repeat (match goal with
            | |- context [Pg.on_end ?e ?t] => destruct (Pg.on_end e t)
            | |- context [Pg.on_connect ?e ?t ?c] => destruct (Pg.on_connect e t c)
            end; simpl); eauto.
Qed.

Lemma bind_snd {S A B} (m : M S A) (k : M S B) (w : S) :
  (exists a, fst (m w) = Ok a) -> snd ((m ;; k) w) = snd (k (snd (m w))).
Proof.
  intros [a Ha]. unfold mbind, M_bind.
  destruct (m w) as [[a'|e] w']; simpl in *; [reflexivity|discriminate].
Qed.

(** C1: [connect] first tears down any previously open handle: in every state
    it is [disconnect] followed by [connect], so a second [connect(P)] right
    after a first behaves as [disconnect(); connect(P)]; the handle held
    before is closed before the new one is opened; after any sequence of
    requests from the initial state at most one handle is open, and when the
    service holds no client the handles closed are as many as the handles
    opened and none is left open; and against a server that answers
    connection attempts the same way at all times, two [connect(P)] in a row
    leave the session as [disconnect()] followed by one [connect(P)] does. *)
Theorem C1_connect_is_disconnect_then_connect
    (env : Pg.Env) (P : PostgreSQLConnectionConfig) :
  (forall w, Main.connect env P w = (Main.disconnect env ;; Main.connect env P) w)
  /\ (forall w, (Main.connect env P ;; Main.connect env P) w
                = (Main.connect env P ;; Main.disconnect env ;; Main.connect env P) w)
  /\ (forall rs c,
        let w := Main.serve_all env rs Main.initial in
        Main.client (Main.svc w) = Some c ->
        exists ev,
          Pg.events (Main.pg (snd (Main.connect env P w)))
          = ev :: Pg.Ended (Pg.handle c) true :: Pg.events (Main.pg w)
          /\ (ev = Pg.Opened (Pg.next_handle (Main.pg w))
              \/ ev = Pg.OpenFailed (Pg.next_handle (Main.pg w))))
  /\ (forall rs,
        let w := Main.serve_all env rs Main.initial in
        length (Pg.live (Main.pg w)) <= 1
        /\ (Main.client (Main.svc w) = None ->
            Pg.handle_closes (Main.pg w) = Pg.handle_opens (Main.pg w)
            /\ Pg.live (Main.pg w) = []))
  /\ (forall rs,
        let w := Main.serve_all env rs Main.initial in
        steady_connect env ->
        session_view (snd ((Main.connect env P ;; Main.connect env P) w))
        = session_view (snd ((Main.disconnect env ;; Main.connect env P) w))).
Proof.
  split; [|split; [|split; [|split]]].
  - intros w. apply connect_disconnect_first.
  - intros w. apply bind_ext. intros _ w1. apply connect_disconnect_first.
  - intros rs c w Hc. apply connect_closes_previous; [|exact Hc].
    apply serve_all_inv, initial_inv.
  - intros rs w.
    pose proof (serve_all_inv env rs Main.initial initial_inv) as (Hlive & _ & Hcount).
    fold w in Hlive, Hcount. split.
    + rewrite Hlive. destruct (Main.client (Main.svc w)); simpl; lia.
    + intros Hnone. rewrite Hnone in Hlive. rewrite Hlive in Hcount. simpl in Hcount.
      split; [lia | exact Hlive].
  - intros rs w Hsteady.
    assert (Hinv : session_inv w) by apply serve_all_inv, initial_inv.
    rewrite <- connect_disconnect_first.
    rewrite bind_snd by apply connect_returns.
    destruct (connect_outcome env P w Hinv) as [t1 ->].
    destruct (connect_outcome env P (snd (Main.connect env P w))
                (connect_inv env P w Hinv)) as [t2 ->].
    rewrite (Hsteady t2 t1). reflexivity.
Qed.

(** The statement at work: connect twice, then disconnect. *)
Lemma C1_witness :
  let env := Scenario.healthy in
  let P := Scenario.profileA in
  let w := Main.serve_all env [Main.CONNECT P; Main.CONNECT P; Main.DISCONNECT]
             Main.initial in
  (Main.client (Main.svc w) = None
   /\ Pg.handle_closes (Main.pg w) = 2
   /\ Pg.handle_opens (Main.pg w) = 2)
  /\ (steady_connect env
      /\ session_view (snd ((Main.connect env P ;; Main.connect env P) Main.initial))
         = session_view (snd ((Main.disconnect env ;; Main.connect env P) Main.initial))).
Proof.
  intros env P w.
  pose proof (C1_connect_is_disconnect_then_connect env P)
    as (_ & _ & _ & Hcount & Hview).
  split.
  - assert (Hnone : Main.client (Main.svc w) = None) by reflexivity.
    split; [exact Hnone|].
    destruct (Hcount [Main.CONNECT P; Main.CONNECT P; Main.DISCONNECT]) as [_ H].
    destruct (H Hnone) as [H1 _]. fold w in H1.
    split; [|rewrite <- H1]; reflexivity.
  - assert (Hsteady : steady_connect env) by (intros t t' cfg; reflexivity).
    split; [exact Hsteady|]. exact (Hview [] Hsteady).
Defined.

(** ** Disconnecting *)

Lemma not_live_after_end h l :
  existsb (Nat.eqb h) (List.filter (fun h' => negb (Nat.eqb h' h)) l) = false.
Proof.
  induction l as [|x l IH]; simpl; [reflexivity|].
  destruct (Nat.eqb x h) eqn:E; simpl; [exact IH|].
  rewrite IH, Nat.eqb_sym, E. reflexivity.
Qed.

Lemma main_disconnect_spec env (m : Main.World) :
  let m1 := snd (Main.disconnect env m) in
  fst (Main.disconnect env m) = Ok tt
  /\ Main.client (Main.svc m1) = None
  /\ (forall c, Main.client (Main.svc m) = Some c ->
        Pg.events (Main.pg m1)
        = Pg.Ended (Pg.handle c) (Pg.is_live (Pg.handle c) (Main.pg m))
            :: Pg.events (Main.pg m)
        /\ Pg.is_live (Pg.handle c) (Main.pg m1) = false
        /\ Main.config (Main.svc m1) = None
        /\ Main.console m1
           = match Pg.on_end env (Pg.tick (Main.pg m)) with
             | Some e => ("Error during disconnect:" +:+ " " +:+ Js.message e)
                           :: Main.console m
             | None => Main.console m
             end)
  /\ (Main.client (Main.svc m) = None -> m1 = m).
Proof.
  destruct m as [[c cf cc] d out].
  unfold_main; unfold_monad; simpl.
  destruct c as [c|]; simpl.
  - destruct (Pg.on_end env (Pg.tick d)); simpl;
      (split; [reflexivity|]; split; [reflexivity|];
       split; [|discriminate];
       intros ? [= <-]; repeat split; apply not_live_after_end).
  - split; [reflexivity|]. split; [reflexivity|]. split; [discriminate|reflexivity].
Qed.

(** C7: [disconnect()] never lets an error out; it ends with the renderer
    service not connected and its connection configuration cleared, and with
    the main-process service holding no client; when a client was held, it is
    ended (one [end()] on its handle, which is then no longer open), the
    recorded client configuration is cleared, and an error of [end()] is
    written to the console and otherwise dropped; when no client was held the
    main process is left as it was; and a second [disconnect()] changes
    nothing. *)
Theorem C7_disconnect_idempotent_swallows_errors
    (env : Pg.Env) (w : Renderer.World) :
  let w1 := snd (Renderer.disconnect env w) in
  let m := Renderer.main w in
  let m1 := Renderer.main w1 in
  fst (Renderer.disconnect env w) = Ok tt
  /\ fst (Main.disconnect env m) = Ok tt
  /\ Renderer.isConnected w1 = false
  /\ Renderer.getConnectionConfig w1 = None
  /\ Main.client (Main.svc m1) = None
  /\ (forall c, Main.client (Main.svc m) = Some c ->
        Pg.events (Main.pg m1)
        = Pg.Ended (Pg.handle c) (Pg.is_live (Pg.handle c) (Main.pg m))
            :: Pg.events (Main.pg m)
        /\ Pg.is_live (Pg.handle c) (Main.pg m1) = false
        /\ Main.config (Main.svc m1) = None
        /\ Main.console m1
           = match Pg.on_end env (Pg.tick (Main.pg m)) with
             | Some e => ("Error during disconnect:" +:+ " " +:+ Js.message e)
                           :: Main.console m
             | None => Main.console m
             end)
  /\ (Main.client (Main.svc m) = None -> m1 = m)
  /\ Renderer.disconnect env w1 = (Ok tt, w1).
Proof.
  destruct w as [s m]. simpl.
  pose proof (main_disconnect_spec env m) as (Hok & Hnone & Hsome & Hsame).
  assert (Hrun : Renderer.disconnect env {| Renderer.svc := s; Renderer.main := m |}
                 = (Ok tt,
                    {| Renderer.svc := {| Renderer.connectionConfig := None;
                                          Renderer.connected := false |};
                       Renderer.main := snd (Main.disconnect env m) |})).
  { unfold_renderer; unfold_monad; simpl.
    destruct (Main.disconnect env m) as [r m1]. simpl in *. subst r. reflexivity. }
  rewrite Hrun. simpl.
  repeat (split; [assumption || reflexivity|]).
  unfold_renderer; unfold_monad; simpl.
  pose proof (main_disconnect_spec env (snd (Main.disconnect env m)))
    as (Hok2 & _ & _ & Hsame2).
  specialize (Hsame2 Hnone).
  destruct (Main.disconnect env (snd (Main.disconnect env m))) as [r m2].
  simpl in *. subst r m2. reflexivity.
Qed.

(** The statement at work: a connected session whose [end()] fails. *)
Lemma C7_witness :
  let env := Scenario.refusing in
  let w := Scenario.renderer_on_A Scenario.healthy in
  let c := {| Pg.handle := 0;
              Pg.clientConfig :=
                {| Pg.host := "localhost"; Pg.port := 5432; Pg.database := "app";
                   Pg.user := "app"; Pg.password := "x"; Pg.ssl := None |} |} in
  Main.client (Main.svc (Renderer.main w)) = Some c
  /\ Pg.events (Main.pg (Renderer.main (snd (Renderer.disconnect env w))))
     = [Pg.Ended 0 true; Pg.Opened 0]
  /\ Main.console (Renderer.main (snd (Renderer.disconnect env w)))
     = ["Error during disconnect: not connected"].
Proof.
  intros env w c.
  assert (Hc : Main.client (Main.svc (Renderer.main w)) = Some c) by reflexivity.
  split; [exact Hc|].
  destruct (C7_disconnect_idempotent_swallows_errors env w)
    as (_ & _ & _ & _ & _ & H & _).
  destruct (H c Hc) as (Hev & _ & _ & Hout).
  split; [rewrite Hev | rewrite Hout]; reflexivity.
Defined.

(** ** Testing a connection *)

(** What [testConnection] does to the main process, in every state: it never
    throws, leaves the held client alone, ends the temporary client, and
    records the tested configuration in the service's fields. *)
Lemma testConnection_effect env cfg (w : Main.World) :
  let w' := snd (Main.testConnection env cfg w) in
  (exists res, fst (Main.testConnection env cfg w) = Ok res)
  /\ Main.client (Main.svc w') = Main.client (Main.svc w)
  /\ (exists o rest,
        Pg.events (Main.pg w')
        = Pg.Ended (Pg.next_handle (Main.pg w)) o :: rest)
  /\ (session_inv w -> Pg.live (Main.pg w') = Pg.live (Main.pg w))
  /\ Main.connectionConfig (Main.svc w') = Some cfg
  /\ (exists cc, Main.config (Main.svc w') = Some cc /\ Pg.host cc = host cfg).
Proof.
  destruct w as [[c cf cc] d out].
  pose proof (testConnection_inv env cfg
                {| Main.svc := {| Main.client := c; Main.config := cf;
                                  Main.connectionConfig := cc |};
                   Main.pg := d; Main.console := out |}) as Hpres.
  revert Hpres.
  unfold_main; unfold_monad; simpl.
  destruct (Pg.on_connect env _ _); simpl;
    [| destruct (Pg.on_query env _ _ _); simpl ];
    destruct (Pg.on_end env _); simpl; intros Hpres;
    (repeat split; eauto;
     intros Hinv; destruct (Hpres Hinv) as (Hl & _); destruct Hinv as (Hl0 & _);
     simpl in *; congruence).
Qed.

(** C6 (where the code departs from it): with [profileA] connected, testing
    [profileB] leaves the held client and the open handles as they were, but
    overwrites the service's recorded configuration with that of
    [profileB]. *)
Theorem C6_testConnection_overwrites_config :
  let w := Scenario.main_on_A in
  let w' := snd (Main.testConnection Scenario.healthy Scenario.profileB w) in
  Main.client (Main.svc w') = Main.client (Main.svc w)
  /\ Pg.live (Main.pg w') = Pg.live (Main.pg w)
  /\ Main.connectionConfig (Main.svc w) = Some Scenario.profileA
  /\ Main.connectionConfig (Main.svc w') = Some Scenario.profileB
  /\ Main.config (Main.svc w') <> Main.config (Main.svc w).
Proof.
  vm_compute. repeat split. discriminate.
Qed.

(** ** Running queries from the store *)

Lemma truthy_false s : truthy s = false <-> s = "".
Proof.
  unfold truthy. destruct (String.eqb_spec s ""); simpl; split; congruence.
Qed.

Lemma executeQuery_blank env q w :
  trim (effective q w) = "" -> Store.executeQuery env q w = (Ok None, w).
Proof.
  intros H. unfold effective in H. unfold_store; unfold_monad; simpl.
  rewrite H. reflexivity.
Qed.

(** The two ways a run with a non-blank query ends. *)
Lemma executeQuery_cases env q w :
  trim (effective q w) <> "" ->
  let s0 := Store.with_queryError None
              (Store.with_isExecutingQuery true (Store.state w)) in
  match Renderer.executeQuery env (effective q w) (Store.service w) with
  | (Ok res, r1) =>
      Store.executeQuery env q w
      = (Ok (Some res),
         {| Store.state :=
              Store.with_isExecutingQuery false
                (Store.with_queryHistory
                   ({| Store.query := effective q w;
                       Store.timestamp := Pg.iso_now env (Store.clock w) |}
                      :: firstn 49 (Store.queryHistory (Store.state w)))
                   (Store.with_queryResult (Some res) s0));
            Store.service := r1;
            Store.clock := Datatypes.S (Store.clock w) |})
  | (Throw e, r1) =>
      Store.executeQuery env q w
      = (Ok None,
         {| Store.state :=
              Store.with_isExecutingQuery false
                (Store.with_queryError (Some (Js.message e)) s0);
            Store.service := r1;
            Store.clock := Store.clock w |})
  end.
Proof.
  intros H. unfold effective in *.
  assert (Ht : truthy (trim (or_else q (Store.currentQuery (Store.state w)))) = true).
  { destruct (truthy _) eqn:E; [reflexivity|]. apply truthy_false in E. contradiction. }
  destruct w as [s r k]. simpl in *.
  unfold_store; unfold_monad; simpl. rewrite Ht. simpl.
  destruct (Renderer.executeQuery env _ r) as [[res|e] r1]; reflexivity.
Qed.

(** [executeQuery] of the service never touches the service objects or the
    set of open handles, and throws at once when not connected. *)
Lemma renderer_executeQuery_frame env sql r :
  Renderer.svc (snd (Renderer.executeQuery env sql r)) = Renderer.svc r
  /\ Main.svc (Renderer.main (snd (Renderer.executeQuery env sql r)))
     = Main.svc (Renderer.main r)
  /\ Pg.live (Main.pg (Renderer.main (snd (Renderer.executeQuery env sql r))))
     = Pg.live (Main.pg (Renderer.main r))
  /\ (Renderer.isConnected r = false ->
      Renderer.executeQuery env sql r
      = (Throw (mkError "No active database connection"), r)).
Proof.
  destruct r as [[cc k] [[c cf mcc] d out]].
  unfold_renderer; unfold_main; unfold_monad; simpl.
  destruct k; simpl.
  - destruct c as [c|]; simpl.
    + destruct (Pg.on_query env _ _ _); simpl; repeat split; discriminate.
    + repeat split; discriminate.
  - repeat split.
Qed.

Lemma trim_blanks : trim "   " = "".
Proof. reflexivity. Qed.

(** C3 (as the code has it): the query that runs is [sql], or the editor's
    current query when [sql] is the empty string.  When that query trims to
    the empty string, [run(sql)] returns [null] and changes nothing (so the
    session is not contacted); when it does not and the session is not
    connected, [run(sql)] returns [null] with the error
    ['No active database connection'], without reaching the main process and
    without appending to the history; [run("   ")] always returns [null]
    changing nothing, and [run("")] does the same whenever the current query
    is blank. *)
Theorem C3_run_guards (env : Pg.Env) (sql : string) (w : Store.World) :
  (trim (effective (Some sql) w) = "" ->
   Store.executeQuery env (Some sql) w = (Ok None, w))
  /\ (trim (effective (Some sql) w) <> "" ->
      Renderer.isConnected (Store.service w) = false ->
      exists w',
        Store.executeQuery env (Some sql) w = (Ok None, w')
        /\ Store.queryError (Store.state w') = Some "No active database connection"
        /\ Store.queryHistory (Store.state w') = Store.queryHistory (Store.state w)
        /\ Store.service w' = Store.service w
        /\ Store.clock w' = Store.clock w)
  /\ Store.executeQuery env (Some "   ") w = (Ok None, w)
  /\ (trim (Store.currentQuery (Store.state w)) = "" ->
      Store.executeQuery env (Some "") w = Store.executeQuery env (Some "   ") w).
Proof.
  split; [|split; [|split]].
  - apply executeQuery_blank.
  - intros Hq Hc.
    pose proof (executeQuery_cases env (Some sql) w Hq) as Hrun.
    destruct (renderer_executeQuery_frame env (effective (Some sql) w) (Store.service w))
      as (_ & _ & _ & Hthrow).
    rewrite (Hthrow Hc) in Hrun. simpl in Hrun.
    eexists. split; [exact Hrun|]. repeat split.
  - apply executeQuery_blank. reflexivity.
  - intros Hblank.
    rewrite (executeQuery_blank env (Some "") w) by exact Hblank.
    rewrite (executeQuery_blank env (Some "   ") w) by reflexivity.
    reflexivity.
Qed.

(** The statement at work: a blank query, and a query on a fresh store. *)
Lemma C3_witness :
  (trim (effective (Some "   ") Store.initial) = ""
   /\ Store.executeQuery Scenario.healthy (Some "   ") Store.initial
      = (Ok None, Store.initial))
  /\ (trim (effective (Some "SELECT 1") Store.initial) <> ""
      /\ Renderer.isConnected (Store.service Store.initial) = false
      /\ exists w',
           Store.executeQuery Scenario.healthy (Some "SELECT 1") Store.initial
           = (Ok None, w')
           /\ Store.queryError (Store.state w') = Some "No active database connection"
           /\ Store.queryHistory (Store.state w') = []
           /\ Store.service w' = Store.service Store.initial
           /\ Store.clock w' = 0).
Proof.
  pose proof (C3_run_guards Scenario.healthy "   " Store.initial) as (H1 & _).
  pose proof (C3_run_guards Scenario.healthy "SELECT 1" Store.initial) as (_ & H2 & _).
  split.
  - split; [reflexivity | exact (H1 eq_refl)].
  - assert (Hq : trim (effective (Some "SELECT 1") Store.initial) <> "")
      by (vm_compute; discriminate).
    split; [exact Hq|]. split; [reflexivity|].
    exact (H2 Hq eq_refl).
Defined.

(** C3 (as stated) fails at [sql = ""] when a query is typed in the editor:
    the input trims to the empty string, yet the typed query is sent to the
    session and recorded in the history, whereas [run("   ")] does nothing. *)
Lemma C3_counterexample :
  let w := Scenario.store_on_A Scenario.healthy "SELECT 1" in
  let w' := snd (Store.executeQuery Scenario.healthy (Some "") w) in
  trim "" = ""
  /\ Renderer.isConnected (Store.service w) = true
  /\ is_success (fst (Store.executeQuery Scenario.healthy (Some "") w)) = true
  /\ driver_log w' = Pg.Queried 0 "SELECT 1" [] :: driver_log w
  /\ List.map Store.query (Store.queryHistory (Store.state w')) = ["SELECT 1"]
  /\ Store.executeQuery Scenario.healthy (Some "   ") w = (Ok None, w)
  /\ Store.executeQuery Scenario.healthy (Some "") w
     <> Store.executeQuery Scenario.healthy (Some "   ") w.
Proof.
  vm_compute. repeat split. discriminate.
Qed.

(** ** Failed queries *)

(** A run never changes the connectivity of the session, whatever its
    outcome, and never throws. *)
Lemma executeQuery_connectivity env q w :
  connectivity (snd (Store.executeQuery env q w)) = connectivity w
  /\ Store.isConnected (Store.state (snd (Store.executeQuery env q w)))
     = Store.isConnected (Store.state w)
  /\ exists r, fst (Store.executeQuery env q w) = Ok r.
Proof.
  destruct (String.eqb_spec (trim (effective q w)) "") as [Hb|Hn].
  - rewrite executeQuery_blank by exact Hb. simpl. eauto.
  - pose proof (executeQuery_cases env q w Hn) as Hrun.
    destruct (renderer_executeQuery_frame env (effective q w) (Store.service w))
      as (Hr & Hm & Hl & _).
    destruct (Renderer.executeQuery env (effective q w) (Store.service w))
      as [[res|e] r1]; simpl in *; rewrite Hrun;
      unfold connectivity; simpl; rewrite Hr, Hm, Hl; eauto.
Qed.

Lemma failed_run_keeps_history env q w :
  fst (Store.executeQuery env q w) = Ok None ->
  Store.queryHistory (Store.state (snd (Store.executeQuery env q w)))
  = Store.queryHistory (Store.state w).
Proof.
  destruct (String.eqb_spec (trim (effective q w)) "") as [Hb|Hn].
  - rewrite executeQuery_blank by exact Hb. reflexivity.
  - pose proof (executeQuery_cases env q w Hn) as Hrun.
    destruct (Renderer.executeQuery env (effective q w) (Store.service w))
      as [[res|e] r1]; simpl in *; rewrite Hrun; simpl; [discriminate|reflexivity].
Qed.

(** What a connected session does when the driver rejects the query. *)
Lemma rejected_query_outcome env q w c e :
  trim (effective q w) <> "" ->
  Renderer.isConnected (Store.service w) = true ->
  Main.client (Main.svc (Renderer.main (Store.service w))) = Some c ->
  Pg.on_query env (Datatypes.S (Pg.tick (Main.pg (Renderer.main (Store.service w)))))
              (effective q w) [] = Throw e ->
  fst (Store.executeQuery env q w) = Ok None
  /\ Store.queryError (Store.state (snd (Store.executeQuery env q w)))
     = Some (Js.message (Pg.remote_error env Renderer.channels.EXECUTE_QUERY e))
  /\ driver_log (snd (Store.executeQuery env q w))
     = Pg.Queried (Pg.handle c) (effective q w) [] :: driver_log w.
Proof.
  intros Hn Hc Hcl He.
  pose proof (executeQuery_cases env q w Hn) as Hrun.
  destruct w as [s [[cc k] [[c0 cf mcc] d out]] n].
  unfold driver_log, Renderer.isConnected in *. simpl in *. subst k c0.
  revert Hrun. unfold_renderer; unfold_main; unfold_monad; simpl.
  rewrite He. simpl. intros ->. simpl. repeat split.
Qed.

(** C4 (as the code has it): when a run fails (returns [null]) the query is
    not appended to the history and the connectivity of the session (the
    fields of both service objects, the open handles, the store's
    [isConnected]) is unchanged; this holds for every failure: when the
    driver rejects the query of a connected session, whether or not the error
    is one of the transport, the run fails with the driver's error as the
    bridge words it and the session stays as it was. *)
Theorem C4_failed_query_keeps_session
    (env : Pg.Env) (q : option string) (w : Store.World) :
  fst (Store.executeQuery env q w) = Ok None ->
  let w' := snd (Store.executeQuery env q w) in
  Store.queryHistory (Store.state w') = Store.queryHistory (Store.state w)
  /\ connectivity w' = connectivity w
  /\ Store.isConnected (Store.state w') = Store.isConnected (Store.state w)
  /\ (forall c e,
        trim (effective q w) <> "" ->
        Renderer.isConnected (Store.service w) = true ->
        Main.client (Main.svc (Renderer.main (Store.service w))) = Some c ->
        Pg.on_query env
          (Datatypes.S (Pg.tick (Main.pg (Renderer.main (Store.service w)))))
          (effective q w) [] = Throw e ->
        Store.queryError (Store.state w')
        = Some (Js.message (Pg.remote_error env Renderer.channels.EXECUTE_QUERY e))
        /\ Renderer.isConnected (Store.service w') = true
        /\ Main.client (Main.svc (Renderer.main (Store.service w'))) = Some c).
Proof.
  intros Hfail w'.
  destruct (executeQuery_connectivity env q w) as (Hconn & Hflag & _).
  split; [by apply failed_run_keeps_history|].
  split; [exact Hconn|]. split; [exact Hflag|].
  intros c e Hn Hc Hcl He.
  destruct (rejected_query_outcome env q w c e Hn Hc Hcl He) as (_ & Herr & _).
  split; [exact Herr|].
  unfold connectivity in Hconn. injection Hconn as Hr Hm _.
  fold w' in Hr, Hm.
  unfold Renderer.isConnected in *. rewrite Hr, Hm. split; assumption.
Qed.

(** The statement at work: the connection dropped under a connected session. *)
Lemma C4_witness :
  let env := Scenario.dropping in
  let w := Scenario.store_on_A env "SELECT 1" in
  let w' := snd (Store.executeQuery env None w) in
  fst (Store.executeQuery env None w) = Ok None
  /\ Store.queryHistory (Store.state w') = []
  /\ connectivity w' = connectivity w
  /\ Store.queryError (Store.state w')
     = Some (Js.message (Pg.electron_error "database:execute-query" Scenario.terminated))
  /\ Renderer.isConnected (Store.service w') = true.
Proof.
  intros env w w'.
  assert (Hfail : fst (Store.executeQuery env None w) = Ok None) by reflexivity.
  destruct (C4_failed_query_keeps_session env None w Hfail) as (Hh & Hc & _ & Hsev).
  fold w' in Hh, Hc, Hsev.
  split; [exact Hfail|]. split; [rewrite Hh; reflexivity|]. split; [exact Hc|].
  assert (Hq : trim (effective None w) <> "") by (vm_compute; discriminate).
  destruct (Hsev _ Scenario.terminated Hq eq_refl eq_refl eq_refl) as (He & Hk & _).
  split; assumption.
Defined.

(** C4 (as stated) fails where the driver reports the transport as severed:
    the session does not leave its connected state, and the next call is
    again sent to the driver instead of being refused as not connected. *)
Lemma C4_counterexample :
  let env := Scenario.dropping in
  let w := Scenario.store_on_A env "SELECT 1" in
  let w1 := snd (Store.executeQuery env None w) in
  let w2 := snd (Store.executeQuery env None w1) in
  transport Scenario.terminated = true
  /\ fst (Store.executeQuery env None w) = Ok None
  /\ Store.queryError (Store.state w1)
     = Some "Error invoking remote method 'database:execute-query': Error: Connection terminated unexpectedly"
  /\ Renderer.isConnected (Store.service w1) = true
  /\ Main.client (Main.svc (Renderer.main (Store.service w1)))
     = Main.client (Main.svc (Renderer.main (Store.service w)))
  /\ fst (Store.executeQuery env None w1) = Ok None
  /\ Store.queryError (Store.state w2) <> Some "No active database connection"
  /\ driver_log w2 = Pg.Queried 0 "SELECT 1" [] :: driver_log w1.
Proof.
  vm_compute. repeat split. discriminate.
Qed.

(** ** The query history *)

Lemma firstn_app_firstn {A} (a b : list A) n m :
  n <= length a + m -> firstn n (a ++ firstn m b)%list = firstn n (a ++ b)%list.
Proof.
  intros H. rewrite !firstn_app, firstn_firstn. f_equal. f_equal. lia.
Qed.

Lemma addToQueryHistory_spec env q w :
  let h := Store.queryHistory (Store.state w) in
  let h' := Store.queryHistory (Store.state (snd (Store.addToQueryHistory env q w))) in
  (trim q <> "" ->
   h' = {| Store.query := q; Store.timestamp := Pg.iso_now env (Store.clock w) |}
          :: firstn 49 h)
  /\ (trim q = "" -> h' = h).
Proof.
  destruct w as [s r k]. unfold_store; unfold_monad; simpl.
  destruct (truthy (trim q)) eqn:E; simpl.
  - split; [reflexivity|]. intros Hb. rewrite Hb in E. discriminate.
  - apply truthy_false in E. split; [contradiction|reflexivity].
Qed.

Lemma successful_run env q w :
  is_success (fst (Store.executeQuery env q w)) = true ->
  let w' := snd (Store.executeQuery env q w) in
  Store.queryHistory (Store.state w')
  = {| Store.query := effective q w;
       Store.timestamp := Pg.iso_now env (Store.clock w) |}
      :: firstn 49 (Store.queryHistory (Store.state w))
  /\ Store.currentQuery (Store.state w') = Store.currentQuery (Store.state w).
Proof.
  destruct (String.eqb_spec (trim (effective q w)) "") as [Hb|Hn].
  - rewrite executeQuery_blank by exact Hb. discriminate.
  - pose proof (executeQuery_cases env q w Hn) as Hrun.
    destruct (Renderer.executeQuery env (effective q w) (Store.service w))
      as [[res|e] r1]; simpl in *; rewrite Hrun; simpl; [|discriminate].
    intros _. split; reflexivity.
Qed.

Lemma run_all_history env qs : forall w,
  length (Store.queryHistory (Store.state w)) <= 50 ->
  forallb is_success (fst (run_all env qs w)) = true ->
  List.map Store.query (Store.queryHistory (Store.state (snd (run_all env qs w))))
  = firstn 50 (rev (List.map (fun q => effective (Some q) w) qs)
                 ++ List.map Store.query (Store.queryHistory (Store.state w)))%list.
Proof.
  induction qs as [|q qs IH]; intros w Hlen Hok; simpl in *.
  - rewrite firstn_all2; [reflexivity|]. rewrite length_map. exact Hlen.
  - pose proof (successful_run env (Some q) w) as Hstep.
    destruct (Store.executeQuery env (Some q) w) as [r w1]. simpl in *.
    specialize (IH w1).
    destruct (run_all env qs w1) as [rs w2]. simpl in *.
    apply andb_prop in Hok as [Hr Hrs].
    destruct (Hstep Hr) as [Hh Hcur].
    rewrite IH; [| rewrite Hh; simpl; rewrite length_firstn; lia | exact Hrs].
    rewrite Hh. simpl. rewrite <- firstn_map.
    unfold effective at 1. rewrite Hcur. fold (effective (Some q) w).
    rewrite <- app_assoc. simpl.
    replace (List.map (fun q0 => or_else (Some q0) (Store.currentQuery (Store.state w))) qs)
      with (List.map (fun q0 => effective (Some q0) w) qs) by reflexivity.
    change (effective (Some q) w
              :: firstn 49 (List.map Store.query (Store.queryHistory (Store.state w))))
      with ([effective (Some q) w]
              ++ firstn 49 (List.map Store.query (Store.queryHistory (Store.state w))))%list.
    change (effective (Some q) w
              :: List.map Store.query (Store.queryHistory (Store.state w)))
      with ([effective (Some q) w]
              ++ List.map Store.query (Store.queryHistory (Store.state w)))%list.
    rewrite !app_assoc. apply firstn_app_firstn.
    rewrite length_app. simpl. lia.
Qed.

Lemma run_keeps_bound env q w :
  length (Store.queryHistory (Store.state w)) <= 50 ->
  length (Store.queryHistory (Store.state (snd (Store.executeQuery env q w)))) <= 50.
Proof.
  intros Hlen.
  destruct (is_success (fst (Store.executeQuery env q w))) eqn:E.
  - destruct (successful_run env q w E) as [-> _]. simpl.
    rewrite length_firstn. lia.
  - destruct (executeQuery_connectivity env q w) as (_ & _ & [r Hr]).
    rewrite failed_run_keeps_history; [exact Hlen|].
    rewrite Hr in *. destruct r; [discriminate|reflexivity].
Qed.

Lemma run_all_keeps_bound env qs : forall w,
  length (Store.queryHistory (Store.state w)) <= 50 ->
  length (Store.queryHistory (Store.state (snd (run_all env qs w)))) <= 50.
Proof.
  induction qs as [|q qs IH]; intros w Hlen; simpl; [exact Hlen|].
  pose proof (run_keeps_bound env (Some q) w Hlen) as Hstep.
  destruct (Store.executeQuery env (Some q) w) as [r w1]. simpl in *.
  specialize (IH w1 Hstep).
  destruct (run_all env qs w1) as [rs w2]. exact IH.
Qed.

(** C5: the history is a bounded log filled from the front.  Adding a
    non-blank query puts its entry first, before the 49 most recent earlier
    entries, so that a log of 50 loses its oldest (last) entry; every
    successful run adds the query it ran in this way; a history of at most 50
    entries (the initial one is empty) stays within 50 under any sequence of
    runs; and after 51 successful runs in a row the history holds exactly the
    50 most recent queries, the latest first. *)
Theorem C5_history_is_bounded_log (env : Pg.Env) (w : Store.World) :
  let h := Store.queryHistory (Store.state w) in
  let added q := Store.queryHistory (Store.state (snd (Store.addToQueryHistory env q w))) in
  let entry q := {| Store.query := q;
                    Store.timestamp := Pg.iso_now env (Store.clock w) |} in
  (forall q, trim q <> "" -> added q = entry q :: firstn 49 h)
  /\ (forall q, trim q <> "" -> length h = 50 -> added q = entry q :: removelast h)
  /\ (forall q, trim q <> "" -> length (added q) <= 50)
  /\ (forall q, is_success (fst (Store.executeQuery env q w)) = true ->
        Store.queryHistory (Store.state (snd (Store.executeQuery env q w)))
        = entry (effective q w) :: firstn 49 h)
  /\ (forall qs, length h <= 50 ->
        length (Store.queryHistory (Store.state (snd (run_all env qs w)))) <= 50)
  /\ (forall qs,
        length h <= 50 ->
        length qs = 51 ->
        forallb is_success (fst (run_all env qs w)) = true ->
        let h' := Store.queryHistory (Store.state (snd (run_all env qs w))) in
        length h' = 50
        /\ List.map Store.query h'
           = firstn 50 (rev (List.map (fun q => effective (Some q) w) qs))).
Proof.
  intros h added entry.
  assert (Hadd : forall q, trim q <> "" -> added q = entry q :: firstn 49 h).
  { intros q Hq. apply (addToQueryHistory_spec env q w). exact Hq. }
  split; [exact Hadd|].
  split.
  { intros q Hq Hfull. rewrite (Hadd q Hq). f_equal.
    rewrite removelast_firstn_len. unfold h in *. rewrite Hfull. reflexivity. }
  split.
  { intros q Hq. rewrite (Hadd q Hq). simpl. rewrite length_firstn. lia. }
  split.
  { intros q Hok. apply (successful_run env q w Hok). }
  split.
  { intros qs Hlen. by apply run_all_keeps_bound. }
  intros qs Hlen Hqs Hok h'.
  assert (Hmap : List.map Store.query h'
                 = firstn 50 (rev (List.map (fun q => effective (Some q) w) qs))).
  { unfold h'. rewrite run_all_history by assumption.
    rewrite firstn_app.
    replace (50 - length (rev (List.map (fun q => effective (Some q) w) qs))) with 0
      by (rewrite length_rev, length_map; lia).
    simpl. apply app_nil_r. }
  split; [|exact Hmap].
  rewrite <- (length_map Store.query), Hmap, length_firstn, length_rev, length_map.
  lia.
Qed.

(** The statement at work: [SELECT 1] to [SELECT 51] on a connected store. *)
Lemma C5_witness :
  let env := Scenario.healthy in
  let w := Scenario.store_on_A env "" in
  let h' := Store.queryHistory (Store.state (snd (run_all env Scenario.fifty_one w))) in
  (length (Store.queryHistory (Store.state w)) <= 50
   /\ length Scenario.fifty_one = 51
   /\ forallb is_success (fst (run_all env Scenario.fifty_one w)) = true)
  /\ length h' = 50
  /\ List.map Store.query h' = firstn 50 (rev Scenario.fifty_one)
  /\ hd_error (List.map Store.query h') = Some "SELECT 51"
  /\ last (List.map Store.query h') = Some "SELECT 2".
Proof.
  intros env w h'.
  assert (H1 : length (Store.queryHistory (Store.state w)) <= 50) by (simpl; lia).
  assert (H2 : length Scenario.fifty_one = 51) by reflexivity.
  assert (H3 : forallb is_success (fst (run_all env Scenario.fifty_one w)) = true)
    by (vm_compute; reflexivity).
  destruct (C5_history_is_bounded_log env w) as (_ & _ & _ & _ & _ & H).
  destruct (H Scenario.fifty_one H1 H2 H3) as [Hlen Hmap]. fold h' in Hlen, Hmap.
  split; [auto|]. split; [exact Hlen|].
  assert (Heff : List.map (fun q => effective (Some q) w) Scenario.fifty_one
                 = Scenario.fifty_one) by (vm_compute; reflexivity).
  rewrite Heff in Hmap.
  split; [exact Hmap|]. rewrite Hmap. split; vm_compute; reflexivity.
Defined.

(** ** Type names *)

Lemma typeMap_names_nonempty id s : Main.typeMap !! id = Some s -> s <> "".
Proof.
  unfold Main.typeMap. intros H. apply elem_of_list_to_map_2 in H.
  repeat (apply elem_of_cons in H as [[= ? ?]|H]; [subst; discriminate|]).
  by apply elem_of_nil in H.
Qed.

Lemma getDataTypeName_known id s :
  Main.typeMap !! id = Some s -> Main.getDataTypeName id = s.
Proof.
  intros H. unfold Main.getDataTypeName, or_else. rewrite H.
  destruct (truthy s) eqn:E; [reflexivity|].
  apply truthy_false in E. by apply typeMap_names_nonempty in H.
Qed.

Lemma getDataTypeName_nonempty id : Main.getDataTypeName id <> "".
Proof.
  destruct (Main.typeMap !! id) as [s|] eqn:H.
  - rewrite (getDataTypeName_known id s H). by apply typeMap_names_nonempty in H.
  - unfold Main.getDataTypeName, or_else. rewrite H. discriminate.
Qed.

(** C9: [getDataTypeName] is a function on all type identifiers: it returns
    the name the table gives to an identifier it lists, ["unknown(<id>)"] for
    any other identifier, and never the empty string; and every field of a
    result produced by [executeQuery] carries the name so computed from its
    identifier, which is not empty. *)
Theorem C9_getDataTypeName_total (typeId : Z) :
  (forall known, Main.typeMap !! typeId = Some known ->
                 Main.getDataTypeName typeId = known)
  /\ (Main.typeMap !! typeId = None ->
      Main.getDataTypeName typeId = "unknown(" +:+ string_of_number typeId +:+ ")")
  /\ Main.getDataTypeName typeId <> ""
  /\ (forall env sql w res w',
        Main.executeQuery env sql w = (Ok res, w') ->
        Forall (fun f => dataType f = Some (Main.getDataTypeName (dataTypeID f))
                         /\ dataType f <> Some "")
               (fields res)).
Proof.
  split; [apply getDataTypeName_known|].
  split.
  { intros H. unfold Main.getDataTypeName, or_else. by rewrite H. }
  split; [apply getDataTypeName_nonempty|].
  intros env sql [[c cf cc] d out] res w'.
  unfold_main; unfold_monad; simpl.
  destruct c as [c|]; simpl; [|discriminate].
  destruct (Pg.on_query env _ _ _) as [r|e]; simpl; [|discriminate].
  intros [= <- _]. simpl. apply Forall_map. apply Forall_forall. intros f _. simpl.
  split; [reflexivity|]. intros [= H]. by apply getDataTypeName_nonempty in H.
Qed.

(** The statement at work: a listed identifier, an unlisted one, and the
    fields of [SELECT 1]. *)
Lemma C9_witness :
  (Main.typeMap !! 23%Z = Some "integer" /\ Main.getDataTypeName 23 = "integer")
  /\ (Main.typeMap !! 600%Z = None /\ Main.getDataTypeName 600 = "unknown(600)")
  /\ List.map dataType
       (match fst (Main.executeQuery Scenario.healthy "SELECT 1" Scenario.main_on_A) with
        | Ok res => fields res
        | Throw _ => []
        end) = [Some "integer"].
Proof.
  split; [|split].
  - assert (H : Main.typeMap !! 23%Z = Some "integer") by reflexivity.
    split; [exact H|]. exact (proj1 (C9_getDataTypeName_total 23) _ H).
  - assert (H : Main.typeMap !! 600%Z = None) by reflexivity.
    split; [exact H|]. exact (proj1 (proj2 (C9_getDataTypeName_total 600)) H).
  - reflexivity.
Defined.

(** ** Stored connections *)

(** What holds of [getConnections()] in every state of the storage: it
    returns normally and leaves the storage untouched; it returns the empty
    list when the entry is absent and when its text is rejected by
    [JSON.parse] (or is the empty string); a text that parses is returned as
    parsed, with no check that it is a list. *)
Lemma getConnections_total
    (JSON_parse : string -> Result ConnectionManager.Json)
    (w : ConnectionManager.World) :
  let stored := ConnectionManager.localStorage w !! ConnectionManager.STORAGE_KEY in
  (exists v w',
      ConnectionManager.getConnections JSON_parse w = (Ok v, w')
      /\ ConnectionManager.localStorage w' = ConnectionManager.localStorage w)
  /\ (stored = None ->
      ConnectionManager.getConnections JSON_parse w
      = (Ok (ConnectionManager.JsonArray []), w))
  /\ (forall s e, stored = Some s -> JSON_parse s = Throw e ->
        fst (ConnectionManager.getConnections JSON_parse w)
        = Ok (ConnectionManager.JsonArray []))
  /\ (stored = Some "" ->
      ConnectionManager.getConnections JSON_parse w
      = (Ok (ConnectionManager.JsonArray []), w))
  /\ (forall s v, stored = Some s -> s <> "" -> JSON_parse s = Ok v ->
        ConnectionManager.getConnections JSON_parse w = (Ok v, w)).
Proof.
  intros stored. subst stored. destruct w as [ls out].
  unfold ConnectionManager.getConnections, ConnectionManager.getItem,
    ConnectionManager.console_error.
  unfold_monad; simpl.
  destruct (ls !! ConnectionManager.STORAGE_KEY) as [s|] eqn:Hs; simpl.
  - destruct (truthy s) eqn:Et; simpl.
    + split.
      { destruct (JSON_parse s); simpl; eauto. }
      split; [discriminate|]. split.
      { intros s' e [= <-] ->. reflexivity. }
      split.
      { intros [= ->]. discriminate. }
      intros s' v [= <-] _ ->. reflexivity.
    + apply truthy_false in Et. subst s.
      split; [eauto|]. split; [discriminate|]. split; [reflexivity|].
      split; [reflexivity|]. intros s' v [= <-] Hne. contradiction.
  - split; [eauto|]. split; [reflexivity|].
    split; [discriminate|]. split; discriminate.
Qed.

(** The two degenerate cases at work: no entry, and an entry that is not
    JSON. *)
Example getConnections_degenerate_cases :
  let empty := {| ConnectionManager.localStorage := ∅;
                  ConnectionManager.console := [] |} in
  (ConnectionManager.localStorage empty !! ConnectionManager.STORAGE_KEY = None
   /\ ConnectionManager.getConnections Scenario.parse_fragment empty
      = (Ok (ConnectionManager.JsonArray []), empty))
  /\ (ConnectionManager.localStorage Scenario.corrupted !! ConnectionManager.STORAGE_KEY
      = Some "{oops"
      /\ Scenario.parse_fragment "{oops" = Throw (mkError "Unexpected token")
      /\ fst (ConnectionManager.getConnections Scenario.parse_fragment Scenario.corrupted)
         = Ok (ConnectionManager.JsonArray [])).
Proof.
  intros empty. split.
  - assert (H : ConnectionManager.localStorage empty !! ConnectionManager.STORAGE_KEY = None)
      by reflexivity.
    split; [exact H|].
    exact (proj1 (proj2 (getConnections_total Scenario.parse_fragment empty)) H).
  - assert (H1 : ConnectionManager.localStorage Scenario.corrupted
                   !! ConnectionManager.STORAGE_KEY = Some "{oops") by reflexivity.
    assert (H2 : Scenario.parse_fragment "{oops" = Throw (mkError "Unexpected token"))
      by reflexivity.
    split; [exact H1|]. split; [exact H2|].
    exact (proj1 (proj2 (proj2
             (getConnections_total Scenario.parse_fragment Scenario.corrupted)))
             _ _ H1 H2).
Qed.

(** C10 (where the code departs from it): when the stored text is valid JSON
    but not the text of a list, here [null], [getConnections()] returns what
    [JSON.parse] made of it, which is not a list; it does not throw, but
    [saveConnection], [getConnectionById], [deleteConnection] and
    [updateLastUsed], which call an array method on its result, all throw a
    [TypeError] and leave the storage as it was. *)
Theorem C10_getConnections_returns_non_list :
  let parse := Samples.parse_known [ConnectionManager.JsonNull] in
  let w := Samples.null_stored in
  ConnectionManager.localStorage w !! ConnectionManager.STORAGE_KEY = Some "null"
  /\ parse "null" = Ok ConnectionManager.JsonNull
  /\ ConnectionManager.getConnections parse w = (Ok ConnectionManager.JsonNull, w)
  /\ (forall l, fst (ConnectionManager.getConnections parse w)
                <> Ok (ConnectionManager.JsonArray l))
  /\ (forall stringify fresh now connection,
        ConnectionManagerService.saveConnection parse stringify fresh now connection w
        = (Throw (mkError "Cannot read properties of null (reading 'findIndex')"), w))
  /\ (forall id,
        ConnectionManagerService.getConnectionById parse id w
        = (Throw (mkError "Cannot read properties of null (reading 'find')"), w))
  /\ (forall stringify id,
        ConnectionManagerService.deleteConnection parse stringify id w
        = (Throw (mkError "Cannot read properties of null (reading 'filter')"), w))
  /\ (forall stringify fresh now now' id,
        ConnectionManagerService.updateLastUsed parse stringify fresh now now' id w
        = (Throw (mkError "Cannot read properties of null (reading 'find')"), w)).
Proof.
  intros parse w.
  assert (Hget : ConnectionManager.getConnections parse w
                 = (Ok ConnectionManager.JsonNull, w)) by (vm_compute; reflexivity).
  split; [reflexivity|]. split; [reflexivity|]. split; [exact Hget|]. split.
  { intros l. rewrite Hget. discriminate. }
  split; [|split; [|split]]; intros.
  - unfold ConnectionManagerService.saveConnection. unfold mbind at 1. unfold M_bind.
    rewrite Hget. reflexivity.
  - unfold ConnectionManagerService.getConnectionById. unfold mbind at 1. unfold M_bind.
    rewrite Hget. reflexivity.
  - unfold ConnectionManagerService.deleteConnection. unfold mbind at 1. unfold M_bind.
    rewrite Hget. reflexivity.
  - unfold ConnectionManagerService.updateLastUsed. unfold mbind at 1. unfold M_bind.
    rewrite Hget. reflexivity.
Qed.

(** ** Listing the relations of a schema *)

Lemma row_name_table t : Catalog.row_name (Catalog.table_row t) = Catalog.table_name t.
Proof. reflexivity. Qed.

Lemma row_name_matview v : Catalog.row_name (Catalog.matview_row v) = Catalog.matviewname v.
Proof. reflexivity. Qed.

Section Relations.
Variable name_le : relation string.
Context `{!forall a b, Decision (name_le a b)} `{!Total name_le}.

Lemma select_tables_names db schema :
  List.map Catalog.row_name (Catalog.select_tables name_le db schema)
  = List.map Catalog.table_name
      (merge_sort (fun a b => name_le (Catalog.table_name a) (Catalog.table_name b))
                  (Catalog.tables_of db schema)).
Proof.
  unfold Catalog.select_tables. rewrite map_map. reflexivity.
Qed.

Lemma select_matviews_names db schema :
  List.map Catalog.row_name (Catalog.select_matviews name_le db schema)
  = List.map Catalog.matviewname
      (merge_sort (fun a b => name_le (Catalog.matviewname a) (Catalog.matviewname b))
                  (Catalog.matviews_of db schema)).
Proof.
  unfold Catalog.select_matviews. rewrite map_map. reflexivity.
Qed.

Lemma sorted_by_key {A} (key : A -> string) (l : list A) :
  Sorted name_le
    (List.map key (merge_sort (fun a b => name_le (key a) (key b)) l)).
Proof.
  apply (Sorted_fmap key (fun a b => name_le (key a) (key b)) name_le);
    [auto|].
  apply Sorted_merge_sort. intros a b. apply (total name_le).
Qed.

(** C8 (as the code has it): on a connected service whose server holds
    [db], [getTables(schema)] issues two queries, first for the tables and
    views and then for the materialized views of [schema], and returns the
    rows of the first followed by the rows of the second; each of the two
    parts is ordered by name, and together they are the relations of
    [schema], each once. *)
Theorem C8_getTables_appends_matviews
    (env : Pg.Env) (db : Catalog.Db) (schema : string)
    (w : Main.World) (c : Pg.Client) :
  Catalog.serves name_le env db ->
  Main.client (Main.svc w) = Some c ->
  let tables := Catalog.select_tables name_le db schema in
  let matviews := Catalog.select_matviews name_le db schema in
  fst (Main.getTables env schema w) = Ok (tables ++ matviews)%list
  /\ Pg.events (Main.pg (snd (Main.getTables env schema w)))
     = Pg.Queried (Pg.handle c) Main.matViewQuery [JStr schema]
         :: Pg.Queried (Pg.handle c) Main.getTables_query [JStr schema]
         :: Pg.events (Main.pg w)
  /\ Sorted name_le (List.map Catalog.row_name tables)
  /\ Sorted name_le (List.map Catalog.row_name matviews)
  /\ List.map Catalog.row_name (tables ++ matviews)%list
     ≡ₚ (List.map Catalog.table_name (Catalog.tables_of db schema)
         ++ List.map Catalog.matviewname (Catalog.matviews_of db schema))%list.
Proof.
  intros Hserves Hc tables matviews.
  destruct w as [[c0 cf cc] d out]. simpl in Hc. subst c0.
  unfold_main; unfold_monad; simpl.
  destruct (Hserves (Pg.tick d) schema) as [(r1 & -> & Hr1) _]. simpl.
  destruct (Hserves (Datatypes.S (Pg.tick d)) schema) as [_ (r2 & -> & Hr2)]. simpl.
  rewrite Hr1, Hr2.
  split; [reflexivity|]. split; [reflexivity|].
  unfold tables, matviews.
  rewrite select_tables_names, select_matviews_names.
  split; [apply sorted_by_key|]. split; [apply sorted_by_key|].
  rewrite map_app, select_tables_names, select_matviews_names.
  apply Permutation_app; apply Permutation_map, merge_sort_Permutation.
Qed.

End Relations.

Lemma server_serves (name_le : relation string)
    `{!forall a b, Decision (name_le a b)} db :
  Catalog.serves name_le (Catalog.server name_le db) db.
Proof.
  intros t schema. split; eexists; (split; [reflexivity|reflexivity]).
Qed.

(** The statement at work: the relations of [public] in the reporting
    database. *)
Lemma C8_witness :
  let env := Catalog.server String.le Scenario.reporting_db in
  let w := Scenario.main_on_reporting in
  let c := {| Pg.handle := 0;
              Pg.clientConfig :=
                {| Pg.host := "localhost"; Pg.port := 5432; Pg.database := "app";
                   Pg.user := "app"; Pg.password := "x"; Pg.ssl := None |} |} in
  (Catalog.serves String.le env Scenario.reporting_db
   /\ Main.client (Main.svc w) = Some c)
  /\ fst (Main.getTables env "public" w)
     = Ok [ [("name", JStr "users"); ("type", JStr "table")];
            [("name", JStr "daily_stats"); ("type", JStr "materialized_view")] ].
Proof.
  intros env w c.
  assert (H1 : Catalog.serves String.le env Scenario.reporting_db)
    by apply server_serves.
  assert (H2 : Main.client (Main.svc w) = Some c) by reflexivity.
  split; [split; assumption|].
  destruct (C8_getTables_appends_matviews String.le env Scenario.reporting_db
              "public" w c H1 H2) as [H _].
  rewrite H. reflexivity.
Defined.

(** C8 (as stated) fails when a materialized view sorts before a table: the
    result lists table [users] before materialized view [daily_stats], which
    is not in the order of the names. *)
Lemma C8_counterexample :
  let env := Catalog.server String.le Scenario.reporting_db in
  let result := fst (Main.getTables env "public" Scenario.main_on_reporting) in
  result = Ok [ [("name", JStr "users"); ("type", JStr "table")];
                [("name", JStr "daily_stats"); ("type", JStr "materialized_view")] ]
  /\ ~ Sorted String.le ["users"; "daily_stats"].
Proof.
  split; [reflexivity|].
  intros H. inversion H as [|? ? _ Hhd]; subst.
  inversion Hhd as [|? ? Hle]; subst. vm_compute in Hle. exact Hle.
Qed.

(** ** The schema tree across connections *)

Ltac unfold_explorer :=
  unfold Explorer.connection_effect, Explorer.loadSchemas, Explorer.setSchemas,
    Explorer.setLoading, Explorer.setError, Explorer.console_error,
    Explorer.call in *.

(** C2 (as the code has it): the tree carries no epoch; it follows the
    connection through the effect on [[isConnected, selectedConnection]].
    The effect never throws.  Run while not connected, or with no connection
    selected, it empties the tree and clears the error without calling the
    service.  Run while connected, it asks the service for the schemas: when
    the service answers, the tree becomes exactly the answered schemas, each
    collapsed and without relations, so nothing of the earlier tree remains;
    when the service fails, the tree is left as it was and the error is set. *)
Theorem C2_tree_follows_connection
    (env : Pg.Env) (isConnected : bool)
    (selectedConnection : option PostgreSQLConnectionConfig)
    (w : Explorer.World) :
  let w' := snd (Explorer.connection_effect env isConnected selectedConnection w) in
  fst (Explorer.connection_effect env isConnected selectedConnection w) = Ok tt
  /\ (isConnected = false \/ selectedConnection = None ->
      Explorer.schemas (Explorer.ui w') = []
      /\ Explorer.error (Explorer.ui w') = None
      /\ Explorer.service w' = Explorer.service w)
  /\ (isConnected = true -> is_Some selectedConnection ->
      match Renderer.getSchemas env (Explorer.service w) with
      | (Ok schemaNames, r) =>
          Explorer.schemas (Explorer.ui w') = List.map Explorer.schemaItem schemaNames
          /\ Explorer.error (Explorer.ui w') = None
          /\ Explorer.loading (Explorer.ui w') = false
          /\ Explorer.service w' = r
      | (Throw e, r) =>
          Explorer.schemas (Explorer.ui w') = Explorer.schemas (Explorer.ui w)
          /\ Explorer.error (Explorer.ui w')
             = Some ("Failed to load schemas: " +:+ Js.message e)
          /\ Explorer.loading (Explorer.ui w') = false
          /\ Explorer.service w' = r
      end).
Proof.
  destruct w as [[sch ld er] r out].
  unfold_explorer; unfold_monad; simpl.
  destruct isConnected; simpl.
  - destruct selectedConnection as [p|]; simpl.
    + destruct (Renderer.getSchemas env r) as [[names|e] r1]; simpl;
        (split; [reflexivity|]; split; [intros [?|?]; discriminate|];
         intros _ _; repeat split).
    + split; [reflexivity|]. split; [intros _; repeat split|].
      intros _ [? ?]; discriminate.
  - split; [reflexivity|]. split; [intros _; repeat split|]. discriminate.
Qed.

(** The statement at work: the first connection's schemas are shown, and a
    disconnected explorer is emptied. *)
Lemma C2_witness :
  let w := snd (Explorer.call (Renderer.connect Scenario.revoked Scenario.profileA)
                              Explorer.initial) in
  (is_Some (Some Scenario.profileA)
   /\ List.map Explorer.name
        (Explorer.schemas
           (Explorer.ui (snd (Explorer.connection_effect Scenario.revoked true
                                (Some Scenario.profileA) w))))
      = [JStr "a_only"])
  /\ Explorer.schemas
       (Explorer.ui (snd (Explorer.connection_effect Scenario.revoked false
                            (Some Scenario.profileA) Scenario.explorer_on_A)))
     = [].
Proof.
  intros w. split.
  - assert (Hs : is_Some (Some Scenario.profileA)) by eauto.
    split; [exact Hs|].
    pose proof (proj2 (proj2
      (C2_tree_follows_connection Scenario.revoked true (Some Scenario.profileA) w))
      eq_refl Hs) as H.
    change (Renderer.getSchemas Scenario.revoked (Explorer.service w))
      with (Ok [JStr "a_only"] : Result (list JsVal),
            snd (Renderer.getSchemas Scenario.revoked (Explorer.service w))) in H.
    destruct H as [-> _]. reflexivity.
  - exact (proj1 (proj1 (proj2
      (C2_tree_follows_connection Scenario.revoked false (Some Scenario.profileA)
         Scenario.explorer_on_A)) (or_introl eq_refl))).
Defined.

(** C2 (as stated) fails when the schemas of the new connection cannot be
    read: the session is connected to [profileB] on a new handle, the only
    schema query that was answered is the one made on the handle of
    [profileA], and the tree still shows that answer. *)
Lemma C2_counterexample :
  let w := Scenario.explorer_on_B in
  Renderer.isConnected (Explorer.service w) = true
  /\ Renderer.getConnectionConfig (Explorer.service w) = Some Scenario.profileB
  /\ Pg.live (Main.pg (Renderer.main (Explorer.service w))) = [1]
  /\ Pg.events (Main.pg (Renderer.main (Explorer.service w)))
     = [ Pg.Queried 1 Main.getSchemas_query [];
         Pg.Opened 1;
         Pg.Ended 0 true;
         Pg.Queried 0 Main.getSchemas_query [];
         Pg.Opened 0 ]
  /\ Explorer.schemas (Explorer.ui w)
     = Explorer.schemas (Explorer.ui Scenario.explorer_on_A)
  /\ List.map Explorer.name (Explorer.schemas (Explorer.ui w)) = [JStr "a_only"]
  /\ Explorer.error (Explorer.ui w)
     = Some "Failed to load schemas: Error invoking remote method 'database:get-schemas': Error: permission denied for table schemata".
Proof.
  vm_compute. repeat split.
Qed.

(** * Further properties of the modelled code *)

(** ** The main-process service *)

Lemma no_client_refuses env w :
  Main.client (Main.svc w) = None -> main_refuses_queries env w.
Proof.
  destruct w as [[c cf cc] d out]. simpl. intros ->.
  repeat split.
Qed.

Lemma connect_result_spec env cfg (w : Main.World) :
  let w' := snd (Main.connect env cfg w) in
  exists res,
    fst (Main.connect env cfg w) = Ok res
    /\ if success res
       then message res = "Successfully connected to database"
            /\ error res = None
            /\ (exists c, Main.client (Main.svc w') = Some c
                          /\ Pg.clientConfig c = Main.clientConfig_of cfg
                          /\ Pg.is_live (Pg.handle c) (Main.pg w') = true)
            /\ Main.config (Main.svc w') = Some (Main.clientConfig_of cfg)
            /\ Main.connectionConfig (Main.svc w') = Some cfg
            /\ Pg.handle_opens (Main.pg w') = Datatypes.S (Pg.handle_opens (Main.pg w))
       else (exists e, error res = Some e
                       /\ message res = "Failed to connect: " +:+ Js.message e)
            /\ Main.client (Main.svc w') = None
            /\ Main.config (Main.svc w') = None
            /\ Pg.handle_opens (Main.pg w') = Pg.handle_opens (Main.pg w)
            /\ main_refuses_queries env w'.
Proof.
  destruct w as [[c cf cc] d out].
  unfold Pg.handle_opens, Pg.is_live.
  unfold_main; unfold_monad; simpl.
  destruct c as [c|]; simpl;
    repeat (match goal with
            | |- context [Pg.on_end ?e ?t] => destruct (Pg.on_end e t)
            | |- context [Pg.on_connect ?e ?t ?c] => destruct (Pg.on_connect e t c)
            end; simpl);
    eexists; (split; [reflexivity|]); simpl;
    repeat split; eauto;
    try (eexists; repeat split; simpl; by rewrite Nat.eqb_refl).
Qed.

(** X1: [connect] never throws and its result tells what the service holds
    afterwards.  On success the service holds an open client built from the
    given configuration, both configurations are recorded and one more handle
    has been opened.  On failure the result carries the driver's error, with
    the message ["Failed to connect: " + its message], no client and no
    client configuration are held, no handle has been opened, and every query
    is refused. *)
Theorem X1_connect_reports_what_it_holds env cfg (w : Main.World) :
  let w' := snd (Main.connect env cfg w) in
  exists res,
    fst (Main.connect env cfg w) = Ok res
    /\ if success res
       then message res = "Successfully connected to database"
            /\ error res = None
            /\ (exists c, Main.client (Main.svc w') = Some c
                          /\ Pg.clientConfig c = Main.clientConfig_of cfg
                          /\ Pg.is_live (Pg.handle c) (Main.pg w') = true)
            /\ Main.config (Main.svc w') = Some (Main.clientConfig_of cfg)
            /\ Main.connectionConfig (Main.svc w') = Some cfg
            /\ Pg.handle_opens (Main.pg w') = Datatypes.S (Pg.handle_opens (Main.pg w))
       else (exists e, error res = Some e
                       /\ message res = "Failed to connect: " +:+ Js.message e)
            /\ Main.client (Main.svc w') = None
            /\ Main.config (Main.svc w') = None
            /\ Pg.handle_opens (Main.pg w') = Pg.handle_opens (Main.pg w)
            /\ main_refuses_queries env w'.
Proof. apply connect_result_spec. Qed.

Lemma main_queries_keep_service env (w : Main.World) :
  (forall sql, Main.svc (snd (Main.executeQuery env sql w)) = Main.svc w)
  /\ Main.svc (snd (Main.getSchemas env w)) = Main.svc w
  /\ (forall s, Main.svc (snd (Main.getTables env s w)) = Main.svc w)
  /\ (forall s t, Main.svc (snd (Main.getTableColumns env s t w)) = Main.svc w).
Proof.
  destruct w as [[c cf cc] d out].
  split; [|split; [|split]]; intros;
    unfold_main; unfold_monad; simpl;
    (destruct c as [c|]; simpl; [|reflexivity]);
    repeat (match goal with
            | |- context [Pg.on_query ?e ?t ?s ?p] => destruct (Pg.on_query e t s p)
            end; simpl); reflexivity.
Qed.

(** X2: without a client the main-process service refuses every query
    ([executeQuery], [getSchemas], [getTables], [getTableColumns]) with
    ['No active database connection'] and touches nothing, the driver
    included: so it is at start, after every [disconnect], and after any
    sequence of requests that leaves no client held. *)
Theorem X2_no_client_no_query env :
  main_refuses_queries env Main.initial
  /\ (forall w, main_refuses_queries env (snd (Main.disconnect env w)))
  /\ (forall w rs,
        Main.client (Main.svc (Main.serve_all env rs w)) = None ->
        main_refuses_queries env (Main.serve_all env rs w)).
Proof.
  split; [by apply no_client_refuses|]. split.
  - intros w. apply no_client_refuses. apply main_disconnect_spec.
  - intros w rs. apply no_client_refuses.
Qed.

(** X3: with a client held, [executeQuery(sql)] sends exactly that statement,
    without parameters, on the held handle and leaves the service's fields
    alone.  When the driver answers, the result has the driver's rows and
    command, one field per field of the driver in the same order with the
    same name and type identifier, a row count of 0 where the driver gave
    [null], and as duration the difference of the two clock readings around
    the query; when the driver rejects, the same error is thrown. *)
Theorem X3_executeQuery_normalizes env sql (w : Main.World) c :
  Main.client (Main.svc w) = Some c ->
  let t := Pg.tick (Main.pg w) in
  let w' := snd (Main.executeQuery env sql w) in
  Main.svc w' = Main.svc w
  /\ Pg.events (Main.pg w') = Pg.Queried (Pg.handle c) sql [] :: Pg.events (Main.pg w)
  /\ match Pg.on_query env (Datatypes.S t) sql [] with
     | Ok r =>
         exists res,
           fst (Main.executeQuery env sql w) = Ok res
           /\ rows res = Pg.rows r
           /\ List.map field_name (fields res) = List.map Pg.name (Pg.fields r)
           /\ List.map dataTypeID (fields res) = List.map Pg.dataTypeID (Pg.fields r)
           /\ rowCount res = default 0%Z (Pg.rowCount r)
           /\ command res = Pg.command r
           /\ duration res
              = (Pg.date_now env (Datatypes.S (Datatypes.S t)) - Pg.date_now env t)%Z
     | Throw e => fst (Main.executeQuery env sql w) = Throw e
     end.
Proof.
  destruct w as [[c0 cf cc] d out]. simpl. intros ->.
  unfold_main; unfold_monad; simpl.
  destruct (Pg.on_query env _ _ _) as [r|e]; simpl.
  - split; [reflexivity|]. split; [reflexivity|].
    eexists. split; [reflexivity|]. simpl. rewrite !map_map. simpl.
    repeat split.
  - repeat split.
Qed.

(** The statement at work: [SELECT 1] on the connected service. *)
Lemma X3_witness :
  let env := Scenario.healthy in
  let w := Scenario.main_on_A in
  (exists c, Main.client (Main.svc w) = Some c)
  /\ exists res,
       fst (Main.executeQuery env "SELECT 1" w) = Ok res
       /\ rows res = [[("?column?", JNum 1)]]
       /\ List.map field_name (fields res) = ["?column?"]
       /\ rowCount res = 1%Z
       /\ command res = "SELECT"
       /\ duration res = 2%Z.
Proof.
  intros env w.
  assert (Hc : Main.client (Main.svc w)
               = Some {| Pg.handle := 0;
                         Pg.clientConfig := Main.clientConfig_of Scenario.profileA |})
    by reflexivity.
  split; [eauto|].
  destruct (X3_executeQuery_normalizes env "SELECT 1" w _ Hc) as (_ & _ & H).
  change (Pg.on_query env (Datatypes.S (Pg.tick (Main.pg w))) "SELECT 1" [])
    with (Ok Scenario.select1 : Result Pg.QueryResult) in H.
  destruct H as (res & H1 & H2 & H3 & _ & H5 & H6 & H7).
  exists res. repeat split; assumption.
Defined.

(** X4: [testConnection] never throws; it reports success exactly when its
    connection attempt and its [SELECT 1] both succeeded.  When the attempt
    fails no query is sent; in both failure cases the result carries the
    error that caused it, with the message
    ["Connection test failed: " + its message]; and what [end()] answers has
    no influence on the result. *)
Theorem X4_testConnection_outcome env cfg (w : Main.World) :
  let t := Pg.tick (Main.pg w) in
  let h := Pg.next_handle (Main.pg w) in
  let w' := snd (Main.testConnection env cfg w) in
  exists res,
    fst (Main.testConnection env cfg w) = Ok res
    /\ (success res = true <->
        Pg.on_connect env t (Main.clientConfig_of cfg) = None
        /\ exists r, Pg.on_query env (Datatypes.S t) "SELECT 1" [] = Ok r)
    /\ (forall e, Pg.on_connect env t (Main.clientConfig_of cfg) = Some e ->
          success res = false
          /\ error res = Some e
          /\ message res = "Connection test failed: " +:+ Js.message e
          /\ exists o, Pg.events (Main.pg w')
                       = Pg.Ended h o :: Pg.OpenFailed h :: Pg.events (Main.pg w))
    /\ (forall e, Pg.on_connect env t (Main.clientConfig_of cfg) = None ->
          Pg.on_query env (Datatypes.S t) "SELECT 1" [] = Throw e ->
          success res = false
          /\ error res = Some e
          /\ message res = "Connection test failed: " +:+ Js.message e
          /\ Pg.events (Main.pg w')
             = Pg.Ended h true :: Pg.Queried h "SELECT 1" [] :: Pg.Opened h
                 :: Pg.events (Main.pg w))
    /\ (forall f, fst (Main.testConnection (with_on_end f env) cfg w) = Ok res).
Proof.
  destruct w as [[c cf cc] d out].
  unfold with_on_end.
  unfold_main; unfold_monad; unfold Pg.is_live; simpl.
  destruct (Pg.on_connect env _ _) as [e|] eqn:Ec; simpl;
    [| destruct (Pg.on_query env _ _ _) as [r|e] eqn:Eq; simpl ];
    rewrite ?Nat.eqb_refl; simpl;
    (eexists; split; [destruct (Pg.on_end env _); reflexivity|]; simpl).
  - split; [split; [discriminate|intros [? _]; discriminate]|].
    split.
    { intros e' [= <-]. repeat split. destruct (Pg.on_end env _); simpl; eauto. }
    split; [discriminate|].
    intros f. destruct (f _); reflexivity.
  - split; [split; eauto|]. split; [discriminate|].
    split; [discriminate|].
    intros f. destruct (f _); reflexivity.
  - split; [split; [discriminate|intros [_ [? ?]]; discriminate]|].
    split; [discriminate|].
    split.
    { intros e' _ [= <-].
      repeat split. destruct (Pg.on_end env _); reflexivity. }
    intros f. destruct (f _); reflexivity.
Qed.

(** X5: [getTables] returns rows only when both of its queries succeeded.
    When the query for tables and views is rejected its error is thrown and
    the query for materialized views is not sent; when the second is
    rejected its error is thrown and the rows of the first are dropped.  The
    service's fields are left alone in every case. *)
Theorem X5_getTables_all_or_nothing env schema (w : Main.World) c :
  Main.client (Main.svc w) = Some c ->
  let t := Pg.tick (Main.pg w) in
  let w' := snd (Main.getTables env schema w) in
  let q1 := Pg.Queried (Pg.handle c) Main.getTables_query [JStr schema] in
  let q2 := Pg.Queried (Pg.handle c) Main.matViewQuery [JStr schema] in
  Main.svc w' = Main.svc w
  /\ match Pg.on_query env t Main.getTables_query [JStr schema] with
     | Throw e =>
         fst (Main.getTables env schema w) = Throw e
         /\ Pg.events (Main.pg w') = q1 :: Pg.events (Main.pg w)
     | Ok r1 =>
         Pg.events (Main.pg w') = q2 :: q1 :: Pg.events (Main.pg w)
         /\ match Pg.on_query env (Datatypes.S t) Main.matViewQuery [JStr schema] with
            | Throw e => fst (Main.getTables env schema w) = Throw e
            | Ok r2 => fst (Main.getTables env schema w)
                       = Ok (Pg.rows r1 ++ Pg.rows r2)%list
            end
     end.
Proof.
  destruct w as [[c0 cf cc] d out]. simpl. intros ->.
  unfold_main; unfold_monad; simpl.
  destruct (Pg.on_query env _ _ _) as [r1|e]; simpl; [|repeat split].
  destruct (Pg.on_query env _ _ _) as [r2|e]; simpl; repeat split.
Qed.

Lemma renderer_connect_spec env cfg (w : Renderer.World) :
  let w' := snd (Renderer.connect env cfg w) in
  exists res,
    fst (Renderer.connect env cfg w) = Ok res
    /\ fst (Main.connect env cfg (Renderer.main w)) = Ok res
    /\ Renderer.main w' = snd (Main.connect env cfg (Renderer.main w))
    /\ Renderer.isConnected w' = success res
    /\ Renderer.getConnectionConfig w' = (if success res then Some cfg else None).
Proof.
  destruct w as [s m]. simpl.
  destruct (connect_result_spec env cfg m) as (res & Hres & _).
  exists res. unfold_renderer; unfold_monad; simpl.
  destruct (Main.connect env cfg m) as [r m']. simpl in *. subst r.
  destruct (success res); simpl; repeat split.
Qed.

Lemma connect_agrees env cfg (w : Renderer.World) :
  services_agree (snd (Renderer.connect env cfg w)).
Proof.
  destruct (renderer_connect_spec env cfg w) as (res & _ & Hm & Hw & Hc & Hcc).
  destruct (connect_result_spec env cfg (Renderer.main w)) as (res' & Hm' & Hspec).
  rewrite Hm in Hm'. injection Hm' as <-.
  unfold services_agree. rewrite Hc, Hcc, Hw.
  destruct (success res).
  - destruct Hspec as (_ & _ & (c & Hcl & Hcfg & _) & _). eauto.
  - destruct Hspec as (_ & Hcl & _). auto.
Qed.

Lemma disconnect_agrees env (w : Renderer.World) :
  services_agree (snd (Renderer.disconnect env w)).
Proof.
  destruct w as [s m].
  pose proof (main_disconnect_spec env m) as (Hok & Hnone & _).
  unfold services_agree. unfold_renderer; unfold_monad; simpl.
  destruct (Main.disconnect env m) as [r m1]. simpl in *. subst r. simpl. auto.
Qed.

Lemma invoke_keeps {A} env ch (h : M Main.World A) (w : Renderer.World) :
  Main.client (Main.svc (snd (h (Renderer.main w))))
  = Main.client (Main.svc (Renderer.main w)) ->
  services_agree w ->
  services_agree (snd (Renderer.invoke env ch h w)).
Proof.
  destruct w as [s m]. unfold services_agree, Renderer.invoke,
    Renderer.isConnected, Renderer.getConnectionConfig. simpl.
  intros Hk Hagree. destruct (h m) as [[a|e] m1]; simpl in *; rewrite Hk; exact Hagree.
Qed.

Lemma perform_agrees env c (w : Renderer.World) :
  services_agree w -> services_agree (Renderer.perform env c w).
Proof.
  intros Hagree. destruct c; simpl.
  - apply connect_agrees.
  - (* testConnection *)
    unfold Renderer.testConnection, try_catch.
    pose proof (invoke_keeps env Renderer.channels.TEST_CONNECTION
                  (Main.testConnection env cfg) w) as Hk.
    destruct (Renderer.invoke env _ _ w) as [[r|e] w1] eqn:E; simpl in *.
    + apply Hk; [|exact Hagree]. apply testConnection_effect.
    + unfold mret, M_ret. simpl. apply Hk; [|exact Hagree]. apply testConnection_effect.
  - apply disconnect_agrees.
  - unfold Renderer.executeQuery, mbind, M_bind, get, Renderer.no_connection, throw. simpl.
    destruct (Renderer.connected (Renderer.svc w)); simpl; [|exact Hagree].
    apply invoke_keeps; [|exact Hagree].
    f_equal. apply (main_queries_keep_service env (Renderer.main w)).
  - unfold Renderer.getSchemas, mbind, M_bind, get, Renderer.no_connection, throw. simpl.
    destruct (Renderer.connected (Renderer.svc w)); simpl; [|exact Hagree].
    apply invoke_keeps; [|exact Hagree].
    f_equal. apply (main_queries_keep_service env (Renderer.main w)).
  - unfold Renderer.getTables, mbind, M_bind, get, Renderer.no_connection, throw. simpl.
    destruct (Renderer.connected (Renderer.svc w)); simpl; [|exact Hagree].
    apply invoke_keeps; [|exact Hagree].
    f_equal. apply (main_queries_keep_service env (Renderer.main w)).
  - unfold Renderer.getTableColumns, mbind, M_bind, get, Renderer.no_connection, throw. simpl.
    destruct (Renderer.connected (Renderer.svc w)); simpl; [|exact Hagree].
    apply invoke_keeps; [|exact Hagree].
    f_equal. apply (main_queries_keep_service env (Renderer.main w)).
Qed.

Lemma initial_agrees : services_agree Renderer.initial.
Proof. split; reflexivity. Qed.

Lemma perform_all_agrees env cs : forall w,
  services_agree w -> services_agree (Renderer.perform_all env cs w).
Proof.
  induction cs as [|c cs IH]; intros w H; simpl; [exact H|].
  apply IH. by apply perform_agrees.
Qed.

Lemma not_connected_refuses env (w : Renderer.World) :
  Renderer.isConnected w = false -> renderer_refuses_queries env w.
Proof.
  destruct w as [[cc k] m]. unfold Renderer.isConnected. simpl. intros ->.
  repeat split.
Qed.

(** The statement at work: the relations of [public], and a server that
    rejects every query. *)
Lemma X5_witness :
  let c := {| Pg.handle := 0;
              Pg.clientConfig := Main.clientConfig_of Scenario.profileA |} in
  (Main.client (Main.svc Scenario.main_on_reporting) = Some c
   /\ length (match fst (Main.getTables (Catalog.server String.le Scenario.reporting_db)
                           "public" Scenario.main_on_reporting) with
              | Ok rs => rs
              | Throw _ => []
              end) = 2)
  /\ (Main.client (Main.svc Scenario.main_on_A) = Some c
      /\ fst (Main.getTables Scenario.dropping "public" Scenario.main_on_A)
         = Throw Scenario.terminated
      /\ Pg.events (Main.pg (snd (Main.getTables Scenario.dropping "public"
                                    Scenario.main_on_A)))
         = [Pg.Queried 0 Main.getTables_query [JStr "public"]; Pg.Opened 0]).
Proof.
  intros c. split.
  - assert (Hc : Main.client (Main.svc Scenario.main_on_reporting) = Some c)
      by reflexivity.
    split; [exact Hc|].
    destruct (X5_getTables_all_or_nothing (Catalog.server String.le Scenario.reporting_db)
                "public" Scenario.main_on_reporting c Hc) as (_ & H).
    vm_compute in H. destruct H as (_ & H). vm_compute. congruence.
  - assert (Hc : Main.client (Main.svc Scenario.main_on_A) = Some c) by reflexivity.
    split; [exact Hc|].
    destruct (X5_getTables_all_or_nothing Scenario.dropping "public"
                Scenario.main_on_A c Hc) as (_ & H).
    change (Pg.on_query Scenario.dropping (Pg.tick (Main.pg Scenario.main_on_A))
              Main.getTables_query [JStr "public"])
      with (Throw Scenario.terminated : Result Pg.QueryResult) in H.
    destruct H as (H1 & H2). split; [exact H1 | exact H2].
Defined.

(** X6: [connect] of the renderer service never throws.  Afterwards
    [isConnected()] is the [success] of the result, [getConnectionConfig()]
    is the given configuration on success and [null] otherwise, the two
    services agree whatever the state was before, and after a failure every
    query is refused without calling the main process. *)
Theorem X6_renderer_connect_outcome env cfg (w : Renderer.World) :
  let w' := snd (Renderer.connect env cfg w) in
  exists res,
    fst (Renderer.connect env cfg w) = Ok res
    /\ Renderer.isConnected w' = success res
    /\ Renderer.getConnectionConfig w' = (if success res then Some cfg else None)
    /\ services_agree w'
    /\ (success res = false -> renderer_refuses_queries env w').
Proof.
  destruct (renderer_connect_spec env cfg w) as (res & Hr & _ & _ & Hc & Hcc).
  exists res. split; [exact Hr|]. split; [exact Hc|]. split; [exact Hcc|].
  split; [apply connect_agrees|].
  intros Hf. apply not_connected_refuses. by rewrite Hc.
Qed.

(** X7: after any sequence of calls on the renderer service, starting from a
    fresh application, the two services agree: [isConnected()] is true
    exactly when the main process holds a client, and that client was built
    from the configuration [getConnectionConfig()] returns.  Hence a query
    made while connected always reaches the driver, on the held handle. *)
Theorem X7_services_agree env (cs : list Renderer.Call) :
  let w := Renderer.perform_all env cs Renderer.initial in
  services_agree w
  /\ (Renderer.isConnected w = true ->
      forall sql,
      exists c,
        Main.client (Main.svc (Renderer.main w)) = Some c
        /\ Pg.events (Main.pg (Renderer.main (snd (Renderer.executeQuery env sql w))))
           = Pg.Queried (Pg.handle c) sql [] :: Pg.events (Main.pg (Renderer.main w))).
Proof.
  intros w.
  assert (Hagree : services_agree w) by apply perform_all_agrees, initial_agrees.
  split; [exact Hagree|].
  intros Hc sql. unfold services_agree in Hagree. rewrite Hc in Hagree.
  destruct Hagree as (cfg & c & _ & Hcl & _). exists c. split; [exact Hcl|].
  destruct w as [[cc k] [[c0 cf mcc] d out]].
  unfold Renderer.isConnected in Hc. simpl in *. subst k c0.
  unfold_renderer; unfold_main; unfold_monad; simpl.
  destruct (Pg.on_query env _ _ _); reflexivity.
Qed.

Lemma disconnect_clears env (w : Renderer.World) :
  Renderer.isConnected (snd (Renderer.disconnect env w)) = false.
Proof.
  destruct w as [s m].
  pose proof (main_disconnect_spec env m) as (Hok & _).
  unfold_renderer; unfold_monad; simpl.
  destruct (Main.disconnect env m) as [r m1]. simpl in *. subst r. reflexivity.
Qed.

(** X9: at start and after every [disconnect()], the four query methods of
    the renderer service throw ['No active database connection'] and change
    nothing: no request is sent to the main process. *)
Theorem X9_disconnected_refuses_queries env :
  renderer_refuses_queries env Renderer.initial
  /\ (forall w, renderer_refuses_queries env (snd (Renderer.disconnect env w))).
Proof.
  split; [by apply not_connected_refuses|].
  intros w. apply not_connected_refuses, disconnect_clears.
Qed.

(** X10: a run never changes the editor's query or the selected connection.
    After a run of a non-blank query the executing flag is off; when it
    succeeded the result is stored and the error cleared; when it failed the
    error is set and the result of the previous run is still stored. *)
Theorem X10_run_bookkeeping env q (w : Store.World) :
  let w' := snd (Store.executeQuery env q w) in
  Store.currentQuery (Store.state w') = Store.currentQuery (Store.state w)
  /\ Store.selectedConnection (Store.state w') = Store.selectedConnection (Store.state w)
  /\ (trim (effective q w) <> "" ->
      Store.isExecutingQuery (Store.state w') = false
      /\ match fst (Store.executeQuery env q w) with
         | Ok (Some res) =>
             Store.queryResult (Store.state w') = Some res
             /\ Store.queryError (Store.state w') = None
         | _ =>
             Store.queryResult (Store.state w') = Store.queryResult (Store.state w)
             /\ exists msg, Store.queryError (Store.state w') = Some msg
         end).
Proof.
  destruct (String.eqb_spec (trim (effective q w)) "") as [Hb|Hn].
  - rewrite executeQuery_blank by exact Hb. simpl.
    split; [reflexivity|]. split; [reflexivity|]. intros Hn. contradiction.
  - pose proof (executeQuery_cases env q w Hn) as Hrun.
    destruct (Renderer.executeQuery env (effective q w) (Store.service w))
      as [[res|e] r1]; simpl in *; rewrite Hrun; simpl;
      (split; [reflexivity|]; split; [reflexivity|]; intros _; repeat split; eauto).
Qed.

(** X11: [disconnectFromDatabase] always completes.  It leaves the store and
    the service not connected, clears the connection error, the query result
    and the query error, and keeps the query history, the editor's query and
    the selected connection.  A non-blank query run afterwards fails with
    ['No active database connection'] and is not added to the history. *)
Theorem X11_disconnectFromDatabase env (w : Store.World) :
  let w' := snd (Store.disconnectFromDatabase env w) in
  fst (Store.disconnectFromDatabase env w) = Ok tt
  /\ Store.isConnected (Store.state w') = false
  /\ Renderer.isConnected (Store.service w') = false
  /\ Store.connectionError (Store.state w') = None
  /\ Store.queryResult (Store.state w') = None
  /\ Store.queryError (Store.state w') = None
  /\ Store.queryHistory (Store.state w') = Store.queryHistory (Store.state w)
  /\ Store.currentQuery (Store.state w') = Store.currentQuery (Store.state w)
  /\ Store.selectedConnection (Store.state w') = Store.selectedConnection (Store.state w)
  /\ (forall q, trim (effective q w') <> "" ->
        fst (Store.executeQuery env q w') = Ok None
        /\ Store.queryError (Store.state (snd (Store.executeQuery env q w')))
           = Some "No active database connection"
        /\ Store.queryHistory (Store.state (snd (Store.executeQuery env q w')))
           = Store.queryHistory (Store.state w)).
Proof.
  destruct w as [s r k].
  assert (Hrun : Store.disconnectFromDatabase env
                   {| Store.state := s; Store.service := r; Store.clock := k |}
                 = (Ok tt,
                    {| Store.state :=
                         {| Store.connections := Store.connections s;
                            Store.selectedConnection := Store.selectedConnection s;
                            Store.isConnected := false;
                            Store.isConnecting := Store.isConnecting s;
                            Store.connectionError := None;
                            Store.currentQuery := Store.currentQuery s;
                            Store.queryHistory := Store.queryHistory s;
                            Store.queryResult := None;
                            Store.isExecutingQuery := Store.isExecutingQuery s;
                            Store.queryError := None |};
                       Store.service := snd (Renderer.disconnect env r);
                       Store.clock := k |})).
  { unfold Store.disconnectFromDatabase. unfold_store; unfold_monad; simpl.
    pose proof (C7_helper := main_disconnect_spec env (Renderer.main r)).
    destruct r as [rs m]. simpl in *. destruct C7_helper as (Hok & _).
    unfold_renderer; unfold_monad; simpl.
    destruct (Main.disconnect env m) as [x m1]. simpl in *. subst x. reflexivity. }
  rewrite Hrun. simpl.
  pose proof (disconnect_clears env r) as Hc.
  repeat (split; [reflexivity || exact Hc|]).
  intros q Hq.
  set (w' := {| Store.state := _; Store.service := snd (Renderer.disconnect env r) |}) in *.
  pose proof (executeQuery_cases env q w' Hq) as Hcases.
  destruct (renderer_executeQuery_frame env (effective q w') (Store.service w'))
    as (_ & _ & _ & Hthrow).
  rewrite (Hthrow Hc) in Hcases. simpl in Hcases. rewrite Hcases. simpl.
  repeat split.
Qed.

(** ** The result grid: pages and search *)

Section Grid.
Import QueryResultsView.

Lemma slice_page {A} (l : list A) (k r : nat) :
  slice l (Z.of_nat k * Z.of_nat r) (Z.of_nat k * Z.of_nat r + Z.of_nat r)
  = firstn r (skipn (k * r) l).
Proof.
  unfold slice.
  destruct (Z.ltb_spec (Z.of_nat k * Z.of_nat r) 0) as [H|_]; [lia|].
  destruct (Z.ltb_spec (Z.of_nat k * Z.of_nat r + Z.of_nat r) 0) as [H|_]; [lia|].
  destruct (Nat.le_gt_cases (length l) (k * r)) as [Hge|Hlt].
  - rewrite !skipn_all2 by lia. by rewrite !firstn_nil.
  - replace (Z.to_nat (Z.min (Z.of_nat k * Z.of_nat r) (Z.of_nat (length l))))
      with (k * r) by lia.
    destruct (Nat.le_gt_cases (length l) (k * r + r)) as [Hge'|Hlt'].
    + rewrite !firstn_all2; [reflexivity| |]; rewrite length_skipn; lia.
    + f_equal. lia.
Qed.

Lemma pages_concat {A} (l : list A) (r n : nat) :
  concat (List.map (fun k => firstn r (skipn (k * r) l)) (seq 0 n)) = firstn (n * r) l.
Proof.
  induction n as [|n IH]; [reflexivity|].
  rewrite seq_S, map_app, concat_app, IH. simpl. rewrite app_nil_r.
  rewrite take_take_drop. f_equal. lia.
Qed.

Lemma ceil_div_covers (n d : Z) :
  (0 <= n)%Z -> (0 < d)%Z -> (n <= Z.max 1 (ceil_div n d) * d)%Z.
Proof.
  intros Hn Hd. unfold ceil_div.
  pose proof (Z.mod_pos_bound (n + d - 1) d Hd) as Hm.
  pose proof (Z.div_mod (n + d - 1) d ltac:(lia)) as Hq.
  set (q := ((n + d - 1) / d)%Z) in *. set (m := ((n + d - 1) mod d)%Z) in *.
  assert (q <= Z.max 1 q)%Z by lia.
  assert (q * d <= Z.max 1 q * d)%Z by (apply Z.mul_le_mono_nonneg_r; lia).
  lia.
Qed.

Lemma ceil_div_small (n d : Z) :
  (0 <= n <= d)%Z -> (0 < d)%Z -> Z.max 1 (ceil_div n d) = 1%Z.
Proof.
  intros Hn Hd. unfold ceil_div.
  assert ((n + d - 1) / d < 2)%Z by (apply Z.div_lt_upper_bound; lia).
  lia.
Qed.

Lemma slice_sublist {A} (l : list A) a b : slice l a b `sublist_of` l.
Proof.
  unfold slice. etrans; [apply sublist_take|apply sublist_drop].
Qed.

Lemma slice_length {A} (l : list A) (a d : Z) :
  (0 <= a)%Z -> (0 < d)%Z -> (Z.of_nat (length (slice l a (a + d))) <= d)%Z.
Proof.
  intros Ha Hd. unfold slice.
  destruct (Z.ltb_spec a 0); [lia|]. destruct (Z.ltb_spec (a + d) 0); [lia|].
  rewrite length_firstn. lia.
Qed.

Lemma List_filter_sublist {A} (f : A -> bool) (l : list A) :
  List.filter f l `sublist_of` l.
Proof.
  induction l as [|x l IH]; simpl; [constructor|].
  destruct (f x); by constructor.
Qed.

Section Pagination.
Variable toLowerCase : string -> string.

(** X12: without a search term and with a positive page size, the pages
    [1 .. totalPages] shown one after the other are exactly the rows of the
    result, in order, each once; page [k + 1] holds [rowsPerPage] rows, or
    what is left after [k] full pages. *)
Theorem X12_pages_cover_rows (r : QueryResult) (st : State) :
  searchTerm st = "" ->
  (0 < rowsPerPage st)%Z ->
  let n := Z.to_nat (totalPages toLowerCase (Some r) st) in
  concat (List.map
            (fun k => displayedRows toLowerCase (Some r) (on_page (Z.of_nat k + 1) st))
            (seq 0 n))
  = rows r
  /\ forall k, k < n ->
       length (displayedRows toLowerCase (Some r) (on_page (Z.of_nat k + 1) st))
       = Nat.min (Z.to_nat (rowsPerPage st)) (length (rows r) - k * Z.to_nat (rowsPerPage st)).
Proof.
  intros Hs Hd n.
  set (R := Z.to_nat (rowsPerPage st)).
  assert (HR : rowsPerPage st = Z.of_nat R) by lia.
  assert (Hpage : forall k,
             displayedRows toLowerCase (Some r) (on_page (Z.of_nat k + 1) st)
             = firstn R (skipn (k * R) (rows r))).
  { intros k. unfold displayedRows, filteredRows, on_page. simpl. rewrite Hs. simpl.
    replace (Z.of_nat k + 1 - 1)%Z with (Z.of_nat k) by lia.
    rewrite HR. apply slice_page. }
  split.
  - rewrite (map_ext _ _ Hpage), pages_concat.
    apply firstn_all2.
    unfold n, totalPages. rewrite Hs. simpl.
    pose proof (ceil_div_covers (Z.of_nat (length (rows r))) (rowsPerPage st)
                  ltac:(lia) Hd).
    nia.
  - intros k _. rewrite Hpage, length_firstn, length_skipn. reflexivity.
Qed.

Lemma truthy_nonempty s : s <> "" -> truthy s = true.
Proof.
  intros Hs. destruct (truthy s) eqn:E; [reflexivity|]. by apply truthy_false in E.
Qed.

Lemma totalPages_search (qr : option QueryResult) (st : State) :
  searchTerm st <> "" ->
  (0 < rowsPerPage st)%Z ->
  (1 <= currentPage st)%Z ->
  totalPages toLowerCase qr st = 1%Z.
Proof.
  intros Hs Hd Hp. unfold totalPages. destruct qr as [r|]; [|reflexivity].
  rewrite (truthy_nonempty _ Hs).
  apply ceil_div_small; [|exact Hd].
  split; [lia|]. unfold displayedRows. apply slice_length; [nia|exact Hd].
Qed.

Lemma totalPages_no_search (qr : option QueryResult) (st : State) p :
  searchTerm st = "" ->
  totalPages toLowerCase qr (on_page p st) = totalPages toLowerCase qr st.
Proof.
  intros Hs. unfold totalPages, on_page. simpl. rewrite Hs. reflexivity.
Qed.

(** X8: with a positive page size, a current page within [1 .. totalPages]
    stays within it whatever page is asked for.  A page asked for within the
    range becomes the current page and the expanded rows are collapsed; one
    outside the range changes nothing; the search term and the page size are
    never touched. *)
Theorem X8_page_stays_in_range (qr : option QueryResult) (p : Z) (st : State) :
  (0 < rowsPerPage st)%Z ->
  (1 <= currentPage st <= totalPages toLowerCase qr st)%Z ->
  let st' := handlePageChange toLowerCase qr p st in
  (1 <= currentPage st' <= totalPages toLowerCase qr st')%Z
  /\ ((1 <= p <= totalPages toLowerCase qr st)%Z ->
      currentPage st' = p /\ expandedRows st' = ∅)
  /\ (~ (1 <= p <= totalPages toLowerCase qr st)%Z -> st' = st)
  /\ searchTerm st' = searchTerm st
  /\ rowsPerPage st' = rowsPerPage st.
Proof.
  intros Hd Hrange st'. unfold st', handlePageChange.
  destruct (Z.ltb_spec p 1) as [Hlow|Hlow]; simpl.
  { repeat split; try lia; auto. }
  destruct (Z.ltb_spec (totalPages toLowerCase qr st) p) as [Hhigh|Hhigh]; simpl.
  { repeat split; try lia; auto. }
  split; [|repeat split; auto; lia].
  split; [exact Hlow|].
  destruct (String.eqb_spec (searchTerm st) "") as [Hs|Hs].
  - change {| searchTerm := searchTerm st; currentPage := p;
              rowsPerPage := rowsPerPage st; expandedRows := ∅ |}
      with (on_page p {| searchTerm := searchTerm st; currentPage := currentPage st;
                         rowsPerPage := rowsPerPage st; expandedRows := ∅ |}).
    rewrite totalPages_no_search by exact Hs.
    replace (totalPages toLowerCase qr
               {| searchTerm := searchTerm st; currentPage := currentPage st;
                  rowsPerPage := rowsPerPage st; expandedRows := ∅ |})
      with (totalPages toLowerCase qr st) by reflexivity.
    exact Hhigh.
  - rewrite (totalPages_search qr st Hs Hd) in Hhigh by lia.
    rewrite totalPages_search; simpl; [lia|assumption|assumption|lia].
Qed.

(** X13: while a search term is set, the number of pages is computed from
    the rows already cut to the current page, so it is always 1: no page
    other than 1 can be selected, and on page 1 the grid shows the first
    [rowsPerPage] matching rows only. *)
Theorem X13_search_shows_one_page (qr : option QueryResult) (st : State) :
  searchTerm st <> "" ->
  (0 < rowsPerPage st)%Z ->
  (1 <= currentPage st)%Z ->
  totalPages toLowerCase qr st = 1%Z
  /\ (forall p, p <> 1%Z -> handlePageChange toLowerCase qr p st = st)
  /\ (forall r, qr = Some r -> currentPage st = 1%Z ->
        displayedRows toLowerCase qr st
        = firstn (Z.to_nat (rowsPerPage st))
            (List.filter (row_matches toLowerCase (toLowerCase (searchTerm st))) (rows r))).
Proof.
  intros Hs Hd Hp.
  pose proof (truthy_nonempty _ Hs) as Ht.
  pose proof (totalPages_search qr st Hs Hd Hp) as Htotal.
  split; [exact Htotal|]. split.
  - intros p Hne. unfold handlePageChange. rewrite Htotal.
    destruct (Z.ltb_spec p 1); [reflexivity|].
    destruct (Z.ltb_spec 1 p); [reflexivity|]. lia.
  - intros r -> H1. unfold displayedRows, filteredRows. rewrite Ht, H1. simpl.
    pose proof (slice_page (List.filter (row_matches toLowerCase (toLowerCase (searchTerm st)))
                              (rows r)) 0 (Z.to_nat (rowsPerPage st))) as Hsl.
    simpl in Hsl. rewrite Z2Nat.id in Hsl by lia. exact Hsl.
Qed.

(** X14: the rows shown are rows of the result in their original order (none
    when there is no result), and while a search term is set every row shown
    has a value, neither [null] nor [undefined], whose text in lower case
    contains the term in lower case. *)
Theorem X14_displayed_rows_are_result_rows (qr : option QueryResult) (st : State) :
  match qr with
  | None => displayedRows toLowerCase qr st = []
  | Some r =>
      displayedRows toLowerCase qr st `sublist_of` rows r
      /\ (searchTerm st <> "" ->
          Forall (fun row => row_matches toLowerCase (toLowerCase (searchTerm st)) row = true)
                 (displayedRows toLowerCase qr st))
  end.
Proof.
  destruct qr as [r|]; [|reflexivity]. unfold displayedRows. split.
  - etrans; [apply slice_sublist|]. unfold filteredRows.
    destruct (truthy _); [apply List_filter_sublist|reflexivity].
  - intros Hs.
    assert (Ht : truthy (searchTerm st) = true).
    { destruct (truthy _) eqn:E; [reflexivity|]. by apply truthy_false in E. }
    unfold filteredRows. rewrite Ht.
    apply Forall_forall. intros row Hin.
    eapply elem_of_sublist in Hin; [|apply slice_sublist].
    rewrite list_elem_of_In in Hin. by apply filter_In in Hin as [_ ?].
Qed.

End Pagination.

(** The statement at work on the sample data. *)
Lemma X8_witness :
  let st := on_page 2 Samples.two_a_page in
  ((0 < rowsPerPage st)%Z
   /\ (1 <= currentPage st <= totalPages Samples.toLowerCase (Some Samples.cities) st)%Z)
  /\ currentPage (handlePageChange Samples.toLowerCase (Some Samples.cities) 3 st) = 3%Z
  /\ handlePageChange Samples.toLowerCase (Some Samples.cities) 4 st = st.
Proof.
  intros st.
  assert (H1 : (0 < rowsPerPage st)%Z) by reflexivity.
  assert (H2 : (1 <= currentPage st
                <= totalPages Samples.toLowerCase (Some Samples.cities) st)%Z)
    by (vm_compute; split; discriminate).
  split; [exact (conj H1 H2)|]. split.
  - refine (proj1 (proj1 (proj2 (X8_page_stays_in_range Samples.toLowerCase
                                   (Some Samples.cities) 3 st H1 H2)) _)).
    vm_compute. split; discriminate.
  - refine (proj1 (proj2 (proj2 (X8_page_stays_in_range Samples.toLowerCase
                                   (Some Samples.cities) 4 st H1 H2))) _).
    vm_compute. intros [_ H]. by apply H.
Defined.

(** The statement at work on the sample data. *)
Lemma X12_witness :
  (searchTerm Samples.two_a_page = "" /\ (0 < rowsPerPage Samples.two_a_page)%Z)
  /\ concat (List.map
               (fun k => displayedRows Samples.toLowerCase (Some Samples.cities)
                           (on_page (Z.of_nat k + 1) Samples.two_a_page))
               [0; 1; 2])
     = rows Samples.cities.
Proof.
  assert (H1 : searchTerm Samples.two_a_page = "") by reflexivity.
  assert (H2 : (0 < rowsPerPage Samples.two_a_page)%Z) by reflexivity.
  split; [exact (conj H1 H2)|].
  exact (proj1 (X12_pages_cover_rows Samples.toLowerCase Samples.cities
                  Samples.two_a_page H1 H2)).
Defined.

(** The statement at work on the sample data. *)
Lemma X13_witness :
  (searchTerm Samples.searching_OS <> ""
   /\ (0 < rowsPerPage Samples.searching_OS)%Z
   /\ (1 <= currentPage Samples.searching_OS)%Z)
  /\ length (List.filter
               (row_matches Samples.toLowerCase
                  (Samples.toLowerCase (searchTerm Samples.searching_OS)))
               (rows Samples.cities)) = 3
  /\ totalPages Samples.toLowerCase (Some Samples.cities) Samples.searching_OS = 1%Z
  /\ handlePageChange Samples.toLowerCase (Some Samples.cities) 2 Samples.searching_OS
     = Samples.searching_OS.
Proof.
  assert (H1 : searchTerm Samples.searching_OS <> "") by discriminate.
  assert (H2 : (0 < rowsPerPage Samples.searching_OS)%Z) by reflexivity.
  assert (H3 : (1 <= currentPage Samples.searching_OS)%Z) by discriminate.
  split; [exact (conj H1 (conj H2 H3))|].
  split; [reflexivity|].
  destruct (X13_search_shows_one_page Samples.toLowerCase (Some Samples.cities)
              Samples.searching_OS H1 H2 H3) as (Htotal & Hstay & _).
  split; [exact Htotal|]. apply Hstay. discriminate.
Defined.

End Grid.

(** ** The saved connections *)

Section SavedConnections.
Import ConnectionManager ConnectionManagerService.

Ltac unfold_manager :=
  unfold saveConnection, getConnectionById, deleteConnection, updateLastUsed,
    getLastUsedConnection, getLastUsedConnectionId, clearLastUsedConnection,
    setItem, removeItem, lift, ConnectionManager.getItem in *.

Lemma obj_get_set_eq k v o : obj_get k (obj_set k v o) = Some v.
Proof.
  induction o as [|[k' v'] o IH]; simpl.
  - by rewrite String.eqb_refl.
  - destruct (String.eqb k k') eqn:E; simpl; rewrite E; [reflexivity|exact IH].
Qed.

Lemma obj_get_set_ne k k' v o : k <> k' -> obj_get k (obj_set k' v o) = obj_get k o.
Proof.
  intros Hne. induction o as [|[k0 v0] o IH]; simpl.
  - destruct (String.eqb_spec k k'); [contradiction|reflexivity].
  - destruct (String.eqb_spec k' k0) as [->|Hk]; simpl.
    + destruct (String.eqb_spec k k0); [contradiction|reflexivity].
    + destruct (String.eqb k k0); [reflexivity|exact IH].
Qed.

Lemma getConnections_run parse (w : World) :
  exists v w0,
    getConnections parse w = (Ok v, w0)
    /\ localStorage w0 = localStorage w.
Proof.
  destruct w as [ls out].
  unfold getConnections, getItem, ConnectionManager.console_error.
  unfold_monad; simpl.
  destruct (ls !! STORAGE_KEY) as [s|]; simpl; [|eauto].
  destruct (truthy s); simpl; [|eauto].
  destruct (parse s); simpl; eauto.
Qed.

(** What [findIndex] found. *)
Lemma findIndex_from_spec p l : forall i,
  match findIndex_from p l i with
  | Ok (Some j) =>
      exists k x, j = i + k /\ l !! k = Some x /\ p x = Ok true
                  /\ forall m y, m < k -> l !! m = Some y -> p y = Ok false
  | Ok None => Forall (fun x => p x = Ok false) l
  | Throw _ => True
  end.
Proof.
  induction l as [|x l IH]; intros i; simpl; [constructor|].
  destruct (p x) as [[|]|e] eqn:E; [| |exact I].
  - exists 0, x. repeat split; [lia|assumption|]. intros m y Hm. lia.
  - specialize (IH (S i)). destruct (findIndex_from p l (S i)) as [[j|]|e]; [| |exact I].
    + destruct IH as (k & y & -> & Hk & Hy & Hbefore).
      exists (S k), y. repeat split; [lia|assumption|assumption|].
      intros [|m] z Hm Hz; simpl in Hz; [congruence|]. eapply Hbefore; [|exact Hz]. lia.
    + by constructor.
Qed.

Lemma find_at p l k x :
  p x = Ok true ->
  (forall m y, m < k -> l !! m = Some y -> p y = Ok false) ->
  l !! k = Some x ->
  find p l = Ok (Some x).
Proof.
  revert k. induction l as [|y l IH]; intros k Hx Hbefore Hk; [discriminate|].
  destruct k as [|k]; simpl in *.
  - injection Hk as ->. by rewrite Hx.
  - rewrite (Hbefore 0 y) by (lia || reflexivity).
    apply (IH k); [assumption| |assumption].
    intros m z Hm Hz. apply (Hbefore (S m) z); [lia|exact Hz].
Qed.

Lemma has_id_total i c : c <> JsonNull -> exists b, has_id i c = Ok b.
Proof. destruct c; intros H; try contradiction; unfold has_id; simpl; eauto. Qed.

Lemma findIndex_from_total p l : forall i,
  Forall (fun c => exists b, p c = Ok b) l -> exists r, findIndex_from p l i = Ok r.
Proof.
  induction l as [|x l IH]; intros i H; simpl; [eauto|].
  inversion H as [|? ? [b Hb] Hl]; subst. rewrite Hb. destruct b; [eauto|]. by apply IH.
Qed.

(** How [saveConnection] ends when it returns. *)
Lemma saveConnection_inv parse stringify fresh now connection (w : World) saved w' :
  saveConnection parse stringify fresh now connection w = (Ok saved, w') ->
  saved = saved_form fresh now connection
  /\ exists l l',
       stored parse w l
       /\ localStorage w' = <[STORAGE_KEY := stringify (JsonArray l')]> (localStorage w)
       /\ ((exists k old, l !! k = Some old
                          /\ has_id (obj_get "id" saved) old = Ok true
                          /\ (forall m y, m < k -> l !! m = Some y ->
                                          has_id (obj_get "id" saved) y = Ok false)
                          /\ l' = <[k := JsonObject saved]> l)
           \/ (Forall (fun c => has_id (obj_get "id" saved) c = Ok false) l
               /\ l' = (l ++ [JsonObject saved])%list)).
Proof.
  unfold stored.
  destruct (getConnections_run parse w) as (v & w0 & Hget & Hls).
  unfold saveConnection. unfold mbind at 1. unfold M_bind. rewrite Hget. simpl.
  fold (saved_form fresh now connection).
  unfold lift. unfold_monad. simpl.
  destruct (as_array "findIndex" v) as [l|e] eqn:Harr; simpl; [|discriminate].
  pose proof (findIndex_from_spec (has_id (obj_get "id" (saved_form fresh now connection))) l 0)
    as Hspec.
  destruct (findIndex_from _ l 0) as [[j|]|e]; simpl; [| |discriminate];
    intros [= <- <-]; (split; [reflexivity|]);
    assert (v = JsonArray l) as -> by (destruct v; simpl in Harr; congruence);
    exists l; eexists; (split; [reflexivity|]); simpl; rewrite Hls;
    (split; [reflexivity|]).
  - left. destruct Hspec as (k & x & -> & Hk & Hx & Hbefore). simpl. eauto 10.
  - right. split; [exact Hspec|reflexivity].
Qed.

Lemma saved_form_fields fresh now connection :
  let saved := saved_form fresh now connection in
  obj_get "id" saved
  = Some (if truthy_value (obj_get "id" connection)
          then default JsonNull (obj_get "id" connection)
          else JsonString fresh)
  /\ obj_get "lastUsed" saved
     = Some (if truthy_value (obj_get "lastUsed" connection)
             then default JsonNull (obj_get "lastUsed" connection)
             else JsonString now)
  /\ obj_get "password" saved
     = (if truthy_value (obj_get "savePassword" connection)
        then obj_get "password" connection
        else Some (JsonString ""))
  /\ (forall k, k <> "id" -> k <> "lastUsed" -> k <> "password" ->
                obj_get k saved = obj_get k connection)
  /\ keeps_no_password (JsonObject saved).
Proof.
  unfold saved_form. simpl.
  set (i := if truthy_value (obj_get "id" connection) then _ else _).
  set (u := if truthy_value (obj_get "lastUsed" connection) then _ else _).
  assert (Hsp : obj_get "savePassword" (obj_set "lastUsed" u (obj_set "id" i connection))
                = obj_get "savePassword" connection)
    by (rewrite !obj_get_set_ne by discriminate; reflexivity).
  rewrite Hsp.
  destruct (truthy_value (obj_get "savePassword" connection)) eqn:E; simpl.
  - repeat split.
    + rewrite obj_get_set_ne by discriminate. apply obj_get_set_eq.
    + apply obj_get_set_eq.
    + by rewrite !obj_get_set_ne by discriminate.
    + intros k H1 H2 H3. by rewrite !obj_get_set_ne by assumption.
    + left. by rewrite Hsp.
  - repeat split.
    + rewrite !obj_get_set_ne by discriminate. apply obj_get_set_eq.
    + rewrite obj_get_set_ne by discriminate. apply obj_get_set_eq.
    + apply obj_get_set_eq.
    + intros k H1 H2 H3. by rewrite !obj_get_set_ne by assumption.
    + right. apply obj_get_set_eq.
Qed.

Lemma getConnections_written parse stringify v (w : World) :
  localStorage w !! STORAGE_KEY = Some (stringify v) ->
  reads_back parse stringify v ->
  getConnections parse w = (Ok v, w).
Proof.
  intros Hls [Hne Hparse]. destruct w as [ls out]. simpl in Hls.
  unfold getConnections, getItem. unfold_monad; simpl. rewrite Hls.
  destruct (truthy (stringify v)) eqn:E; [|by apply truthy_false in E].
  simpl. by rewrite Hparse.
Qed.

Lemma find_insert_same q l k old x :
  l !! k = Some old -> q old = Ok false -> q x = Ok false ->
  find q (<[k := x]> l) = find q l.
Proof.
  revert k. induction l as [|y l IH]; intros k Hk Hold Hx; [discriminate|].
  destruct k as [|k]; simpl in *.
  - injection Hk as ->. by rewrite Hold, Hx.
  - destruct (q y) as [[|]|e]; try reflexivity. by apply IH.
Qed.

Lemma find_app_no q l x :
  q x = Ok false -> find q (l ++ [x]) = find q l.
Proof.
  intros Hq. induction l as [|y l IH]; simpl.
  - by rewrite Hq.
  - destruct (q y) as [[|]|e]; try reflexivity. exact IH.
Qed.

Lemma find_app_last q l x :
  Forall (fun c => q c = Ok false) l -> q x = Ok true ->
  find q (l ++ [x]) = Ok (Some x).
Proof.
  intros Hl Hx. induction Hl as [|y l Hy _ IH]; simpl.
  - by rewrite Hx.
  - by rewrite Hy.
Qed.

Lemma find_insert_first q l k old x :
  l !! k = Some old -> q x = Ok true ->
  (forall m y, m < k -> l !! m = Some y -> q y = Ok false) ->
  find q (<[k := x]> l) = Ok (Some x).
Proof.
  intros Hk Hx Hbefore.
  apply (find_at q _ k x Hx).
  - intros m y Hm Hy. rewrite list_lookup_insert_ne in Hy by lia. eauto.
  - apply list_lookup_insert_eq. by eapply lookup_lt_Some.
Qed.

(** An entry with a string id does not answer to another string. *)
Lemma has_id_other i j c :
  i <> j ->
  has_id (Some (JsonString i)) c = Ok true ->
  has_id (Some (JsonString j)) c = Ok false.
Proof.
  intros Hne. destruct c as [| | | | |o]; unfold has_id; simpl; try discriminate.
  destruct (obj_get "id" o) as [[| | |s| |]|]; simpl; try discriminate.
  destruct (String.eqb_spec s i) as [->|]; [|discriminate]. intros _.
  destruct (String.eqb_spec i j); [contradiction|reflexivity].
Qed.

Lemma has_id_object sid o :
  obj_get "id" o = Some (JsonString sid) ->
  has_id (Some (JsonString sid)) (JsonObject o) = Ok true
  /\ forall j, sid <> j -> has_id (Some (JsonString j)) (JsonObject o) = Ok false.
Proof.
  intros H. unfold has_id. simpl. rewrite H. simpl. split.
  - by rewrite String.eqb_refl.
  - intros j Hne. destruct (String.eqb_spec sid j); [contradiction|reflexivity].
Qed.

Lemma getConnectionById_stored parse (w : World) l id :
  stored parse w l ->
  fst (getConnectionById parse id w) = find (has_id (Some (JsonString id))) l.
Proof.
  unfold stored. intros H.
  destruct (getConnections_run parse w) as (v & w0 & Hget & _).
  rewrite Hget in H. simpl in H. injection H as ->.
  unfold getConnectionById. unfold mbind at 1. unfold M_bind. rewrite Hget.
  unfold lift. unfold_monad. simpl.
  destruct (find _ l); reflexivity.
Qed.

Lemma truthy_true s : truthy s = true <-> s <> "".
Proof.
  unfold truthy. destruct (String.eqb_spec s ""); simpl; split; congruence.
Qed.

Lemma getConnections_same_storage parse (w w0 : World) :
  localStorage w0 = localStorage w ->
  fst (getConnections parse w0) = fst (getConnections parse w).
Proof.
  destruct w as [ls out], w0 as [ls0 out0]. simpl. intros ->.
  unfold getConnections, getItem, ConnectionManager.console_error.
  unfold_monad; simpl.
  destruct (ls !! STORAGE_KEY) as [s|]; simpl; [|reflexivity].
  destruct (truthy s); simpl; [|reflexivity].
  destruct (parse s); reflexivity.
Qed.

Lemma stored_run parse (w : World) l :
  stored parse w l ->
  exists w0, getConnections parse w = (Ok (JsonArray l), w0)
             /\ localStorage w0 = localStorage w.
Proof.
  unfold stored. intros H.
  destruct (getConnections_run parse w) as (v & w0 & Hget & Hls).
  rewrite Hget in H. simpl in H. injection H as ->. eauto.
Qed.

Lemma getConnectionById_run parse (w w0 : World) l id :
  getConnections parse w = (Ok (JsonArray l), w0) ->
  getConnectionById parse id w = (find (has_id (Some (JsonString id))) l, w0).
Proof.
  intros Hget. unfold getConnectionById. unfold mbind at 1. unfold M_bind.
  rewrite Hget. unfold lift. unfold_monad. simpl.
  destruct (find _ l); reflexivity.
Qed.

Lemma find_none q l :
  Forall (fun c => exists b, q c = Ok b) l ->
  (find q l = Ok None <-> Forall (fun c => q c = Ok false) l).
Proof.
  induction 1 as [|c l [b Hb] _ IH]; simpl; [split; [constructor|reflexivity]|].
  rewrite Hb. destruct b.
  - split; [discriminate|]. intros H. inversion H; congruence.
  - rewrite IH. split; [by constructor|]. intros H. by inversion H.
Qed.

Lemma find_found q l c :
  find q l = Ok (Some c) -> c ∈ l /\ q c = Ok true.
Proof.
  induction l as [|y l IH]; simpl; [discriminate|].
  destruct (q y) as [[|]|e] eqn:E; [| |discriminate].
  - intros [= <-]. split; [left|exact E].
  - intros H. destruct (IH H). split; [by right|assumption].
Qed.

Lemma has_id_true_object sid c :
  has_id (Some (JsonString sid)) c = Ok true ->
  exists o, c = JsonObject o /\ obj_get "id" o = Some (JsonString sid).
Proof.
  destruct c as [| | | | |o]; unfold has_id; simpl; try discriminate.
  destruct (obj_get "id" o) as [[| | |s| |]|] eqn:E; simpl; try discriminate.
  destruct (String.eqb_spec s sid) as [->|]; [|discriminate]. eauto.
Qed.

Lemma has_other_id_has_id i c b :
  has_other_id i c = Ok b <-> has_id i c = Ok (negb b).
Proof.
  unfold has_other_id, has_id. destruct (id_of c) as [j|e]; [|split; discriminate].
  destruct (strict_eq j i), b; simpl; split; congruence.
Qed.

Lemma filter_total i l :
  Forall (fun c => c <> JsonNull) l ->
  exists kept, filter (has_other_id i) l = Ok kept.
Proof.
  induction 1 as [|c l Hc _ [kept IH]]; simpl; [eauto|].
  destruct (has_id_total i c Hc) as [b Hb].
  assert (has_other_id i c = Ok (negb b)) as ->
    by (apply has_other_id_has_id; by rewrite negb_involutive).
  rewrite IH. eauto.
Qed.

(** What [filter] keeps when entries with one id are dropped. *)
Lemma filter_spec id l : forall kept,
  filter (has_other_id (Some (JsonString id))) l = Ok kept ->
  kept `sublist_of` l
  /\ Forall (fun c => has_id (Some (JsonString id)) c = Ok false) kept
  /\ (forall c, c ∈ l -> has_id (Some (JsonString id)) c = Ok false -> c ∈ kept)
  /\ (length kept = length l <->
      Forall (fun c => has_id (Some (JsonString id)) c = Ok false) l)
  /\ (forall other, other <> id ->
        find (has_id (Some (JsonString other))) kept
        = find (has_id (Some (JsonString other))) l).
Proof.
  induction l as [|c l IH]; simpl; intros kept.
  - intros [= <-]. repeat split; try constructor; try reflexivity.
    intros c Hc. by apply elem_of_nil in Hc.
  - destruct (has_other_id (Some (JsonString id)) c) as [b|e] eqn:Hb; [|discriminate].
    destruct (filter _ l) as [r|e]; [|discriminate].
    destruct (IH r eq_refl) as (Hsub & Hall & Hin & Hlen & Hframe).
    apply has_other_id_has_id in Hb.
    intros [= <-]. destruct b; simpl in Hb.
    + repeat split.
      * by constructor.
      * by constructor.
      * intros x Hx Hfx. apply elem_of_cons in Hx as [->|Hx]; [left|right; eauto].
      * simpl. intros H. constructor; [assumption|]. apply Hlen. lia.
      * simpl. intros H. inversion H; subst. f_equal. by apply Hlen.
      * intros other Hne. simpl. rewrite Hframe by assumption. reflexivity.
    + pose proof (sublist_length _ _ Hsub) as Hle. repeat split.
      * by constructor.
      * assumption.
      * intros x Hx Hfx. apply elem_of_cons in Hx as [->|Hx]; [congruence|eauto].
      * simpl. intros H. lia.
      * intros H. inversion H; congruence.
      * intros other Hne. simpl.
        rewrite (has_id_other id other c) by (congruence || assumption).
        by apply Hframe.
Qed.

Section Saving.
Variable parse : string -> Result Json.
Variable stringify : Json -> string.

Lemma saveConnection_run fresh now connection (w : World) l :
  stored parse w l ->
  Forall (fun c => c <> JsonNull) l ->
  exists w' l',
    saveConnection parse stringify fresh now connection w
    = (Ok (saved_form fresh now connection), w')
    /\ localStorage w' = <[STORAGE_KEY := stringify (JsonArray l')]> (localStorage w)
    /\ ((exists k old, l !! k = Some old
            /\ has_id (obj_get "id" (saved_form fresh now connection)) old = Ok true
            /\ (forall m y, m < k -> l !! m = Some y ->
                  has_id (obj_get "id" (saved_form fresh now connection)) y = Ok false)
            /\ l' = <[k := JsonObject (saved_form fresh now connection)]> l)
        \/ (Forall (fun c => has_id (obj_get "id" (saved_form fresh now connection)) c
                             = Ok false) l
            /\ l' = (l ++ [JsonObject (saved_form fresh now connection)])%list)).
Proof.
  intros Hstored Hnn.
  assert (Hrun : exists saved w',
             saveConnection parse stringify fresh now connection w = (Ok saved, w')).
  { destruct (stored_run _ _ _ Hstored) as (w0 & Hget & Hls).
    unfold saveConnection. unfold mbind at 1. unfold M_bind. rewrite Hget. simpl.
    unfold lift. unfold_monad. simpl.
    destruct (findIndex_from_total
                (has_id (obj_get "id" (saved_form fresh now connection))) l 0)
      as [r Hr].
    { eapply Forall_impl; [exact Hnn|]. intros c Hc. by apply has_id_total. }
    unfold saved_form in Hr. simpl in Hr. rewrite Hr. simpl. eauto. }
  destruct Hrun as (saved & w' & Hrun).
  destruct (saveConnection_inv _ _ _ _ _ _ _ _ Hrun) as (-> & l0 & l' & Hst & Hls & Hplace).
  unfold stored in *. rewrite Hstored in Hst. injection Hst as <-.
  exists w', l'. auto.
Qed.

(** X15: when the stored list reads as an array without [null] entries,
    [saveConnection(connection)] returns normally.  The object it returns
    has the connection's [id] and [lastUsed] when they are truthy and the
    fresh identifier and the current time otherwise; its [password] is the
    connection's when [savePassword] is truthy and the empty string
    otherwise; every other property is the connection's.  Only the
    connections key of the storage is written, with the list in which the
    object replaces the first entry with its id, or is appended when no
    entry has it. *)
Theorem X15_saveConnection_saves fresh now connection (w : World) l :
  stored parse w l ->
  Forall (fun c => c <> JsonNull) l ->
  exists saved w' l',
    saveConnection parse stringify fresh now connection w = (Ok saved, w')
    /\ obj_get "id" saved
       = Some (if truthy_value (obj_get "id" connection)
               then default JsonNull (obj_get "id" connection)
               else JsonString fresh)
    /\ obj_get "lastUsed" saved
       = Some (if truthy_value (obj_get "lastUsed" connection)
               then default JsonNull (obj_get "lastUsed" connection)
               else JsonString now)
    /\ obj_get "password" saved
       = (if truthy_value (obj_get "savePassword" connection)
          then obj_get "password" connection
          else Some (JsonString ""))
    /\ (forall k, k <> "id" -> k <> "lastUsed" -> k <> "password" ->
                  obj_get k saved = obj_get k connection)
    /\ localStorage w' = <[STORAGE_KEY := stringify (JsonArray l')]> (localStorage w)
    /\ ((exists k old, l !! k = Some old
            /\ has_id (obj_get "id" saved) old = Ok true
            /\ (forall m y, m < k -> l !! m = Some y ->
                            has_id (obj_get "id" saved) y = Ok false)
            /\ l' = <[k := JsonObject saved]> l)
        \/ (Forall (fun c => has_id (obj_get "id" saved) c = Ok false) l
            /\ l' = (l ++ [JsonObject saved])%list)).
Proof.
  intros Hstored Hnn.
  destruct (saveConnection_run fresh now connection w l Hstored Hnn)
    as (w' & l' & Hrun & Hls & Hplace).
  destruct (saved_form_fields fresh now connection) as (Hid & Hlu & Hpw & Hother & _).
  exists (saved_form fresh now connection), w', l'. auto 10.
Qed.

Lemma placed_functional saved l l1 l2 :
  placed saved l l1 -> placed saved l l2 -> l1 = l2.
Proof.
  intros [(k1 & o1 & Hk1 & Ho1 & Hb1 & ->)|(Hn1 & ->)]
         [(k2 & o2 & Hk2 & Ho2 & Hb2 & ->)|(Hn2 & ->)].
  - destruct (Nat.lt_trichotomy k1 k2) as [H|[->|H]]; [|reflexivity|].
    + specialize (Hb2 _ _ H Hk1). congruence.
    + specialize (Hb1 _ _ H Hk2). congruence.
  - exfalso. rewrite Forall_forall in Hn2.
    assert (o1 ∈ l) as Hin by (by eapply list_elem_of_lookup_2).
    specialize (Hn2 _ Hin). congruence.
  - exfalso. rewrite Forall_forall in Hn1.
    assert (o2 ∈ l) as Hin by (by eapply list_elem_of_lookup_2).
    specialize (Hn1 _ Hin). congruence.
  - reflexivity.
Qed.

(** X16: after [saveConnection] has returned an object whose id is the
    string [sid], and provided the list it wrote reads back from storage,
    [getConnectionById(sid)] returns that object, [getConnections()] the
    written list, and the lookup of every other id gives what it gave
    before. *)
Theorem X16_saved_connection_is_found fresh now connection (w : World) l saved w' l' sid :
  saveConnection parse stringify fresh now connection w = (Ok saved, w') ->
  obj_get "id" saved = Some (JsonString sid) ->
  stored parse w l ->
  placed saved l l' ->
  reads_back parse stringify (JsonArray l') ->
  getConnectionById parse sid w' = (Ok (Some (JsonObject saved)), w')
  /\ fst (getConnections parse w') = Ok (JsonArray l')
  /\ forall other, other <> sid ->
       fst (getConnectionById parse other w') = fst (getConnectionById parse other w).
Proof.
  intros Hrun Hsid Hstored Hplaced Hback.
  destruct (saveConnection_inv _ _ _ _ _ _ _ _ Hrun) as (_ & l0 & l0' & Hst & Hls & Hplace).
  unfold stored in Hst, Hstored. rewrite Hstored in Hst. injection Hst as <-.
  assert (l0' = l') as -> by (by eapply placed_functional).
  clear Hplace. unfold placed in Hplaced. rewrite Hsid in Hplaced.
  destruct (has_id_object _ _ Hsid) as [Hmine Hothers].
  assert (Hget : getConnections parse w' = (Ok (JsonArray l'), w')).
  { apply (getConnections_written parse stringify); [|assumption].
    rewrite Hls. apply lookup_insert_eq. }
  split; [|split].
  - rewrite (getConnectionById_run _ _ _ _ _ Hget). f_equal.
    destruct Hplaced as [(k & old & Hk & _ & Hbefore & ->)|(Hnone & ->)].
    + by apply (find_insert_first _ _ _ old).
    + by apply find_app_last.
  - by rewrite Hget.
  - intros other Hne.
    rewrite (getConnectionById_run _ _ _ _ _ Hget). simpl.
    rewrite (getConnectionById_stored _ _ _ _ Hstored).
    destruct Hplaced as [(k & old & Hk & Hold & _ & ->)|(_ & ->)].
    + apply (find_insert_same _ _ _ old); [assumption| |].
      * apply (has_id_other sid); [congruence|assumption].
      * apply Hothers. congruence.
    + apply find_app_no. apply Hothers. congruence.
Qed.

(** How [deleteConnection] ends when it returns. *)
Lemma deleteConnection_inv id (w : World) b w' :
  deleteConnection parse stringify id w = (Ok b, w') ->
  exists l kept,
    stored parse w l
    /\ filter (has_other_id (Some (JsonString id))) l = Ok kept
    /\ ((b = false /\ length kept = length l /\ localStorage w' = localStorage w)
        \/ (b = true /\ length kept <> length l
            /\ localStorage w'
               = (if bool_decide (localStorage w !! LAST_USED_KEY = Some id)
                  then delete LAST_USED_KEY
                         (<[STORAGE_KEY := stringify (JsonArray kept)]> (localStorage w))
                  else <[STORAGE_KEY := stringify (JsonArray kept)]> (localStorage w)))).
Proof.
  unfold stored.
  destruct (getConnections_run parse w) as (v & w0 & Hget & Hls).
  unfold deleteConnection. unfold mbind at 1. unfold M_bind. rewrite Hget. simpl.
  unfold_manager. unfold_monad. simpl.
  destruct (as_array "filter" v) as [l|e] eqn:Harr; simpl; [|discriminate].
  assert (v = JsonArray l) as -> by (destruct v; simpl in Harr; congruence).
  destruct (filter _ l) as [kept|e] eqn:Hf; simpl; [|discriminate].
  destruct (Nat.eqb_spec (length kept) (length l)) as [Hlen|Hlen]; simpl.
  - intros [= <- <-]. exists l, kept. split; [reflexivity|]. split; [exact Hf|].
    left. auto.
  - rewrite lookup_insert_ne by discriminate. rewrite Hls.
    destruct (bool_decide (localStorage w !! LAST_USED_KEY = Some id)) eqn:Hlast; simpl;
      intros [= <- <-]; exists l, kept; (split; [reflexivity|]);
      (split; [exact Hf|]); right; simpl; rewrite ?Hls; auto.
Qed.

Lemma filter_ok_total i l kept :
  filter (has_other_id i) l = Ok kept ->
  Forall (fun c => exists b, has_id i c = Ok b) l.
Proof.
  revert kept. induction l as [|c l IH]; simpl; intros kept; [constructor|].
  destruct (has_other_id i c) as [b|e] eqn:Hb; [|discriminate].
  destruct (filter _ l) as [r|e]; [|discriminate]. intros _.
  apply has_other_id_has_id in Hb. constructor; eauto.
Qed.

(** X17: on a stored array without [null] entries, [deleteConnection(id)]
    returns [false], leaving the storage as it was, exactly when no stored
    entry has the id.  Otherwise it returns
    [true] and writes the list of the entries with another id, in their order;
    the last-used reference is removed when it named [id] and kept
    otherwise, so it never names the deleted id; and when the written list
    reads back, [id] is no longer found and every other id is found as
    before. *)
Theorem X17_deleteConnection_removes id (w : World) l kept :
  stored parse w l ->
  filter (has_other_id (Some (JsonString id))) l = Ok kept ->
  exists b w',
    deleteConnection parse stringify id w = (Ok b, w')
    /\ (b = false <-> fst (getConnectionById parse id w) = Ok None)
    /\ (b = false -> localStorage w' = localStorage w)
    /\ (b = true ->
        kept `sublist_of` l
        /\ (forall c, c ∈ l ->
              (c ∈ kept <-> has_id (Some (JsonString id)) c = Ok false))
        /\ localStorage w' !! STORAGE_KEY = Some (stringify (JsonArray kept))
        /\ localStorage w' !! LAST_USED_KEY <> Some id
        /\ (localStorage w !! LAST_USED_KEY <> Some id ->
            localStorage w' !! LAST_USED_KEY = localStorage w !! LAST_USED_KEY)
        /\ (reads_back parse stringify (JsonArray kept) ->
            fst (getConnectionById parse id w') = Ok None
            /\ forall other, other <> id ->
                 fst (getConnectionById parse other w')
                 = fst (getConnectionById parse other w))).
Proof.
  intros Hstored Hkept.
  pose proof (filter_ok_total _ _ _ Hkept) as Htot.
  assert (Hrun : exists b w', deleteConnection parse stringify id w = (Ok b, w')).
  { destruct (stored_run _ _ _ Hstored) as (w0 & Hget & Hls).
    unfold deleteConnection. unfold mbind at 1. unfold M_bind. rewrite Hget. simpl.
    unfold_manager. unfold_monad. simpl. rewrite Hkept. simpl.
    destruct (Nat.eqb (length kept) (length l)); simpl; [eauto|].
    destruct (bool_decide _); simpl; eauto. }
  destruct Hrun as (b & w' & Hrun).
  destruct (deleteConnection_inv _ _ _ _ Hrun) as (l0 & kept0 & Hst & Hf & Hcase).
  unfold stored in Hst. rewrite Hstored in Hst. injection Hst as <-.
  rewrite Hkept in Hf. injection Hf as <-.
  destruct (filter_spec _ _ _ Hkept) as (Hsub & Hall & Hin & Hlen & Hframe).
  exists b, w'. split; [exact Hrun|].
  rewrite (getConnectionById_stored _ _ _ _ Hstored).
  rewrite (find_none _ _ Htot), <- Hlen.
  destruct Hcase as [(-> & Hl & Hls)|(-> & Hl & Hls)].
  - repeat split; auto; discriminate.
  - split; [split; [discriminate|contradiction]|].
    split; [discriminate|]. intros _.
    assert (Hkey : localStorage w' !! STORAGE_KEY = Some (stringify (JsonArray kept))).
    { rewrite Hls. destruct (bool_decide _).
      - rewrite lookup_delete_ne by discriminate. apply lookup_insert_eq.
      - apply lookup_insert_eq. }
    split; [assumption|]. split.
    { intros c Hc. split; [|by apply Hin].
      intros Hk. by apply (proj1 (Forall_forall _ _) Hall). }
    split; [assumption|]. split.
    { rewrite Hls. destruct (bool_decide_reflect (localStorage w !! LAST_USED_KEY = Some id)).
      - by rewrite lookup_delete_eq.
      - by rewrite lookup_insert_ne by discriminate. }
    split.
    { intros Hne. rewrite Hls. rewrite bool_decide_false by assumption.
      by rewrite lookup_insert_ne by discriminate. }
    intros Hback.
    pose proof (getConnections_written parse stringify _ w' Hkey Hback) as Hget.
    rewrite !(getConnectionById_run _ _ _ _ _ Hget). simpl. split.
    + apply find_none; [|assumption].
      eapply Forall_impl; [exact Hall|]. simpl. eauto.
    + intros other Hne. rewrite (getConnectionById_run _ _ _ _ _ Hget). simpl.
      rewrite (getConnectionById_stored _ _ _ _ Hstored). by apply Hframe.
Qed.

Lemma updateLastUsed_run fresh now now' id (w : World) l :
  stored parse w l ->
  Forall (fun c => c <> JsonNull) l ->
  exists w',
    updateLastUsed parse stringify fresh now now' id w = (Ok tt, w')
    /\ match find (has_id (Some (JsonString id))) l with
       | Ok (Some (JsonObject o)) =>
           exists l',
             localStorage w'
             = <[LAST_USED_KEY := id]>
                 (<[STORAGE_KEY := stringify (JsonArray l')]> (localStorage w))
             /\ placed (saved_form fresh now' (obj_set "lastUsed" (JsonString now) o)) l l'
       | _ => localStorage w' = localStorage w
       end.
Proof.
  intros Hstored Hnn.
  destruct (stored_run _ _ _ Hstored) as (w0 & Hget & Hls).
  assert (Htot : Forall (fun c => exists b, has_id (Some (JsonString id)) c = Ok b) l).
  { eapply Forall_impl; [exact Hnn|]. intros c Hc. by apply has_id_total. }
  unfold updateLastUsed. unfold mbind at 1. unfold M_bind. rewrite Hget. simpl.
  unfold lift. unfold mbind at 1. unfold M_bind. simpl.
  unfold mbind at 1. unfold M_bind.
  destruct (find (has_id (Some (JsonString id))) l) as [[c|]|e] eqn:Hfind; simpl.
  - destruct c as [| | | | |o]; try (unfold_monad; eauto).
    assert (Hst0 : stored parse w0 l).
    { unfold stored. rewrite (getConnections_same_storage parse w w0 Hls). exact Hstored. }
    destruct (saveConnection_run fresh now' (obj_set "lastUsed" (JsonString now) o)
                w0 l Hst0 Hnn) as (w1 & l' & Hsave & Hls1 & Hplace).
    unfold mbind. unfold M_bind. rewrite Hsave. unfold setItem, modify.
    eexists. split; [reflexivity|]. exists l'. simpl. rewrite Hls1, Hls.
    split; [reflexivity|exact Hplace].
  - unfold_monad. eauto.
  - exfalso. clear - Htot Hfind. induction Htot as [|c l [b Hb] _ IH]; simpl in Hfind.
    + discriminate.
    + rewrite Hb in Hfind. destruct b; [discriminate|auto].
Qed.

(** X18: when [id] (not empty) names an entry of a stored array without
    [null] entries, [updateLastUsed(id)] returns normally, stores that entry
    in its place with [lastUsed] set to the time read (every property other
    than [lastUsed] and [password] unchanged, the list as long as before)
    and records [id] as the last used connection; provided the written list
    reads back, [getLastUsedConnection()] then returns the updated entry. *)
Theorem X18_updateLastUsed_marks fresh now now' id (w : World) l o l' :
  stored parse w l ->
  Forall (fun c => c <> JsonNull) l ->
  id <> "" -> now <> "" ->
  fst (getConnectionById parse id w) = Ok (Some (JsonObject o)) ->
  placed (saved_form fresh now' (obj_set "lastUsed" (JsonString now) o)) l l' ->
  reads_back parse stringify (JsonArray l') ->
  exists saved w',
    updateLastUsed parse stringify fresh now now' id w = (Ok tt, w')
    /\ obj_get "id" saved = Some (JsonString id)
    /\ obj_get "lastUsed" saved = Some (JsonString now)
    /\ (forall k, k <> "lastUsed" -> k <> "password" -> obj_get k saved = obj_get k o)
    /\ length l' = length l
    /\ localStorage w' !! STORAGE_KEY = Some (stringify (JsonArray l'))
    /\ localStorage w' !! LAST_USED_KEY = Some id
    /\ getLastUsedConnection parse w' = (Ok (Some (JsonObject saved)), w').
Proof.
  intros Hstored Hnn Hid Hnow Hfound Hplaced Hback.
  destruct (updateLastUsed_run fresh now now' id w l Hstored Hnn) as (w' & Hrun & Hcase).
  rewrite (getConnectionById_stored _ _ _ _ Hstored) in Hfound.
  rewrite Hfound in Hcase.
  destruct (find_found _ _ _ Hfound) as [Hin Hc].
  destruct (has_id_true_object _ _ Hc) as (o' & [= <-] & Hoid).
  destruct Hcase as (l0' & Hls & Hplace).
  assert (l0' = l') as -> by (by eapply placed_functional).
  clear Hplace.
  set (u := obj_set "lastUsed" (JsonString now) o) in *.
  destruct (saved_form_fields fresh now' u) as (Hsid & Hlu & _ & Hother & _).
  set (saved := saved_form fresh now' u) in *.
  assert (Hu_id : obj_get "id" u = Some (JsonString id))
    by (unfold u; by rewrite obj_get_set_ne by discriminate).
  assert (Hu_lu : obj_get "lastUsed" u = Some (JsonString now))
    by apply obj_get_set_eq.
  rewrite Hu_id in Hsid. rewrite Hu_lu in Hlu. simpl in Hsid, Hlu.
  rewrite (proj2 (truthy_true id) Hid) in Hsid.
  rewrite (proj2 (truthy_true now) Hnow) in Hlu.
  assert (Hreplaced : exists k old, l !! k = Some old
            /\ (forall m y, m < k -> l !! m = Some y ->
                  has_id (Some (JsonString id)) y = Ok false)
            /\ l' = <[k := JsonObject saved]> l).
  { unfold placed in Hplaced. rewrite Hsid in Hplaced.
    destruct Hplaced as [(k & old & Hk & _ & Hbefore & ->)|(Hnone & _)]; [eauto|].
    exfalso. rewrite Forall_forall in Hnone. specialize (Hnone _ Hin). congruence. }
  destruct Hreplaced as (k & old & Hk & Hbefore & ->).
  assert (Hkey : localStorage w' !! STORAGE_KEY
                 = Some (stringify (JsonArray (<[k := JsonObject saved]> l)))).
  { rewrite Hls. rewrite lookup_insert_ne by discriminate. apply lookup_insert_eq. }
  assert (Hlast : localStorage w' !! LAST_USED_KEY = Some id)
    by (rewrite Hls; apply lookup_insert_eq).
  exists saved, w'.
  split; [exact Hrun|]. split; [exact Hsid|]. split; [exact Hlu|]. split.
  { intros key H1 H2. destruct (String.eqb_spec key "id") as [->|Hk_id].
    - by rewrite Hsid, Hoid.
    - rewrite Hother by assumption. unfold u. by rewrite obj_get_set_ne. }
  split; [apply length_insert|].
  split; [exact Hkey|]. split; [exact Hlast|].
  pose proof (getConnections_written parse stringify _ w' Hkey Hback) as Hget.
  unfold getLastUsedConnection, getLastUsedConnectionId, ConnectionManager.getItem.
  unfold mbind at 1. unfold M_bind. rewrite Hlast.
  rewrite (proj2 (truthy_true id) Hid). simpl.
  rewrite (getConnectionById_run _ _ _ _ _ Hget). f_equal.
  apply (find_insert_first _ _ _ old); [assumption| |assumption].
  by apply has_id_object.
Qed.

(** X20: when no entry of the stored array has the id, [updateLastUsed(id)] returns
    without writing anything, and a last-used reference naming that id makes
    [getLastUsedConnection()] return [null]. *)
Theorem X20_last_used_needs_its_entry fresh now now' id (w : World) l :
  stored parse w l ->
  Forall (fun c => c <> JsonNull) l ->
  fst (getConnectionById parse id w) = Ok None ->
  (exists w', updateLastUsed parse stringify fresh now now' id w = (Ok tt, w')
              /\ localStorage w' = localStorage w)
  /\ (localStorage w !! LAST_USED_KEY = Some id ->
      fst (getLastUsedConnection parse w) = Ok None).
Proof.
  intros Hstored Hnn Hnone. split.
  - destruct (updateLastUsed_run fresh now now' id w l Hstored Hnn) as (w' & Hrun & Hcase).
    rewrite (getConnectionById_stored _ _ _ _ Hstored) in Hnone.
    rewrite Hnone in Hcase. eauto.
  - intros Hlast.
    unfold getLastUsedConnection, getLastUsedConnectionId, ConnectionManager.getItem.
    unfold mbind at 1. unfold M_bind. rewrite Hlast.
    destruct (truthy id); simpl; [|reflexivity]. exact Hnone.
Qed.

(** X19: if no stored entry keeps a password with a falsy [savePassword],
    the same holds of the list written by [saveConnection] (whatever the
    connection passed), by [deleteConnection] and by [updateLastUsed]; each
    of the three returns normally on a stored array without [null]
    entries. *)
Theorem X19_no_password_kept_unasked (w : World) l :
  stored parse w l ->
  Forall (fun c => c <> JsonNull) l ->
  Forall keeps_no_password l ->
  (forall fresh now connection, exists saved w' l',
      saveConnection parse stringify fresh now connection w = (Ok saved, w')
      /\ localStorage w' !! STORAGE_KEY = Some (stringify (JsonArray l'))
      /\ Forall keeps_no_password l')
  /\ (forall id, exists b w',
        deleteConnection parse stringify id w = (Ok b, w')
        /\ (localStorage w' = localStorage w
            \/ exists l', localStorage w' !! STORAGE_KEY = Some (stringify (JsonArray l'))
                          /\ Forall keeps_no_password l'))
  /\ (forall fresh now now' id, exists w',
        updateLastUsed parse stringify fresh now now' id w = (Ok tt, w')
        /\ (localStorage w' = localStorage w
            \/ exists l', localStorage w' !! STORAGE_KEY = Some (stringify (JsonArray l'))
                          /\ Forall keeps_no_password l')).
Proof.
  intros Hstored Hnn Hclean.
  assert (Hplaced : forall fresh now connection l',
             placed (saved_form fresh now connection) l l' ->
             Forall keeps_no_password l').
  { intros fresh now connection l' Hplace.
    destruct (saved_form_fields fresh now connection) as (_ & _ & _ & _ & Hkeep).
    destruct Hplace as [(k & old & _ & _ & _ & ->)|(_ & ->)].
    - by apply Forall_insert.
    - apply Forall_app. split; [assumption|]. by constructor. }
  split; [|split].
  - intros fresh now connection.
    destruct (saveConnection_run fresh now connection w l Hstored Hnn)
      as (w' & l' & Hrun & Hls & Hplace).
    exists (saved_form fresh now connection), w', l'. split; [exact Hrun|].
    split; [rewrite Hls; apply lookup_insert_eq|]. by eapply Hplaced.
  - intros id.
    destruct (stored_run _ _ _ Hstored) as (w0 & Hget & Hls0).
    destruct (filter_total (Some (JsonString id)) l Hnn) as [kept Hkept].
    assert (Hrun : exists b w', deleteConnection parse stringify id w = (Ok b, w')).
    { unfold deleteConnection. unfold mbind at 1. unfold M_bind. rewrite Hget. simpl.
      unfold_manager. unfold_monad. simpl. rewrite Hkept. simpl.
      destruct (Nat.eqb (length kept) (length l)); simpl; [eauto|].
      destruct (bool_decide _); simpl; eauto. }
    destruct Hrun as (b & w' & Hrun). exists b, w'. split; [exact Hrun|].
    destruct (deleteConnection_inv _ _ _ _ Hrun) as (l0 & kept0 & Hst & Hf & Hcase).
    unfold stored in Hst. rewrite Hstored in Hst. injection Hst as <-.
    destruct Hcase as [(_ & _ & Hls)|(_ & _ & Hls)]; [by left|].
    right. exists kept0. split.
    + rewrite Hls. destruct (bool_decide _).
      * rewrite lookup_delete_ne by discriminate. apply lookup_insert_eq.
      * apply lookup_insert_eq.
    + destruct (filter_spec _ _ _ Hf) as (Hsub & _).
      rewrite Forall_forall in Hclean. apply Forall_forall. intros c Hc.
      apply Hclean. by eapply elem_of_sublist.
  - intros fresh now now' id.
    destruct (updateLastUsed_run fresh now now' id w l Hstored Hnn) as (w' & Hrun & Hcase).
    exists w'. split; [exact Hrun|].
    destruct (find (has_id (Some (JsonString id))) l) as [[[| | | | |o]|]|e];
      try (by left).
    destruct Hcase as (l' & Hls & Hplace). right. exists l'. split.
    + rewrite Hls. rewrite lookup_insert_ne by discriminate. apply lookup_insert_eq.
    + by eapply Hplaced.
Qed.

End Saving.

(** The statement at work on the sample data. *)
Lemma X15_witness :
  let parse := Samples.parse_known [JsonArray [JsonObject Samples.local_entry]] in
  (stored parse Samples.one_saved [JsonObject Samples.local_entry]
   /\ Forall (fun c => c <> JsonNull) [JsonObject Samples.local_entry])
  /\ exists saved w',
       saveConnection parse Samples.print "uuid-7" "2024-05-01T10:00:00.000Z"
         Samples.staging_form Samples.one_saved = (Ok saved, w')
       /\ obj_get "id" saved = Some (JsonString "uuid-7")
       /\ obj_get "password" saved = Some (JsonString "")
       /\ obj_get "host" saved = Some (JsonString "staging.internal").
Proof.
  intros parse.
  assert (H1 : stored parse Samples.one_saved [JsonObject Samples.local_entry])
    by (vm_compute; reflexivity).
  assert (H2 : Forall (fun c => c <> JsonNull) [JsonObject Samples.local_entry])
    by (repeat constructor; discriminate).
  split; [exact (conj H1 H2)|].
  destruct (X15_saveConnection_saves parse Samples.print "uuid-7"
              "2024-05-01T10:00:00.000Z" Samples.staging_form _ _ H1 H2)
    as (saved & w' & l' & Hrun & Hid & _ & Hpw & Hother & _).
  exists saved, w'. split; [exact Hrun|]. split; [exact Hid|]. split; [exact Hpw|].
  apply (Hother "host"); discriminate.
Defined.

(** The statement at work on the sample data. *)
Lemma X16_witness :
  let saved := saved_form "uuid-7" "2024-05-01T10:00:00.000Z" Samples.staging_form in
  let l' := [JsonObject Samples.local_entry; JsonObject saved] in
  let parse := Samples.parse_known [JsonArray [JsonObject Samples.local_entry];
                                    JsonArray l'] in
  let run := saveConnection parse Samples.print "uuid-7" "2024-05-01T10:00:00.000Z"
               Samples.staging_form Samples.one_saved in
  (run = (Ok saved, snd run)
   /\ obj_get "id" saved = Some (JsonString "uuid-7")
   /\ stored parse Samples.one_saved [JsonObject Samples.local_entry]
   /\ placed saved [JsonObject Samples.local_entry] l'
   /\ reads_back parse Samples.print (JsonArray l'))
  /\ getConnectionById parse "uuid-7" (snd run) = (Ok (Some (JsonObject saved)), snd run)
  /\ fst (getConnectionById parse "c1" (snd run))
     = Ok (Some (JsonObject Samples.local_entry)).
Proof.
  intros saved l' parse run.
  assert (H1 : run = (Ok saved, snd run)) by (vm_compute; reflexivity).
  assert (H2 : obj_get "id" saved = Some (JsonString "uuid-7")) by reflexivity.
  assert (H3 : stored parse Samples.one_saved [JsonObject Samples.local_entry])
    by (vm_compute; reflexivity).
  assert (H4 : placed saved [JsonObject Samples.local_entry] l').
  { right. split; [|reflexivity]. constructor; [reflexivity|constructor]. }
  assert (H5 : reads_back parse Samples.print (JsonArray l')).
  { split; [vm_compute; discriminate|vm_compute; reflexivity]. }
  split; [exact (conj H1 (conj H2 (conj H3 (conj H4 H5))))|].
  destruct (X16_saved_connection_is_found parse Samples.print "uuid-7"
              "2024-05-01T10:00:00.000Z" Samples.staging_form Samples.one_saved
              [JsonObject Samples.local_entry] saved (snd run) l' "uuid-7"
              H1 H2 H3 H4 H5) as (Hfound & _ & Hothers).
  split; [exact Hfound|].
  rewrite (Hothers "c1") by discriminate. vm_compute. reflexivity.
Defined.

(** The statement at work on the sample data. *)
Lemma X17_witness :
  let parse := Samples.parse_known [JsonArray [JsonObject Samples.local_entry];
                                    JsonArray []] in
  (stored parse Samples.one_saved [JsonObject Samples.local_entry]
   /\ filter (has_other_id (Some (JsonString "c1"))) [JsonObject Samples.local_entry]
      = Ok [])
  /\ exists w',
       deleteConnection parse Samples.print "c1" Samples.one_saved = (Ok true, w')
       /\ localStorage w' !! STORAGE_KEY = Some "[]"
       /\ localStorage w' !! LAST_USED_KEY <> Some "c1"
       /\ fst (getConnectionById parse "c1" w') = Ok None.
Proof.
  intros parse.
  assert (H1 : stored parse Samples.one_saved [JsonObject Samples.local_entry])
    by (vm_compute; reflexivity).
  assert (H2 : filter (has_other_id (Some (JsonString "c1")))
                 [JsonObject Samples.local_entry] = Ok []) by reflexivity.
  split; [exact (conj H1 H2)|].
  destruct (X17_deleteConnection_removes parse Samples.print "c1" _ _ _ H1 H2)
    as (b & w' & Hrun & Hiff & _ & Htrue).
  destruct b.
  - destruct (Htrue eq_refl) as (_ & _ & Hkey & Hlast & _ & Hback).
    exists w'. split; [exact Hrun|]. split; [exact Hkey|]. split; [exact Hlast|].
    apply Hback. split; [vm_compute; discriminate|vm_compute; reflexivity].
  - exfalso. pose proof (proj1 Hiff eq_refl) as Hnone. vm_compute in Hnone. discriminate.
Defined.

(** The statement at work on the sample data. *)
Lemma X18_witness :
  let now := "2024-06-01T08:30:00.000Z" in
  let saved := saved_form "uuid-9" "2024-06-01T08:30:00.001Z"
                 (obj_set "lastUsed" (JsonString now) Samples.local_entry) in
  let parse := Samples.parse_known [JsonArray [JsonObject Samples.local_entry];
                                    JsonArray [JsonObject saved]] in
  (stored parse Samples.one_saved [JsonObject Samples.local_entry]
   /\ Forall (fun c => c <> JsonNull) [JsonObject Samples.local_entry]
   /\ "c1" <> "" /\ now <> ""
   /\ fst (getConnectionById parse "c1" Samples.one_saved)
      = Ok (Some (JsonObject Samples.local_entry))
   /\ placed saved [JsonObject Samples.local_entry] [JsonObject saved]
   /\ reads_back parse Samples.print (JsonArray [JsonObject saved]))
  /\ exists entry w',
       updateLastUsed parse Samples.print "uuid-9" now "2024-06-01T08:30:00.001Z" "c1"
         Samples.one_saved = (Ok tt, w')
       /\ obj_get "lastUsed" entry = Some (JsonString now)
       /\ obj_get "name" entry = Some (JsonString "local")
       /\ getLastUsedConnection parse w' = (Ok (Some (JsonObject entry)), w').
Proof.
  intros now saved parse.
  assert (H1 : stored parse Samples.one_saved [JsonObject Samples.local_entry])
    by (vm_compute; reflexivity).
  assert (H2 : Forall (fun c => c <> JsonNull) [JsonObject Samples.local_entry])
    by (repeat constructor; discriminate).
  assert (H3 : "c1" <> "") by discriminate.
  assert (H4 : now <> "") by discriminate.
  assert (H5 : fst (getConnectionById parse "c1" Samples.one_saved)
               = Ok (Some (JsonObject Samples.local_entry)))
    by (vm_compute; reflexivity).
  assert (H6 : placed saved [JsonObject Samples.local_entry] [JsonObject saved]).
  { left. exists 0, (JsonObject Samples.local_entry).
    split; [reflexivity|]. split; [reflexivity|]. split; [|reflexivity].
    intros m y Hm. lia. }
  assert (H7 : reads_back parse Samples.print (JsonArray [JsonObject saved])).
  { split; [vm_compute; discriminate|vm_compute; reflexivity]. }
  split; [exact (conj H1 (conj H2 (conj H3 (conj H4 (conj H5 (conj H6 H7))))))|].
  destruct (X18_updateLastUsed_marks parse Samples.print "uuid-9" now
              "2024-06-01T08:30:00.001Z" "c1" _ _ _ _ H1 H2 H3 H4 H5 H6 H7)
    as (entry & w' & Hrun & _ & Hlu & Hother & _ & _ & _ & Hlast).
  exists entry, w'. split; [exact Hrun|]. split; [exact Hlu|].
  split; [|exact Hlast].
  rewrite (Hother "name") by discriminate. reflexivity.
Defined.

(** The statement at work on the sample data. *)
Lemma X19_witness :
  let parse := Samples.parse_known [JsonArray [JsonObject Samples.local_entry]] in
  (stored parse Samples.one_saved [JsonObject Samples.local_entry]
   /\ Forall (fun c => c <> JsonNull) [JsonObject Samples.local_entry]
   /\ Forall keeps_no_password [JsonObject Samples.local_entry])
  /\ exists saved w' l',
       saveConnection parse Samples.print "uuid-7" "2024-05-01T10:00:00.000Z"
         Samples.staging_form Samples.one_saved = (Ok saved, w')
       /\ localStorage w' !! STORAGE_KEY = Some (Samples.print (JsonArray l'))
       /\ Forall keeps_no_password l'.
Proof.
  intros parse.
  assert (H1 : stored parse Samples.one_saved [JsonObject Samples.local_entry])
    by (vm_compute; reflexivity).
  assert (H2 : Forall (fun c => c <> JsonNull) [JsonObject Samples.local_entry])
    by (repeat constructor; discriminate).
  assert (H3 : Forall keeps_no_password [JsonObject Samples.local_entry]).
  { constructor; [right; reflexivity|constructor]. }
  split; [exact (conj H1 (conj H2 H3))|].
  exact (proj1 (X19_no_password_kept_unasked parse Samples.print _ _ H1 H2 H3)
           "uuid-7" "2024-05-01T10:00:00.000Z" Samples.staging_form).
Defined.

(** The statement at work on the sample data. *)
Lemma X20_witness :
  let parse := Samples.parse_known [JsonArray [JsonObject Samples.local_entry]] in
  let stale := {| localStorage := <[LAST_USED_KEY := "c2"]> (localStorage Samples.one_saved);
                  console := [] |} in
  (stored parse stale [JsonObject Samples.local_entry]
   /\ Forall (fun c => c <> JsonNull) [JsonObject Samples.local_entry]
   /\ fst (getConnectionById parse "c2" stale) = Ok None)
  /\ (exists w', updateLastUsed parse Samples.print "uuid-9" "2024-06-01T08:30:00.000Z"
                   "2024-06-01T08:30:00.001Z" "c2" stale = (Ok tt, w')
                 /\ localStorage w' = localStorage stale)
  /\ fst (getLastUsedConnection parse stale) = Ok None.
Proof.
  intros parse stale.
  assert (H1 : stored parse stale [JsonObject Samples.local_entry])
    by (vm_compute; reflexivity).
  assert (H2 : Forall (fun c => c <> JsonNull) [JsonObject Samples.local_entry])
    by (repeat constructor; discriminate).
  assert (H3 : fst (getConnectionById parse "c2" stale) = Ok None)
    by (vm_compute; reflexivity).
  split; [exact (conj H1 (conj H2 H3))|].
  destruct (X20_last_used_needs_its_entry parse Samples.print "uuid-9"
              "2024-06-01T08:30:00.000Z" "2024-06-01T08:30:00.001Z" "c2" _ _ H1 H2 H3)
    as (Hupd & Hlast).
  split; [exact Hupd|]. apply Hlast. vm_compute. reflexivity.
Defined.

Lemma saveConnection_throw parse stringify fresh now connection (w : World) e w' :
  saveConnection parse stringify fresh now connection w = (Throw e, w') ->
  localStorage w' = localStorage w.
Proof.
  destruct (getConnections_run parse w) as (v & w0 & Hget & Hls).
  unfold saveConnection. unfold mbind at 1. unfold M_bind. rewrite Hget. simpl.
  unfold lift, setItem. unfold_monad. simpl.
  destruct (as_array "findIndex" v) as [l|e0]; simpl; [|by intros [= _ <-]].
  destruct (findIndex_from _ l 0) as [[j|]|e0]; simpl; try discriminate.
  by intros [= _ <-].
Qed.

Lemma updateLastUsed_throw parse stringify fresh now now' id (w : World) e w' :
  updateLastUsed parse stringify fresh now now' id w = (Throw e, w') ->
  localStorage w' = localStorage w.
Proof.
  destruct (getConnections_run parse w) as (v & w0 & Hget & Hls).
  unfold updateLastUsed. unfold mbind at 1. unfold M_bind. rewrite Hget. simpl.
  unfold lift. unfold mbind at 1. unfold M_bind. simpl.
  destruct (as_array "find" v) as [l|e0]; simpl; [|by intros [= _ <-]].
  unfold mbind at 1. unfold M_bind.
  destruct (find _ l) as [[c|]|e0]; simpl; [| |by intros [= _ <-]].
  - destruct c as [| | | | |o]; try (unfold_monad; discriminate).
    unfold mbind, M_bind.
    destruct (saveConnection _ _ _ _ _ w0) as [[x|e1] w1] eqn:Hsave.
    + unfold setItem, modify. discriminate.
    + intros [= _ <-]. rewrite <- Hls. by eapply saveConnection_throw.
  - unfold_monad. discriminate.
Qed.

End SavedConnections.

(** ** Connecting from the store *)

(** X21: [connectToDatabase(connection)] always returns a result and ends
    with [isConnecting] false and [isConnected] equal to the result's
    [success]; the service is left as its own [connect] leaves it.  On
    success the result is the service's, the service is connected, the
    connection is selected and the connection error cleared; on failure the
    selection is kept, the error is the result's message and the saved
    connections are not written.  The query history, result and editor text
    are never touched.  When the stored list reads as an array without
    [null] entries the result is the service's and the store's
    [isConnected] agrees with the service. *)
Theorem X21_connectToDatabase_outcome env parse stringify fresh now now' connection
    (w : ConnectionActions.World) :
  let run := ConnectionActions.connectToDatabase env parse stringify fresh now now'
               connection w in
  let connected := Renderer.connect env connection
                     (Store.service (ConnectionActions.store w)) in
  let st := Store.state (ConnectionActions.store w) in
  let st' := Store.state (ConnectionActions.store (snd run)) in
  exists result,
    fst run = Ok result
    /\ Store.service (ConnectionActions.store (snd run)) = snd connected
    /\ Store.isConnecting st' = false
    /\ Store.isConnected st' = success result
    /\ (success result = true ->
        fst connected = Ok result
        /\ Renderer.isConnected (snd connected) = true
        /\ Store.selectedConnection st' = Some connection
        /\ Store.connectionError st' = None)
    /\ (success result = false ->
        Store.selectedConnection st' = Store.selectedConnection st
        /\ Store.connectionError st' = Some (message result)
        /\ ConnectionManager.localStorage (ConnectionActions.manager (snd run))
           = ConnectionManager.localStorage (ConnectionActions.manager w))
    /\ Store.queryHistory st' = Store.queryHistory st
    /\ Store.queryResult st' = Store.queryResult st
    /\ Store.currentQuery st' = Store.currentQuery st
    /\ (forall l, stored parse (ConnectionActions.manager w) l ->
                  Forall (fun c => c <> ConnectionManager.JsonNull) l ->
                  fst connected = Ok result
                  /\ Store.isConnected st' = Renderer.isConnected (snd connected)).
Proof.
  destruct w as [[s r k] mw]. simpl.
  destruct (renderer_connect_spec env connection r) as (res & Hres & _ & _ & Hconn & _).
  simpl in Hconn.
  unfold ConnectionActions.connectToDatabase, ConnectionActions.in_store,
    ConnectionActions.in_manager, Store.set, Store.call.
  unfold_monad. simpl.
  destruct (Renderer.connect env connection r) as [x r'] eqn:Hrun. simpl in *. subst x.
  destruct (success res) eqn:Hs; simpl.
  - destruct (id connection) as [i|]; simpl.
    + destruct (truthy i); simpl.
      * destruct (ConnectionManagerService.updateLastUsed parse stringify fresh now now' i mw)
          as [[[]|e] mw'] eqn:Hupd; simpl.
        -- exists res. rewrite Hs. repeat split; auto; discriminate.
        -- assert (Hno : forall l, stored parse mw l ->
                       Forall (fun c => c <> ConnectionManager.JsonNull) l -> False).
           { intros l H1 H2.
             destruct (updateLastUsed_run parse stringify fresh now now' i mw l H1 H2)
               as (w1 & Hok & _).
             congruence. }
           eexists. simpl.
           split; [reflexivity|]. split; [reflexivity|]. split; [reflexivity|].
           split; [reflexivity|]. split; [discriminate|].
           split.
           { intros _. split; [reflexivity|]. split; [reflexivity|].
             by eapply updateLastUsed_throw. }
           split; [reflexivity|]. split; [reflexivity|]. split; [reflexivity|].
           intros l H1 H2. destruct (Hno l H1 H2).
      * exists res. rewrite Hs. repeat split; auto; discriminate.
    + exists res. rewrite Hs. repeat split; auto; discriminate.
  - exists res. rewrite Hs. repeat split; auto; discriminate.
Qed.

(** ** The explorer's actions *)

Lemma trimStart_rev_app s : forall acc,
  trimStart acc <> "" -> trimStart (String.rev_app s acc) <> "".
Proof.
  induction s as [|a s IH]; intros acc H; simpl; [exact H|].
  apply IH. simpl. destruct (is_whitespace a); [exact H|discriminate].
Qed.

Lemma rev_app_nonempty s : forall acc, acc <> "" -> String.rev_app s acc <> "".
Proof.
  induction s as [|a s IH]; intros acc H; simpl; [exact H|].
  apply IH. discriminate.
Qed.

(** A string that starts with a character that is not white space is not
    blank. *)
Lemma trim_nonblank c s : is_whitespace c = false -> trim (String c s) <> "".
Proof.
  intros Hc. unfold trim, trimEnd. simpl. rewrite Hc.
  assert (H : trimStart (String.rev (String c s)) <> "").
  { unfold String.rev. simpl. apply trimStart_rev_app. simpl. rewrite Hc. discriminate. }
  destruct (trimStart (String.rev (String c s))) as [|a t]; [congruence|].
  unfold String.rev. simpl. apply rev_app_nonempty. discriminate.
Qed.

Lemma effective_given q (w : Store.World) : q <> "" -> effective (Some q) w = q.
Proof.
  intros H. unfold effective, or_else.
  destruct (truthy q) eqn:E; [reflexivity|]. by apply truthy_false in E.
Qed.

Lemma store_executeQuery_returns env q (w : Store.World) :
  exists r, fst (Store.executeQuery env q w) = Ok r.
Proof.
  destruct (String.eqb_spec (trim (effective q w)) "") as [H|H].
  - rewrite (executeQuery_blank env q w H). eauto.
  - pose proof (executeQuery_cases env q w H) as Hc. simpl in Hc.
    destruct (Renderer.executeQuery env (effective q w) (Store.service w)) as [[res|e] r1];
      rewrite Hc; eauto.
Qed.

Lemma viewTableData_query_nonblank schema table :
  ExplorerActions.viewTableData_query schema table <> ""
  /\ trim (ExplorerActions.viewTableData_query schema table) <> "".
Proof. split; [discriminate|]. by apply trim_nonblank. Qed.

Lemma viewTableColumns_query_nonblank schema table :
  ExplorerActions.viewTableColumns_query schema table <> ""
  /\ trim (ExplorerActions.viewTableColumns_query schema table) <> "".
Proof. split; [discriminate|]. by apply trim_nonblank. Qed.

Lemma generateSelectQuery_query_nonblank schema table columns :
  ExplorerActions.generateSelectQuery_query schema table columns <> ""
  /\ trim (ExplorerActions.generateSelectQuery_query schema table columns) <> "".
Proof. split; [discriminate|]. by apply trim_nonblank. Qed.

Lemma run_outcome_executeQuery env q (s : Store.World) :
  q <> "" -> trim q <> "" ->
  run_outcome env q s (snd (Store.executeQuery env (Some q) s)).
Proof.
  intros Hq Ht. unfold run_outcome.
  assert (He : effective (Some q) s = q) by (by apply effective_given).
  assert (Ht' : trim (effective (Some q) s) <> "") by (by rewrite He).
  pose proof (executeQuery_cases env (Some q) s Ht') as Hc. simpl in Hc.
  rewrite He in Hc.
  destruct (Renderer.executeQuery env q (Store.service s)) as [[res|e] r1];
    rewrite Hc; simpl; auto.
Qed.

(** X22: [viewTableData(schema, table)] never throws and never sets the
    explorer's error: its [catch] is not reachable, since the store's run
    does not throw.  Its query [SELECT * FROM "schema"."table" LIMIT 100] is
    never blank, so it is always run: on success the result is stored and
    the query put at the head of the history; on failure (not connected, or
    rejected by the driver) the error appears as the store's query error and
    the history and the stored result are kept. *)
Theorem X22_viewTableData_outcome env schema table (w : ExplorerActions.World) :
  let q := ExplorerActions.viewTableData_query schema table in
  let w' := snd (ExplorerActions.viewTableData env schema table w) in
  fst (ExplorerActions.viewTableData env schema table w) = Ok tt
  /\ ExplorerActions.error w' = ExplorerActions.error w
  /\ ExplorerActions.store w'
     = snd (Store.executeQuery env (Some q) (ExplorerActions.store w))
  /\ trim q <> ""
  /\ run_outcome env q (ExplorerActions.store w) (ExplorerActions.store w').
Proof.
  intros q w'.
  destruct (viewTableData_query_nonblank schema table) as [Hq Ht]. fold q in Hq, Ht.
  assert (Hrun : ExplorerActions.viewTableData env schema table w
                 = (Ok tt, {| ExplorerActions.error := ExplorerActions.error w;
                              ExplorerActions.store :=
                                snd (Store.executeQuery env (Some q)
                                       (ExplorerActions.store w)) |})).
  { destruct (store_executeQuery_returns env (Some q) (ExplorerActions.store w))
      as [r Hr].
    unfold ExplorerActions.viewTableData, ExplorerActions.in_store.
    unfold_monad. fold q.
    destruct (Store.executeQuery env (Some q) (ExplorerActions.store w)) as [x s'].
    simpl in Hr. subst x. reflexivity. }
  unfold w'. rewrite Hrun. simpl.
  repeat (split; [reflexivity || assumption|]).
  by apply run_outcome_executeQuery.
Qed.

(** X23: [generateSelectQuery] and [viewTableColumns] never throw.  When
    the request for the columns fails (always so when the service is not
    connected, with ['No active database connection']), the explorer's error
    is set to the action's label followed by the error's message, no query
    is run and the store's state is left as it was.  When the columns
    arrive, the explorer's error is left alone and the action's query, which
    is never blank, is run by the store: its result or its failure is
    recorded there as for any run. *)
Theorem X23_column_actions_outcome env schema table (w : ExplorerActions.World) :
  let s := ExplorerActions.store w in
  let with_service r1 :=
    {| Store.state := Store.state s; Store.service := r1; Store.clock := Store.clock s |} in
  let after label e r1 :=
    (Ok tt, {| ExplorerActions.error := Some (label +:+ Js.message e);
               ExplorerActions.store := with_service r1 |}) in
  let ran q r1 :=
    (Ok tt, {| ExplorerActions.error := ExplorerActions.error w;
               ExplorerActions.store :=
                 snd (Store.executeQuery env (Some q) (with_service r1)) |}) in
  match Renderer.getTableColumns env schema table (Store.service s) with
  | (Throw e, r1) =>
      ExplorerActions.generateSelectQuery env schema table w
      = after "Failed to generate query: " e r1
      /\ ExplorerActions.viewTableColumns env schema table w
         = after "Failed to get table columns: " e r1
  | (Ok columns, r1) =>
      let generated := ExplorerActions.generateSelectQuery_query schema table columns in
      let listing := ExplorerActions.viewTableColumns_query schema table in
      ExplorerActions.generateSelectQuery env schema table w = ran generated r1
      /\ ExplorerActions.viewTableColumns env schema table w = ran listing r1
      /\ run_outcome env generated (with_service r1)
           (snd (Store.executeQuery env (Some generated) (with_service r1)))
      /\ run_outcome env listing (with_service r1)
           (snd (Store.executeQuery env (Some listing) (with_service r1)))
  end
  /\ (Renderer.isConnected (Store.service s) = false ->
      Renderer.getTableColumns env schema table (Store.service s)
      = (Throw (mkError "No active database connection"), Store.service s)).
Proof.
  intros s with_service after ran. split.
  - destruct (Renderer.getTableColumns env schema table (Store.service s))
      as [[columns|e] r1] eqn:Hask.
    + intros generated listing.
      destruct (generateSelectQuery_query_nonblank schema table columns) as [Hg Hgt].
      destruct (viewTableColumns_query_nonblank schema table) as [Hl Hlt].
      fold generated in Hg, Hgt. fold listing in Hl, Hlt.
      split; [|split; [|split]].
      * destruct (store_executeQuery_returns env (Some generated) (with_service r1))
          as [r Hr].
        unfold ExplorerActions.generateSelectQuery, ExplorerActions.in_store, Store.call.
        unfold_monad. fold s. rewrite Hask. simpl. fold generated.
        unfold ran. fold (with_service r1).
        destruct (Store.executeQuery env (Some generated) (with_service r1)) as [x s'].
        simpl in Hr. subst x. reflexivity.
      * destruct (store_executeQuery_returns env (Some listing) (with_service r1))
          as [r Hr].
        unfold ExplorerActions.viewTableColumns, ExplorerActions.in_store, Store.call.
        unfold_monad. fold s. rewrite Hask. simpl. fold listing.
        unfold ran. fold (with_service r1).
        destruct (Store.executeQuery env (Some listing) (with_service r1)) as [x s'].
        simpl in Hr. subst x. reflexivity.
      * by apply run_outcome_executeQuery.
      * by apply run_outcome_executeQuery.
    + split.
      * unfold ExplorerActions.generateSelectQuery, ExplorerActions.in_store, Store.call,
          ExplorerActions.setError.
        unfold_monad. fold s. rewrite Hask. reflexivity.
      * unfold ExplorerActions.viewTableColumns, ExplorerActions.in_store, Store.call,
          ExplorerActions.setError.
        unfold_monad. fold s. rewrite Hask. reflexivity.
  - intros Hnc. unfold Renderer.getTableColumns, Renderer.no_connection.
    unfold_monad. unfold Renderer.isConnected in Hnc. rewrite Hnc. reflexivity.
Qed.
